(** * openlinc: the AJAX polling queue of [myJS.js]

    A shallow embedding of [newAJAXCommand], [pollAJAX] and [getXMLValue]
    (src/unmodified/v2/myJS.js, lines 1-78) and the properties of the poll
    scheduler, the completion sinks and the response extractor.

    The script runs on the single JavaScript thread of a browser page.  Its
    state is the global array [ajaxList]; everything else it touches (the
    [Date] clock, the [XMLHttpRequest] objects, the document, [alert],
    [setTimeout], the handler functions passed as [container]) belongs to
    the browser and is modelled by the [world] and [env] records below.

    The development goes on to the status handlers of the scenes page
    ([startinabit], [startsd], [UpdateStatusD], [UpdateStatusL] and the row
    check of [MakeSceneControl], lines 105-316 of the same file) and to the
    image builder src/tools/mpfs2-make-image, a Perl script, each with a
    model of its own further down. *)

From Stdlib Require Import ZArith DecimalString.
From stdpp Require Import base strings list gmap.

Local Open Scope string_scope.
Local Open Scope list_scope.
Local Open Scope nat_scope.

(** ** JavaScript values *)

(** The values the script passes around as [container], [repeat] and
    [data].  A function value is identified by its name. *)
Inductive jsval :=
| JUndefined
| JNull
| JBool (b : bool)
| JNumber (n : Z)
| JString (s : string)
| JFunction (f : string).

Definition typeof (v : jsval) : string :=
  match v with
  | JUndefined => "undefined"
  | JNull => "object"
  | JBool _ => "boolean"
  | JNumber _ => "number"
  | JString _ => "string"
  | JFunction _ => "function"
  end.

(** ToBoolean, as applied by [if(curAjax.repeat)]. *)
Definition truthy (v : jsval) : bool :=
  match v with
  | JUndefined | JNull => false
  | JBool b => b
  | JNumber n => negb (n =? 0)%Z
  | JString s => negb (String.eqb s "")
  | JFunction _ => true
  end.

(** ** XML documents *)

Set Warnings "-register-all".

Inductive node :=
| Element (tag : string) (children : list node)
| Text (data : string)
| CData (data : string)
| Comment (data : string).

(** [n.nodeValue]: [null] for an element, the character data otherwise. *)
Definition nodeValue (n : node) : option string :=
  match n with
  | Element _ _ => None
  | Text d | CData d | Comment d => Some d
  end.

(** [n.firstChild]: [null] when there is no child. *)
Definition firstChild (n : node) : option node :=
  match n with
  | Element _ (c :: _) => Some c
  | _ => None
  end.

(** The elements strictly below [n], in document order. *)
Fixpoint descendants (n : node) : list node :=
  match n with
  | Element _ cs =>
      (fix below (l : list node) : list node :=
         match l with
         | [] => []
         | c :: l' =>
             match c with
             | Element _ _ => c :: descendants c ++ below l'
             | _ => below l'
             end
         end) cs
  | _ => []
  end.

(** The name test of [getElementsByTagName]: ["*"] matches every element. *)
Definition tagMatches (field : string) (n : node) : bool :=
  match n with
  | Element t _ => String.eqb field "*" || String.eqb t field
  | _ => false
  end.

Definition getElementsByTagName (n : node) (field : string) : list node :=
  List.filter (tagMatches field) (descendants n).

(** ** Outcomes: a value or a thrown exception *)

Inductive exn :=
| TypeError        (* property access on null or undefined *)
| HandlerError.    (* thrown by a handler function *)

Inductive result (A : Type) :=
| Val (a : A)
| Throw (e : exn).
Arguments Val {A} a.
Arguments Throw {A} e.

(** ** The response extractor, lines 69-76 *)

(** The body of the [try] block.  [xmlData] is [null] (the argument a
    handler gets on timeout) or a node. *)
Definition getXMLValue_try (xmlData : option node) (field : string)
  : result (option string) :=
  match xmlData with
  | None => Throw TypeError                      (* null.getElementsByTagName *)
  | Some (Element _ _ as root) =>
      match getElementsByTagName root field with
      | [] => Throw TypeError                    (* undefined.firstChild *)
      | e :: _ =>
          match firstChild e with
          | None => Throw TypeError              (* null.nodeValue *)
          | Some c =>
              match nodeValue c with
              | Some v => if String.eqb v "" then Val None else Val (Some v)
              | None => Val None
              end
          end
      end
  | Some _ => Throw TypeError     (* character data has no getElementsByTagName *)
  end.

(** [try { ... } catch(err) { return null; }] *)
Definition getXMLValue (xmlData : option node) (field : string)
  : result (option string) :=
  match getXMLValue_try xmlData field with
  | Val v => Val v
  | Throw _ => Val None
  end.

(** [n.textContent]: the character data of [n] or, for an element, of
    everything inside it, comments left out. *)
Fixpoint textContent (n : node) : string :=
  match n with
  | Element _ cs =>
      (fix inside (l : list node) : string :=
         match l with
         | [] => ""
         | Comment _ :: l' => inside l'
         | c :: l' => textContent c +:+ inside l'
         end) cs
  | Text d | CData d | Comment d => d
  end.

(** The elements of a body named [field], the body itself included. *)
Definition elementsNamed (root : node) (field : string) : list node :=
  List.filter (tagMatches field) (root :: descendants root).

(** The extractor that would return the text content of the first element
    of the body named [field], and [null] when there is none or it has no
    text. *)
Definition returnsTextContent (xmlData : option node) (field : string)
  : Prop :=
  getXMLValue xmlData field
  = Val (match xmlData with
         | Some root =>
             match elementsNamed root field with
             | e :: _ =>
                 if String.eqb (textContent e) "" then None
                 else Some (textContent e)
             | [] => None
             end
         | None => None
         end).

(** ** The document *)

(** The script finds elements by id and assigns their [innerHTML].  What
    that needs of the document is the elements that carry an id and how
    they are nested: [children e] are the elements with an id inside [e]
    that have no other such element between [e] and themselves. *)
Inductive element :=
| El (id : string) (children : list element).

Record document := {
  roots : list element;
}.

(** The first element named [id] in [e] and below, in document order. *)
Fixpoint findElement (id : string) (e : element) : option element :=
  match e with
  | El i kids =>
      if String.eqb i id then Some e
      else (fix among (l : list element) : option element :=
              match l with
              | [] => None
              | k :: l' =>
                  match findElement id k with
                  | Some x => Some x
                  | None => among l'
                  end
              end) kids
  end.

Fixpoint findAmong (id : string) (l : list element) : option element :=
  match l with
  | [] => None
  | k :: l' =>
      match findElement id k with
      | Some x => Some x
      | None => findAmong id l'
      end
  end.

(** [document.getElementById(id)]: [null] when no element has the id, as
    for the empty string. *)
Definition getElementById (d : document) (id : string) : option element :=
  if String.eqb id "" then None else findAmong id (roots d).

Global Instance document_lookup : Lookup string element document :=
  fun id d => getElementById d id.

(** [e] with the children of the first element named [id] replaced by
    [new]; nothing when [e] has no such element. *)
Fixpoint setChildren (id : string) (new : list element) (e : element)
  : option element :=
  match e with
  | El i kids =>
      if String.eqb i id then Some (El i new)
      else
        match (fix among (l : list element) : option (list element) :=
                 match l with
                 | [] => None
                 | k :: l' =>
                     match setChildren id new k with
                     | Some k' => Some (k' :: l')
                     | None =>
                         match among l' with
                         | Some l'' => Some (k :: l'')
                         | None => None
                         end
                     end
                 end) kids with
        | Some kids' => Some (El i kids')
        | None => None
        end
  end.

Fixpoint setAmong (id : string) (new : list element) (l : list element)
  : option (list element) :=
  match l with
  | [] => None
  | k :: l' =>
      match setChildren id new k with
      | Some k' => Some (k' :: l')
      | None =>
          match setAmong id new l' with
          | Some l'' => Some (k :: l'')
          | None => None
          end
      end
  end.

(** The document after [innerHTML] of the element that [getElementById]
    finds for [id] was assigned markup with the elements [new]: what was
    inside the element is gone, and [new] is there instead. *)
Definition withChildren (d : document) (id : string) (new : list element)
  : document :=
  match setAmong id new (roots d) with
  | Some l => {| roots := l |}
  | None => d
  end.

(** ** The browser *)

(** An [XMLHttpRequest] object as the script reads it.  [responseXML] is
    [null] until a response has been parsed as XML; otherwise it is a
    document, given here by its [documentElement]. *)
Record xhr := {
  xid : nat;
  readyState : Z;
  status : Z;
  responseXML : option node;
  responseText : string;
}.

(** One entry of [ajaxList], the object built by [newAJAXCommand].  [oid]
    is the identity of the object ([new Object()] at line 6); [xid] above
    is the identity of the request object. *)
Record ajax := {
  oid : nat;
  url : string;
  container : jsval;
  repeat : jsval;
  ajaxReq : option xhr;
  lastCalled : Z;
}.

Inductive event :=
| EvOpen (x : nat) (method : string) (u : string) (async : bool)
| EvSend (x : nat) (data : jsval)
| EvAbort (x : nat)
| EvCall (f : string) (arg : option node)
| EvInnerHTML (id : string) (html : string)
| EvAlert (msg : string)
| EvSetTimeout (code : string) (ms : Z).

(** The mutable state: the script's queue, the document, the clock
    ([times k] is what the [k]-th [new Date()] of the run reads), the
    identity of the next object to be allocated, and the calls made on the
    browser so far, oldest first. *)
Record world := {
  ajaxList : list ajax;
  dom : document;
  times : nat -> Z;
  reads : nat;
  next_oid : nat;
  trace : list event;
}.

(** What a call of a handler function does, as far as the queue can see:
    the commands it issues through [newAJAXCommand] before it returns, and
    whether it then throws.  What it does to the document is not
    followed. *)
Record hresult := {
  h_issues : list (string * jsval * jsval * jsval);
  h_throws : bool;
}.

(** The page the script is loaded in: which request constructors [window]
    has, the handler functions by name, and the parser of the browser, of
    which the model needs the elements with an id that it makes of a piece
    of markup.  What a handler does may depend on its argument and on the
    state of the page, that is on the calls made so far, its third
    argument. *)
Record env := {
  hasXMLHttpRequest : bool;
  hasActiveXObject : bool;
  handlers : string -> option node -> list event -> hresult;
  parseHTML : string -> list element;
}.

(** ** A state and exception monad over [world] *)

Definition M (A : Type) : Type := world -> result A * world.

Definition ret {A} (a : A) : M A := fun w => (Val a, w).

Definition bind {A B} (m : M A) (k : A -> M B) : M B :=
  fun w =>
    match m w with
    | (Val a, w') => k a w'
    | (Throw e, w') => (Throw e, w')
    end.

Definition throw {A} (e : exn) : M A := fun w => (Throw e, w).

Notation "'do' x <- m 'in' k" := (bind m (fun x => k))
  (at level 10, x name, m at level 100, k at level 200, only parsing).
Notation "'run' m 'in' k" := (bind m (fun _ => k))
  (at level 10, m at level 100, k at level 200, only parsing).

(** The world with one more call on the browser. *)
Definition addEvent (e : event) (w : world) : world :=
  {| ajaxList := ajaxList w; dom := dom w; times := times w;
     reads := reads w; next_oid := next_oid w;
     trace := trace w ++ [e] |}.

Definition emit (e : event) : M unit :=
  fun w => (Val tt, addEvent e w).

(** [new Date()]: the time value of the new object, which is what its
    [getTime()] returns from then on. *)
Definition newDate : M Z :=
  fun w => (Val (times w (reads w)),
            {| ajaxList := ajaxList w; dom := dom w; times := times w;
               reads := S (reads w); next_oid := next_oid w;
               trace := trace w |}).

(** The world with [a] at the tail of the queue. *)
Definition enqueue (a : ajax) (w : world) : world :=
  {| ajaxList := ajaxList w ++ [a]; dom := dom w; times := times w;
     reads := reads w; next_oid := next_oid w;
     trace := trace w |}.

(** [ajaxList.push(a)] *)
Definition push (a : ajax) : M unit :=
  fun w => (Val tt, enqueue a w).

(** The world with the queue replaced by [l]. *)
Definition setQueue (l : list ajax) (w : world) : world :=
  {| ajaxList := l; dom := dom w; times := times w;
     reads := reads w; next_oid := next_oid w;
     trace := trace w |}.

(** [ajaxList.shift()]: [undefined] on an empty array. *)
Definition shift : M (option ajax) :=
  fun w =>
    match ajaxList w with
    | [] => (Val None, w)
    | a :: l => (Val (Some a), setQueue l w)
    end.

(** [new Object()]: the identity of a fresh object. *)
Definition newObject : M nat :=
  fun w => (Val (next_oid w),
            {| ajaxList := ajaxList w; dom := dom w; times := times w;
               reads := reads w; next_oid := S (next_oid w);
               trace := trace w |}).

(** A request constructor: a fresh object in state UNSENT. *)
Definition newRequest : M xhr :=
  do x <- newObject in
  ret {| xid := x; readyState := 0; status := 0;
         responseXML := None; responseText := "" |}.

(** [x.open("POST", u, true)]: the object is now OPENED. *)
Definition xhr_open (x : xhr) (u : string) : M xhr :=
  run emit (EvOpen (xid x) "POST" u true) in
  ret {| xid := xid x; readyState := 1; status := status x;
         responseXML := responseXML x; responseText := responseText x |}.

Definition xhr_send (x : xhr) (data : jsval) : M unit :=
  emit (EvSend (xid x) data).

Definition xhr_abort (x : xhr) : M unit :=
  emit (EvAbort (xid x)).

(** [document.getElementById(id).innerHTML = html]: the markup is parsed
    and what it gives replaces what was inside the element. *)
Definition setInnerHTML (E : env) (id : string) (html : string) : M unit :=
  fun w =>
    match dom w !! id with
    | None => (Throw TypeError, w)               (* null.innerHTML *)
    | Some _ =>
        (Val tt,
         {| ajaxList := ajaxList w;
            dom := withChildren (dom w) id (parseHTML E html);
            times := times w; reads := reads w; next_oid := next_oid w;
            trace := trace w ++ [EvInnerHTML id html] |})
    end.

Definition alert (msg : string) : M unit := emit (EvAlert msg).

Definition setTimeout (code : string) (ms : Z) : M unit :=
  emit (EvSetTimeout code ms).

(** ** The script *)

Definition lostMessage : string :=
  ("Command failed." ++
   String (Ascii.ascii_of_nat 10) "Connection to SmartLinc was lost.")%string.

Definition timeOutMS : Z := 30000.

Section Script.

Variable E : env.

(** Lines 12-22: the request object of a new command, [null] when the
    page has neither constructor. *)
Definition startRequest (u : string) (data : jsval) : M (option xhr) :=
  if hasXMLHttpRequest E then
    do x <- newRequest in
    do x <- xhr_open x u in
    run xhr_send x data in
    ret (Some x)
  else if hasActiveXObject E then
    do x <- newRequest in                  (* an object: line 18 lets it pass *)
    do x <- xhr_open x u in
    run xhr_send x data in
    ret (Some x)
  else ret None.

(** Lines 4-25. *)
Definition newAJAXCommand (u : string) (c r data : jsval) : M unit :=
  do newAjax <- newObject in
  do theTimer <- newDate in
  do req <- startRequest u data in
  push {| oid := newAjax; url := u; container := c; repeat := r;
          ajaxReq := req; lastCalled := theTimer |}.

(** The commands a handler issues while it runs. *)
Fixpoint issueAll (l : list (string * jsval * jsval * jsval)) : M unit :=
  match l with
  | [] => ret tt
  | (u, c, r, d) :: l' => run newAJAXCommand u c r d in issueAll l'
  end.

(** [curAjax.container(arg)] for a function [f]. *)
Definition callHandler (f : string) (arg : option node) : M unit :=
  do h <- (fun w => (Val (handlers E f arg (trace w)), w)) in
  run emit (EvCall f arg) in
  run issueAll (h_issues h) in
  if h_throws h then throw HandlerError else ret tt.

(** [if(curAjax.repeat) newAJAXCommand(curAjax.url, curAjax.container,
    curAjax.repeat);]: the fourth argument is left out. *)
Definition reissue (cur : ajax) : M unit :=
  if truthy (repeat cur)
  then newAJAXCommand (url cur) (container cur) (repeat cur) JUndefined
  else ret tt.

(** Lines 39-43: what the ready branch does with the container. *)
Definition dispatchReady (cur : ajax) (req : xhr) : M unit :=
  match container cur with
  | JFunction f =>                               (* typeof == 'function' *)
      match responseXML req with
      | None => throw TypeError                  (* null.documentElement *)
      | Some root => callHandler f (Some root)
      end
  | JString id => setInnerHTML E id (responseText req) (* typeof == 'string' *)
  | _ => ret tt
  end.

(** Lines 53-57: what the timeout branch does with the container. *)
Definition dispatchTimeout (cur : ajax) : M unit :=
  match container cur with
  | JFunction f => callHandler f None
  | _ => alert lostMessage
  end.

(** Lines 37-64: the body of the loop for a record [curAjax] that was
    taken off the queue.  [now] is [theTimer.getTime()], the time value of
    the [Date] made at line 30. *)
Definition processRecord (now : Z) (curAjax : ajax) : M unit :=
  let elapsed := (now - lastCalled curAjax)%Z in
  match ajaxReq curAjax with
  | None => throw TypeError                      (* line 38: null.readyState *)
  | Some req =>
      if ((readyState req =? 4)%Z && (status req =? 200)%Z)%bool then
        run dispatchReady curAjax req in
        run xhr_abort req in                     (* and curAjax.ajaxReq = null *)
        reissue curAjax
      else if (elapsed >? timeOutMS)%Z then
        run dispatchTimeout curAjax in
        run xhr_abort req in
        reissue curAjax
      else push curAjax
  end.

(** Lines 32-65: [i] counts down from [ajaxList.length]. *)
Fixpoint pollLoop (now : Z) (i : nat) : M unit :=
  match i with
  | O => ret tt
  | S i' =>
      do curAjax <- shift in
      match curAjax with
      | None => pollLoop now i'                  (* line 36: continue *)
      | Some cur => run processRecord now cur in pollLoop now i'
      end
  end.

(** Lines 27-68. *)
Definition pollAJAX : M unit :=
  do curAjax <- newObject in                     (* line 29, never used *)
  do theTimer <- newDate in
  do n <- (fun w => (Val (length (ajaxList w)), w)) in
  run pollLoop theTimer n in
  setTimeout "pollAJAX()" 10.

End Script.

(** ** Vocabulary of the properties *)

(** The calls by which a record reports its outcome: a handler call, a
    write into a render target, an alert. *)
Definition isDispatch (e : event) : bool :=
  match e with
  | EvCall _ _ | EvInnerHTML _ _ | EvAlert _ => true
  | _ => false
  end.

Definition isAbort (e : event) : bool :=
  match e with
  | EvAbort _ => true
  | _ => false
  end.

Definition isSetTimeout (e : event) : bool :=
  match e with
  | EvSetTimeout _ _ => true
  | _ => false
  end.

(** The calls made between [w] and a later [w']. *)
Definition newEvents (w w' : world) : list event :=
  drop (length (trace w)) (trace w').

Definition isRequestStart (e : event) : bool :=
  match e with
  | EvOpen _ _ _ _ | EvSend _ _ => true
  | _ => false
  end.

(** A record [a] built for the command [(u, c, r, data)]. *)
Definition matchesCommand (a : ajax) (cmd : string * jsval * jsval * jsval)
  : Prop :=
  url a = cmd.1.1.1 ∧ container a = cmd.1.1.2 ∧ repeat a = cmd.1.2.

(** [w'] is [w] after the commands [cmds] were issued and nothing else
    happened: [added] are the records at the tail of the queue, one per
    command, each a new object of its own, and [evs] the calls that opened
    and sent their requests. *)
Record issuesOf (cmds : list (string * jsval * jsval * jsval))
    (w w' : world) (added : list ajax) (evs : list event) : Prop := {
  io_queue : ajaxList w' = ajaxList w ++ added;
  io_match : Forall2 matchesCommand added cmds;
  io_fresh : Forall (fun a => next_oid w ≤ oid a < next_oid w') added;
  io_trace : trace w' = trace w ++ evs;
  io_quiet : Forall (fun e => isRequestStart e = true) evs;
  io_idle : cmds = [] → evs = [];
  io_dom : dom w' = dom w;
  io_times : times w' = times w;
  io_reads : reads w ≤ reads w';
  io_oid : next_oid w ≤ next_oid w';
  io_nodup : NoDup (oid <$> added);
}.

(** [readyState == 4 && status == 200] *)
Definition readyOK (req : xhr) : bool :=
  (readyState req =? 4)%Z && (status req =? 200)%Z.

Section Issued.

Variable E : env.

Definition canRequest : bool := hasXMLHttpRequest E || hasActiveXObject E.

(** The record that [newAJAXCommand(u, c, r, data)] builds in [w]. *)
Definition newAjaxOf (u : string) (c r : jsval) (w : world) : ajax :=
  {| oid := next_oid w; url := u; container := c; repeat := r;
     ajaxReq :=
       if canRequest
       then Some {| xid := S (next_oid w); readyState := 1; status := 0;
                    responseXML := None; responseText := "" |}
       else None;
     lastCalled := times w (reads w) |}.

(** The world after [newAJAXCommand(u, c, r, data)]. *)
Definition issued (u : string) (c r data : jsval) (w : world) : world :=
  {| ajaxList := ajaxList w ++ [newAjaxOf u c r w];
     dom := dom w;
     times := times w;
     reads := S (reads w);
     next_oid := if canRequest then S (S (next_oid w)) else S (next_oid w);
     trace := trace w ++
              if canRequest
              then [EvOpen (S (next_oid w)) "POST" u true;
                    EvSend (S (next_oid w)) data]
              else [] |}.

(** The command by which a resolved record is issued again. *)
Definition repeatCommand (cur : ajax)
  : list (string * jsval * jsval * jsval) :=
  if truthy (repeat cur)
  then [(url cur, container cur, repeat cur, JUndefined)]
  else [].

(** The commands that the handler of [cur] issues when [cur] is resolved
    in [w]: none unless [container] is a function. *)
Definition handlerCommands (cur : ajax) (w : world)
  : list (string * jsval * jsval * jsval) :=
  match container cur, ajaxReq cur with
  | JFunction f, Some req =>
      h_issues (handlers E f (if readyOK req then responseXML req else None)
                         (trace w))
  | _, _ => []
  end.

(** Whether the handler of [cur] throws when [cur] is resolved in [w]. *)
Definition handlerThrows (cur : ajax) (req : xhr) (w : world) : bool :=
  match container cur with
  | JFunction f =>
      h_throws (handlers E f (if readyOK req then responseXML req else None)
                         (trace w))
  | _ => false
  end.

End Issued.

(** The ready branch cannot reach its sink: the response has no document
    to hand to a function, or the document has no element with the id. *)
Definition sinkMissing (cur : ajax) (req : xhr) (w : world) : Prop :=
  readyOK req = true ∧
  match container cur with
  | JFunction _ => responseXML req = None
  | JString id => dom w !! id = None
  | _ => False
  end.

(** The world in which the loop of [pollAJAX] starts: lines 29 and 30 have
    allocated an object and read the clock. *)
Definition tickStart (w : world) : world :=
  {| ajaxList := ajaxList w; dom := dom w; times := times w;
     reads := S (reads w); next_oid := S (next_oid w);
     trace := trace w |}.

(** [cur] is resolved at time [now]: its request is ready with status OK,
    or it has waited longer than [timeOutMS]. *)
Definition resolves (now : Z) (cur : ajax) (req : xhr) : Prop :=
  readyOK req = true ∨ (now - lastCalled cur > timeOutMS)%Z.

(** The calls by which [cur] reports its outcome when it is resolved: lines
    39-43 when the request is ready, lines 53-57 otherwise. *)
Definition sinkCalls (cur : ajax) (req : xhr) : list event :=
  if readyOK req then
    match container cur with
    | JFunction f => [EvCall f (responseXML req)]
    | JString id => [EvInnerHTML id (responseText req)]
    | _ => []
    end
  else
    match container cur with
    | JFunction f => [EvCall f None]
    | _ => [EvAlert lostMessage]
    end.

(** The document after these calls. *)
Definition sinkDom (E : env) (cur : ajax) (req : xhr) (d : document)
  : document :=
  if readyOK req then
    match container cur with
    | JString id => withChildren d id (parseHTML E (responseText req))
    | _ => d
    end
  else d.

Definition sinkWorld (E : env) (cur : ajax) (req : xhr) (w : world) : world :=
  {| ajaxList := ajaxList w; dom := sinkDom E cur req (dom w);
     times := times w; reads := reads w; next_oid := next_oid w;
     trace := trace w ++ sinkCalls cur req |}.

(** [cur] is neither: it owns a request and goes back to the queue. *)
Definition pending (now : Z) (cur : ajax) : Prop :=
  ∃ req, ajaxReq cur = Some req ∧ ¬ resolves now cur req.

(** The queue holds objects that were allocated before, each once. *)
Definition wellFormed (w : world) : Prop :=
  Forall (fun a => oid a < next_oid w) (ajaxList w)
  ∧ NoDup (oid <$> ajaxList w).

Definition sendsNoPayload (evs : list event) : Prop :=
  Forall (fun e => match e with EvSend _ d => d = JUndefined | _ => True end)
         evs.

(** [a] is called before [b] in [l]. *)
Definition before (a b : event) (l : list event) : Prop :=
  ∃ i j, l !! i = Some a ∧ l !! j = Some b ∧ i < j.

(** The order of calls that would have every sink call of a resolved
    record made after its request was aborted. *)
Definition dispatchedAfterAbort (E : env) (now : Z) (cur : ajax) (w : world)
  : Prop :=
  ∀ req w' d,
    ajaxReq cur = Some req →
    processRecord E now cur w = (Val tt, w') →
    d ∈ sinkCalls cur req →
    before (EvAbort (xid req)) d (newEvents w w').

(** The tick goes on after a handler has thrown: it returns and has armed
    the next tick. *)
Definition survivesHandlerFault (E : env) (w : world) : Prop :=
  ∃ w', pollAJAX E w = (Val tt, w')
        ∧ List.filter isSetTimeout (newEvents w w')
          = [EvSetTimeout "pollAJAX()" 10].

(** A record without a request is resolved by the timeout branch, and
    processing it raises nothing. *)
Definition nullResolvedByTimeout (E : env) (now : Z) (cur : ajax) (w : world)
  : Prop :=
  ajaxReq cur = None →
  (now - lastCalled cur > timeOutMS)%Z →
  ∃ w', processRecord E now cur w = (Val tt, w')
        ∧ List.filter isDispatch (newEvents w w') ≠ [].

(** The call by which the ready branch dispatches [cur]: the handler with
    the document of the response, or the write of the response text. *)
Definition readyCall (cur : ajax) (req : xhr) (e : event) : Prop :=
  match container cur with
  | JFunction f => e = EvCall f (responseXML req)
  | JString id => e = EvInnerHTML id (responseText req)
  | _ => False
  end.

(** The call by which the timeout branch dispatches [cur]. *)
Definition timeoutCall (cur : ajax) (e : event) : Prop :=
  match container cur with
  | JFunction f => e = EvCall f None
  | _ => e = EvAlert lostMessage
  end.

(** The tick that starts in [w] makes a call of the kind [call]. *)
Definition dispatchedIn (E : env) (w : world) (call : event -> Prop) : Prop :=
  ∃ o w' e, pollAJAX E w = (o, w') ∧ e ∈ newEvents w w' ∧ call e.

(** Every tick takes its whole snapshot off the queue: what is in the
    queue afterwards was put there during the tick, a pending record of
    the snapshot or a new object. *)
Definition removesSnapshot (E : env) (w : world) : Prop :=
  ∀ o w',
    pollAJAX E w = (o, w') →
    Forall (fun a => (a ∈ ajaxList w ∧ pending (times w (reads w)) a)
                     ∨ next_oid w ≤ oid a) (ajaxList w').

(** Every queued record that is ready with status OK before the timeout
    is dispatched through the ready branch. *)
Definition readyDispatched (E : env) (w : world) : Prop :=
  ∀ cur req,
    cur ∈ ajaxList w → ajaxReq cur = Some req → readyOK req = true →
    (times w (reads w) - lastCalled cur < timeOutMS)%Z →
    dispatchedIn E w (readyCall cur req).

(** Every queued record that is not ready with status OK, the record
    without a request included, is dispatched through the timeout branch
    once it has waited longer than [timeOutMS]. *)
Definition timeoutDispatched (E : env) (w : world) : Prop :=
  ∀ cur,
    cur ∈ ajaxList w →
    (∀ req, ajaxReq cur = Some req → readyOK req = false) →
    (times w (reads w) - lastCalled cur > timeOutMS)%Z →
    dispatchedIn E w (timeoutCall cur).

(** Every record with [repeat] true that the tick dispatches is in the
    queue again afterwards, as a new object. *)
Definition repeatReissued (E : env) (w : world) : Prop :=
  ∀ cur req o w' e,
    cur ∈ ajaxList w → ajaxReq cur = Some req → truthy (repeat cur) = true →
    pollAJAX E w = (o, w') →
    e ∈ newEvents w w' → e ∈ sinkCalls cur req →
    ∃ a, a ∈ ajaxList w' ∧ next_oid w ≤ oid a
         ∧ url a = url cur ∧ container a = container cur
         ∧ repeat a = repeat cur.

(** Every resolved record is dispatched exactly once. *)
Definition dispatchedOnce (E : env) (now : Z) (cur : ajax) (w : world)
  : Prop :=
  ∀ req o w',
    ajaxReq cur = Some req → resolves now cur req →
    processRecord E now cur w = (o, w') →
    length (List.filter isDispatch (newEvents w w')) = 1.

(** ** A page to run the script on *)

(** The reply of the device to [statusD.xml], reduced to one field. *)
Definition statusReply (cds : list node) : node :=
  Element "response" [Element "CDS" cds].

Definition statusText : string := "<response><CDS>3</CDS></response>".

(** Handlers: [UpdateStatusD] returns; [Chained] issues a command of its
    own before it returns; [Faulty] throws. *)
Definition pageHandlers (f : string) (arg : option node) (_ : list event)
  : hresult :=
  if String.eqb f "Faulty" then {| h_issues := []; h_throws := true |}
  else if String.eqb f "Chained" then
    {| h_issues := [("rstatus.xml", JFunction "UpdateStatusD", JUndefined,
                     JString "poll")];
       h_throws := false |}
  else {| h_issues := []; h_throws := false |}.

(** Markup with one element that has an id, and what the parser makes of
    it; the status reply has no such element. *)
Definition buttonText : string := "<input type='button' id='B2'>".

Definition pageParser (html : string) : list element :=
  if String.eqb html buttonText then [El "B2" []] else [].

(** A browser with [XMLHttpRequest], and one with no request constructor. *)
Definition page : env :=
  {| hasXMLHttpRequest := true; hasActiveXObject := false;
     handlers := pageHandlers; parseHTML := pageParser |}.

Definition barePage : env :=
  {| hasXMLHttpRequest := false; hasActiveXObject := false;
     handlers := pageHandlers; parseHTML := pageParser |}.

(** A request that came back with the status reply, and one in flight. *)
Definition doneRequest (x : nat) : xhr :=
  {| xid := x; readyState := 4; status := 200;
     responseXML := Some (statusReply [Text "3"]);
     responseText := statusText |}.

Definition openRequest (x : nat) : xhr :=
  {| xid := x; readyState := 1; status := 0;
     responseXML := None; responseText := "" |}.

Definition command (o : nat) (c r : jsval) (req : option xhr) (at_ : Z)
  : ajax :=
  {| oid := o; url := "statusD.xml"; container := c; repeat := r;
     ajaxReq := req; lastCalled := at_ |}.

(** The document of the page: the button B1 inside X, the field RT inside
    foot. *)
Definition pageDocument : document :=
  {| roots := [El "X" [El "B1" []]; El "foot" [El "RT" []]] |}.

(** A world with the queue [q] whose clock reads 40000, 40001, ... *)
Definition pageWith (q : list ajax) : world :=
  {| ajaxList := q; dom := pageDocument;
     times := fun k => (40000 + Z.of_nat k)%Z;
     reads := 0; next_oid := 100; trace := [] |}.

(** Commands in the queue at time 40000: one still in flight, one answered
    whose handler issues a command of its own and which repeats, one that
    has waited 35 s for its render target, one answered whose handler
    throws, one issued with the URL alone, one without a request that
    has waited 35 s, one answered for a render target, one answered for
    [UpdateStatusD], one that has waited exactly 30 s, one whose handler
    has waited 35 s, and one issued with the URL alone 35 s ago. *)
Definition pendingCmd : ajax :=
  command 1 (JFunction "UpdateStatusD") JUndefined (Some (openRequest 2)) 39000.

Definition chainedCmd : ajax :=
  command 3 (JFunction "Chained") (JBool true) (Some (doneRequest 4)) 39990.

Definition staleCmd : ajax :=
  command 5 (JString "RT") JUndefined (Some (openRequest 6)) 5000.

Definition faultyCmd : ajax :=
  command 7 (JFunction "Faulty") JUndefined (Some (doneRequest 8)) 39990.

Definition sinklessCmd : ajax :=
  command 9 JUndefined (JBool true) (Some (doneRequest 10)) 39990.

Definition nullCmd : ajax :=
  command 11 (JFunction "UpdateStatusD") JUndefined None 5000.

Definition writeCmd : ajax :=
  command 13 (JString "RT") JUndefined (Some (doneRequest 14)) 39990.

Definition statusCmd : ajax :=
  command 15 (JFunction "UpdateStatusD") JUndefined (Some (doneRequest 16))
          39990.

Definition edgeCmd : ajax :=
  command 17 (JFunction "UpdateStatusD") JUndefined (Some (openRequest 18))
          10000.

Definition lateCmd : ajax :=
  command 19 (JFunction "UpdateStatusD") (JBool true) (Some (openRequest 20))
          5000.

Definition lostCmd : ajax :=
  command 21 JUndefined JUndefined (Some (openRequest 22)) 5000.

(** A request that came back with a reply that is no XML document; a
    command answered with it for a handler, one answered for an element
    that the document does not have, one answered whose handler throws and
    which repeats, one answered for the button B1 and one for X, the
    element around it. *)
Definition plainRequest (x : nat) : xhr :=
  {| xid := x; readyState := 4; status := 200;
     responseXML := None; responseText := "OK" |}.

Definition textCmd : ajax :=
  command 23 (JFunction "UpdateStatusD") JUndefined (Some (plainRequest 24))
          39990.

Definition orphanCmd : ajax :=
  command 25 (JString "gone") JUndefined (Some (doneRequest 26)) 39990.

Definition faultyRepeatCmd : ajax :=
  command 27 (JFunction "Faulty") (JBool true) (Some (doneRequest 28)) 39990.

Definition buttonCmd : ajax :=
  command 29 (JString "B1") JUndefined (Some (doneRequest 30)) 39990.

Definition coverCmd : ajax :=
  command 31 (JString "X") JUndefined (Some (doneRequest 32)) 39990.

(** ** Vocabulary for whole ticks *)

(** Round [j+1] of a loop that started in [w0] at time [now], made
    [length outs] rounds in all and ended in [o], where [outs] is what the
    rounds appended to the queue, round by round.  The first [j] rounds
    have returned and left [cur], the record at place [j] of the queue of
    [w0], at the head, in front of the rest of that queue and of what was
    appended so far; the round takes [cur] off the head and is
    [processRecord] for it; it returns unless it is the last round of a
    loop that ended in an exception; and what it appends goes to the tail:
    [cur] itself when it is pending, and otherwise objects that did not
    exist before the round. *)
Definition roundAt (E : env) (now : Z) (w0 : world) (outs : list (list ajax))
    (o : result unit) (j : nat) (cur : ajax) (out : list ajax) : Prop :=
  let rest := drop (S j) (ajaxList w0) ++ concat (take j outs) in
  ∃ wj wj1,
    pollLoop E now j w0 = (Val tt, wj)
    ∧ ajaxList wj = cur :: rest
    ∧ pollLoop E now (S j) w0 = processRecord E now cur (setQueue rest wj)
    ∧ processRecord E now cur (setQueue rest wj)
      = (if S j =? length outs then o else Val tt, wj1)
    ∧ ajaxList wj1 = rest ++ out
    ∧ next_oid w0 ≤ next_oid wj
    ∧ ((pending now cur ∧ out = [cur])
       ∨ (¬ pending now cur ∧ Forall (fun a => next_oid wj ≤ oid a) out)).

(** [readyState == 4 && status == 200], or [elapsed > timeOutMS]. *)
Definition resolvesb (now : Z) (cur : ajax) (req : xhr) : bool :=
  readyOK req || (now - lastCalled cur >? timeOutMS)%Z.

(** The aborts that a tick at time [now] owes to the snapshot [q]: one
    for each record that is resolved, in the order of the queue. *)
Definition abortsOf (now : Z) (q : list ajax) : list event :=
  flat_map
    (fun cur =>
       match ajaxReq cur with
       | Some req => if resolvesb now cur req then [EvAbort (xid req)] else []
       | None => []
       end) q.

(** [cur] owns a request, and if the request is ready and [cur] has a
    handler, the response has a document for it. *)
Definition ownsReply (cur : ajax) : Prop :=
  ∃ req,
    ajaxReq cur = Some req
    ∧ (readyOK req = true →
       match container cur with
       | JFunction _ => is_Some (responseXML req)
       | _ => True
       end).

(** The element that [cur] will write into when the tick reaches it. *)
Definition renderTarget (cur : ajax) : option string :=
  match ajaxReq cur, container cur with
  | Some req, JString id => if readyOK req then Some id else None
  | _, _ => None
  end.

Definition renderTargets (q : list ajax) : list string := omap renderTarget q.

(** An element named [t] stands in [e] outside every element that is
    named in [ts]: it is [e] itself, or it is in a child of [e] and [e] is
    not named in [ts].  A write into an element of [ts] cannot remove
    it. *)
Fixpoint standsIn (ts : list string) (t : string) (e : element) : bool :=
  match e with
  | El i kids =>
      String.eqb i t
      || (negb (bool_decide (i ∈ ts))
          && (fix among (l : list element) : bool :=
                match l with
                | [] => false
                | k :: l' => standsIn ts t k || among l'
                end) kids)
  end.

Fixpoint standsAmong (ts : list string) (t : string) (l : list element)
  : bool :=
  match l with
  | [] => false
  | k :: l' => standsIn ts t k || standsAmong ts t l'
  end.

(** Every id of [ts] names an element of [d] that no write into an
    element of [ts] can remove. *)
Definition anchored (ts : list string) (d : document) : Prop :=
  ∀ t, t ∈ ts → t ≠ "" ∧ standsAmong ts t (roots d) = true.

(** No handler of the page ever throws. *)
Definition quietHandlers (E : env) : Prop :=
  ∀ f arg hist, h_throws (handlers E f arg hist) = false.

(** A node that is not an element. *)
Definition isCharacterData (n : node) : bool :=
  match n with
  | Element _ _ => false
  | _ => true
  end.

(** A page whose handlers do nothing. *)
Definition calmPage : env :=
  {| hasXMLHttpRequest := true; hasActiveXObject := false;
     handlers := fun _ _ _ => {| h_issues := []; h_throws := false |};
     parseHTML := pageParser |}.

(** ** The scenes page: the callers and handlers of the queue *)

(** [startinabit], [startsd], [UpdateStatusD] and [UpdateStatusL] (lines
    105-117 and 271-316) work on the queue and on globals of the page:
    [queup], the array [MA], which the page fills with strings, and
    [vstr1].  [pcalls] are the calls they make on the browser beside those
    of the [trace]: style assignments, timers armed with a function, and
    [innerHTML] assignments of a value that may be [null]. *)
Inductive pcall :=
| PStyle (id prop value : string)
| PTimer (fn : string) (ms : Z)
| PInnerHTML (id : string) (html : option string).

Record scenes := {
  sc_world : world;
  queup : Z;
  MA : nat -> option string;
  vstr1 : jsval;
  pcalls : list pcall;
}.

Definition PM (A : Type) : Type := scenes -> result A * scenes.

Definition pret {A} (a : A) : PM A := fun s => (Val a, s).

Definition pbind {A B} (m : PM A) (k : A -> PM B) : PM B :=
  fun s =>
    match m s with
    | (Val a, s') => k a s'
    | (Throw e, s') => (Throw e, s')
    end.

Definition pthrow {A} (e : exn) : PM A := fun s => (Throw e, s).

Notation "'dop' x <- m 'in' k" := (pbind m (fun x => k))
  (at level 10, x name, m at level 100, k at level 200, only parsing).
Notation "'runp' m 'in' k" := (pbind m (fun _ => k))
  (at level 10, m at level 100, k at level 200, only parsing).

Definition withWorld (w : world) (s : scenes) : scenes :=
  {| sc_world := w; queup := queup s; MA := MA s; vstr1 := vstr1 s;
     pcalls := pcalls s |}.

(** A step of the queue's script, run on the page. *)
Definition liftM {A} (m : M A) : PM A :=
  fun s => let (r, w') := m (sc_world s) in (r, withWorld w' s).

Definition addCall (c : pcall) (s : scenes) : scenes :=
  {| sc_world := sc_world s; queup := queup s; MA := MA s; vstr1 := vstr1 s;
     pcalls := pcalls s ++ [c] |}.

(** [document.getElementById(id)] followed by a property access, which
    raises on [null]. *)
Definition elementById (id : string) : PM unit :=
  fun s =>
    match dom (sc_world s) !! id with
    | Some _ => (Val tt, s)
    | None => (Throw TypeError, s)
    end.

(** [document.getElementById(id).style.prop = value] *)
Definition setStyle (id prop value : string) : PM unit :=
  runp elementById id in
  fun s => (Val tt, addCall (PStyle id prop value) s).

(** [document.getElementById(id).innerHTML = html] for a value that may
    be [null]. *)
Definition setInner (id : string) (html : option string) : PM unit :=
  runp elementById id in
  fun s => (Val tt, addCall (PInnerHTML id html) s).

(** [setTimeout(fn, ms)] for a function [fn]. *)
Definition armTimer (fn : string) (ms : Z) : PM unit :=
  fun s => (Val tt, addCall (PTimer fn ms) s).

Definition readMA (k : nat) : PM (option string) :=
  fun s => (Val (MA s k), s).

Definition setMA (k : nat) (v : option string) : PM unit :=
  fun s =>
    (Val tt,
     {| sc_world := sc_world s; queup := queup s;
        MA := fun j => if Nat.eqb j k then v else MA s j;
        vstr1 := vstr1 s; pcalls := pcalls s |}).

Definition setQueup (q : Z) : PM unit :=
  fun s =>
    (Val tt,
     {| sc_world := sc_world s; queup := q; MA := MA s; vstr1 := vstr1 s;
        pcalls := pcalls s |}).

Definition setVstr1 (v : jsval) : PM unit :=
  fun s =>
    (Val tt,
     {| sc_world := sc_world s; queup := queup s; MA := MA s; vstr1 := v;
        pcalls := pcalls s |}).

(** [s.charAt(i)]: the empty string outside the string. *)
Definition charAt (s : string) (i : Z) : string :=
  if (i <? 0)%Z then ""
  else match String.get (Z.to_nat i) s with
       | Some c => String c ""
       | None => ""
       end.

(** [v.charAt(i)] for an entry of [MA]: it raises on [null] and
    [undefined]. *)
Definition charAtOf (v : option string) (i : Z) : PM string :=
  match v with
  | Some s => pret (charAt s i)
  | None => pthrow TypeError
  end.

Definition showNat (i : nat) : string := NilZero.string_of_uint (Nat.to_uint i).

(** The text of [vstr1] in row [i]: ["0" + i] below ten, [i] from ten on. *)
Definition vstrText (i : nat) : string :=
  if i <? 10 then ("0" ++ showNat i)%string else showNat i.

Fixpoint forEach {A} (f : A -> PM unit) (l : list A) : PM unit :=
  match l with
  | [] => pret tt
  | a :: l' => runp f a in forEach f l'
  end.

(** Lines 282-291 and 292-301: the two blocks of the loop of
    [UpdateStatusD], one for the ON button of row [i] and one for its OFF
    button.  They differ in the place of the button in [MA[16]], in the
    prefix of the id, in the status that lights the button and in the
    colour. *)
Definition statusButton (i : nat) (place : Z) (prefix lit colour : string)
  : PM unit :=
  let i' := Z.of_nat i in
  dop m16 <- readMA 16 in
  dop button <- charAtOf m16 ((i' - 1) * 4 + place) in
  if negb (String.eqb button "f") then
    dop m20 <- readMA 20 in
    dop st <- charAtOf m20 (i' - 1) in
    if negb (String.eqb st "2") then
      dop m20 <- readMA 20 in
      dop st <- charAtOf m20 (i' - 1) in
      if String.eqb st lit
      then setStyle (prefix ++ vstrText i) "background" colour
      else setStyle (prefix ++ vstrText i) "background" "#F4F4F4"
    else pret tt
  else pret tt.

(** Lines 277-302: the body of the loop of [UpdateStatusD] for row [i]. *)
Definition statusRow (i : nat) : PM unit :=
  let i' := Z.of_nat i in
  dop m17 <- readMA 17 in
  dop shown <- charAtOf m17 (i' - 1) in
  if negb (String.eqb shown "f") then
    runp setVstr1 (if i <? 10 then JString ("0" ++ showNat i)
                   else JNumber i') in
    runp statusButton i 1 "c2" "0" "#FFF886" in
    statusButton i 2 "c3" "1" "#D7D7D7"
  else pret tt.

(** Lines 271-310. *)
Definition UpdateStatusD (xmlData : option node) : PM unit :=
  dop cds <- (fun s => match getXMLValue xmlData "CDS" with
                       | Val v => (Val v, s)
                       | Throw e => (Throw e, s)
                       end) in
  runp setMA 20 cds in
  runp forEach statusRow (seq 1 16) in
  dop m20 <- readMA 20 in
  if bool_decide (m20 = Some "2222222222222222")
  then armTimer "startsd" 1000
  else
    runp setStyle "B1" "color" "#23498E" in
    setQueup 0.

(** Lines 312-316. *)
Definition UpdateStatusL (xmlData : option node) : PM unit :=
  dop rt <- (fun s => match getXMLValue xmlData "RT" with
                      | Val v => (Val v, s)
                      | Throw e => (Throw e, s)
                      end) in
  runp setInner "RT" rt in
  liftM (setTimeout "newAJAXCommand('rstatus.xml', UpdateStatusL)" 10000).

(** Lines 105-110. *)
Definition startinabit : PM unit :=
  dop q <- (fun s => (Val (queup s), s)) in
  if (q =? 1)%Z then pret tt
  else
    runp setQueup 1 in
    armTimer "startsd" 3000.

(** Lines 154-159 of [MakeSceneControl]: when all sixteen rows are switched
    off in [MA[17]], the first is switched on. *)
Definition countOff (i : nat) (count : nat) : PM nat :=
  dop m17 <- readMA 17 in
  dop c <- charAtOf m17 (Z.of_nat i) in
  pret (if String.eqb c "f" then S count else count).

Fixpoint countAll (l : list nat) (count : nat) : PM nat :=
  match l with
  | [] => pret count
  | i :: l' => dop count <- countOff i count in countAll l' count
  end.

Definition enableFirstRow : PM unit :=
  dop count <- countAll (seq 0 16) 0 in
  if count =? 16 then setMA 17 (Some "tfffffffffffffff") else pret tt.

Section Scenes.

Variable E : env.

(** Lines 112-117. *)
Definition startsd : PM unit :=
  runp setStyle "B1" "color" "white" in
  liftM (newAJAXCommand E "statusD.xml" (JFunction "UpdateStatusD")
           JUndefined JUndefined).

End Scenes.

(** Row [i] is switched on in [m17] and shows an ON or an OFF button in
    [m16]. *)
Definition rowHasButton (m16 m17 : string) (i : nat) : bool :=
  negb (String.eqb (charAt m17 (Z.of_nat i - 1)) "f")
  && (negb (String.eqb (charAt m16 ((Z.of_nat i - 1) * 4 + 1)) "f")
      || negb (String.eqb (charAt m16 ((Z.of_nat i - 1) * 4 + 2)) "f")).

(** What a status [cds] makes of a button of row [i]: it is lit for the
    status [lit], plain for any other, and left as it is for "2" and when
    [m16] does not show it. *)
Definition buttonPaint (m16 cds : string) (i : nat) (place : Z)
    (prefix lit colour : string) : list pcall :=
  if String.eqb (charAt m16 ((Z.of_nat i - 1) * 4 + place)) "f" then []
  else if String.eqb (charAt cds (Z.of_nat i - 1)) "2" then []
  else [PStyle (prefix ++ vstrText i) "background"
          (if String.eqb (charAt cds (Z.of_nat i - 1)) lit
           then colour else "#F4F4F4")].

(** What it makes of row [i]: the ON button is lit for "0", the OFF button
    for "1". *)
Definition rowPaint (m16 m17 cds : string) (i : nat) : list pcall :=
  if String.eqb (charAt m17 (Z.of_nat i - 1)) "f" then []
  else buttonPaint m16 cds i 1 "c2" "0" "#FFF886"
       ++ buttonPaint m16 cds i 2 "c3" "1" "#D7D7D7".

(** The page has the element of every style in [l]. *)
Definition paintable (d : document) (l : list pcall) : Prop :=
  Forall (fun c => match c with
                   | PStyle id _ _ => is_Some (d !! id)
                   | _ => True
                   end) l.

(** The fields of the page that the loop of [UpdateStatusD] leaves alone. *)
Definition sameButVstr (s s' : scenes) : Prop :=
  sc_world s' = sc_world s ∧ queup s' = queup s ∧ MA s' = MA s.

(** A scenes page: rows 1 and 3 switched on, row 1 with both buttons and
    row 3 with an OFF button only. *)
Definition scenePage : scenes :=
  {| sc_world :=
       {| ajaxList := [];
          dom := {| roots := [El "X" [El "B1" []; El "c201" []; El "c301" [];
                                       El "c303" []];
                              El "foot" [El "RT" []]] |};
          times := fun k => (40000 + Z.of_nat k)%Z;
          reads := 0; next_oid := 100; trace := [] |};
     queup := 0;
     MA := fun k =>
             if Nat.eqb k 16 then Some "tttttffftftt"
             else if Nat.eqb k 17 then Some "tftfffffffffffff"
             else if Nat.eqb k 20 then Some "9999999999999999"
             else None;
     vstr1 := JUndefined;
     pcalls := [] |}.

(** The same page with every row switched off. *)
Definition darkPage : scenes :=
  {| sc_world := sc_world scenePage; queup := queup scenePage;
     MA := fun k =>
             if Nat.eqb k 17 then Some "ffffffffffffffff"
             else MA scenePage k;
     vstr1 := vstr1 scenePage; pcalls := pcalls scenePage |}.

(** * The image builder [mpfs2-make-image]

    The Perl script of src/tools runs, in a fixed order, the programs that
    index a directory and pack it into an MPFS2 image.  Its state is the
    option table [%Opt] that [GetOptions] leaves, the arguments left in
    [@ARGV] and the host: the file system with its working directory and
    what the script has sent to the host so far.  The file system is the
    host's; the script sees it through file tests, [abs_path], [chdir],
    [find] and the programs it runs, which are the fields of [hostOps].
    The warnings of the interpreter are not part of the model. *)

(** [%Opt] after [GetOptions] (lines 13-21).  An option that was not given
    is [None]; [max_fs_size] holds the text of the number. *)
Record options := {
  o_test : option string;
  o_idx : option string;
  o_image : option string;
  o_index_file_re : option string;
  o_c_file : option string;
  o_c : bool;
  o_force_timestamps : option string;
  o_max_fs_size : option string;
  o_verbose : bool;
  o_fake : bool;
  o_help : bool;
  o_info : bool;
  o_version : bool;
}.

(** Line 13: the table before the command line is read. *)
Definition defaultOpt : options :=
  {| o_test := None; o_idx := None; o_image := None;
     o_index_file_re := Some "\.(html?|txt)$"; o_c_file := None;
     o_c := false; o_force_timestamps := None; o_max_fs_size := None;
     o_verbose := false; o_fake := false; o_help := false; o_info := false;
     o_version := false |}.

(** What the script sends to the host: a line on STDERR and a program that
    was run, with the status it returned. *)
Inductive pevent :=
| Stderr (line : string)
| Ran (cmd : string) (args : list string) (status : Z).

(** How a run ends: at its last line, after the version (line 26) or the
    manual (line 29), with a usage message, with [die] or, for a pattern
    that is no regular expression, with the error of the interpreter.
    [Halted cmd status] is the usage message of line 108. *)
Inductive ending :=
| Finished
| ShowedVersion
| ShowedManual
| Usage (msg : string)
| Died (msg : string)
| Halted (cmd : string) (status : Z)
| BadPattern (pat : string).

(** The host as the script sees it.  [walk] lists what [find] visits below
    the working directory, each name as [$File::Find::name] with the
    outcome of [-f]; [system] runs a program and gives its status and the
    file system it leaves; [re_match pat f] is [f =~ /pat/], [None] when
    [pat] does not compile. *)
Record hostOps (FS : Type) := {
  is_dir : FS -> string -> bool;
  abs_path : FS -> string -> option string;
  chdir : FS -> string -> option FS;
  readable : FS -> string -> bool;
  walk : FS -> list (string * bool);
  system : FS -> string -> list string -> Z * FS;
  re_match : string -> string -> option bool;
}.

Arguments is_dir {FS}.
Arguments abs_path {FS}.
Arguments chdir {FS}.
Arguments readable {FS}.
Arguments walk {FS}.
Arguments system {FS}.
Arguments re_match {FS}.

Record host (FS : Type) := {
  h_fs : FS;
  h_out : list pevent;
}.

Arguments h_fs {FS}.
Arguments h_out {FS}.

(** A value in a condition: [undef], the empty string and "0" are false. *)
Definition perlTrue (v : option string) : bool :=
  match v with
  | Some s => negb (String.eqb s "" || String.eqb s "0")
  | None => false
  end.

(** A value in a string: [undef] is the empty string. *)
Definition perlText (v : option string) : string :=
  match v with
  | Some s => s
  | None => ""
  end.

(** The line feed that ends a message. *)
Definition newline : string := String (Ascii.ascii_of_nat 10) "".

(** [$v ||= d] *)
Definition orAssign (v : option string) (d : string) : option string :=
  if perlTrue v then v else Some d.

(** The class [[\s\$<>?*]] of line 101. *)
Definition isSpace (a : Ascii.ascii) : bool :=
  let n := Ascii.nat_of_ascii a in
  ((9 <=? n) && (n <=? 13)) || (n =? 32).

Definition isShellChar (a : Ascii.ascii) : bool :=
  isSpace a
  || existsb (Ascii.eqb a) (String.list_ascii_of_string "$<>?*").

Definition quoteArg (a : string) : string :=
  if existsb isShellChar (String.list_ascii_of_string a)
  then "'" +:+ a +:+ "'"
  else a.

(** The line that [my_system] prints for a command. *)
Definition commandLine (cmd : string) (args : list string) : string :=
  String.concat " " (cmd :: map quoteArg args) +:+ newline.

(** [$f =~ s{^\./}{}] *)
Definition stripDotSlash (f : string) : string :=
  if String.prefix "./" f then String.substring 2 (String.length f - 2) f
  else f.

Section MakeImage.

Context {FS : Type}.
Variable ops : hostOps FS.
Variable Opt : options.

(** Steps of the script: a result or the end of the run, and the host. *)
Definition Step (A : Type) : Type := host FS -> (A + ending) * host FS.

Definition sret {A} (a : A) : Step A := fun h => (inl a, h).

Definition sbind {A B} (m : Step A) (k : A -> Step B) : Step B :=
  fun h =>
    match m h with
    | (inl a, h') => k a h'
    | (inr e, h') => (inr e, h')
    end.

Definition stop {A} (e : ending) : Step A := fun h => (inr e, h).

Definition say (e : pevent) : Step unit :=
  fun h => (inl tt, {| h_fs := h_fs h; h_out := h_out h ++ [e] |}).

(** Lines 95-109. *)
Definition my_system (cmd : string) (args : list string) : Step unit :=
  let args := if o_verbose Opt then "--verbose" :: args else args in
  sbind (if o_fake Opt || o_verbose Opt
         then say (Stderr (commandLine cmd args))
         else sret tt) (fun _ =>
  if o_fake Opt then sret tt
  else
    fun h =>
      let (status, fs') := system ops (h_fs h) cmd args in
      let h' := {| h_fs := fs'; h_out := h_out h ++ [Ran cmd args status] |} in
      if (status =? 0)%Z then (inl tt, h')
      else (inr (Halted cmd status), h')).

(** Lines 122-129, for the entries that [find] visits. *)
Fixpoint collect (pat_re : option string) (entries : list (string * bool))
  : list string + ending :=
  match entries with
  | [] => inl []
  | (name, isFile) :: rest =>
      if isFile then
        let f := stripDotSlash name in
        let keep := match collect pat_re rest with
                    | inl hits => inl (f :: hits)
                    | inr e => inr e
                    end in
        if perlTrue pat_re then
          match re_match ops (perlText pat_re) f with
          | None => inr (BadPattern (perlText pat_re))
          | Some true => keep
          | Some false => collect pat_re rest
          end
        else keep
      else collect pat_re rest
  end.

(** Lines 116-134. *)
Definition find_files (pat_re : option string) : Step (list string) :=
  fun h => (collect pat_re (walk ops (h_fs h)), h).

(** Lines 42-48: an entry of [%file]. *)
Definition fileOf (fs : FS) (v : option string) : option string :=
  match v with
  | Some f => if perlTrue v then abs_path ops fs f else None
  | None => None
  end.

(** Lines 80-84. *)
Definition sizeArgs : list string :=
  (if perlTrue (o_force_timestamps Opt)
   then ["--force_timestamps"; perlText (o_force_timestamps Opt)] else [])
  ++ (if perlTrue (o_max_fs_size Opt)
      then ["--max_fs_size"; perlText (o_max_fs_size Opt)] else []).

(** Lines 64-89: the programs, with the entries of [%file]. *)
Definition build (idx test image c_file : option string) : Step unit :=
  sbind (if perlTrue test then
           if perlTrue idx
           then my_system "mpfs2-make-code"
                  [perlText idx; "--test=" +:+ perlText test]
           else stop (Usage ("Unable to make test file without an IDX file"
                             +:+ newline))
         else sret tt) (fun _ =>
  sbind (if perlTrue idx then
           sbind (find_files (o_index_file_re Opt)) (fun files =>
           my_system "mpfs2-indexer" (perlText idx :: files))
         else sret tt) (fun _ =>
  sbind (find_files None) (fun files =>
  sbind (my_system "mpfs2-fsutil"
           (["--create"; perlText image] ++ sizeArgs ++ files)) (fun _ =>
  if o_c Opt
  then my_system "mpfs2-img-to-c" ["--output"; perlText c_file; perlText image]
  else sret tt)))).

(** Lines 23-89: the script after [GetOptions], on what is left of
    [@ARGV]. *)
Definition make_image (ARGV : list string) : host FS -> ending * host FS :=
  fun h =>
    if o_version Opt then (ShowedVersion, h)
    else if o_help Opt || o_info Opt then (ShowedManual, h)
    else
      let dir := head ARGV in
      if negb (perlTrue dir && is_dir ops (h_fs h) (perlText dir))
      then (Usage "No file system directory found", h)
      else
        let dir := perlText dir in
        let image := fileOf (h_fs h) (orAssign (o_image Opt) (dir +:+ ".img")) in
        let idx := fileOf (h_fs h) (o_idx Opt) in
        let test := fileOf (h_fs h) (o_test Opt) in
        let c_file :=
          fileOf (h_fs h) (orAssign (o_c_file Opt) (dir +:+ ".c")) in
        match chdir ops (h_fs h) dir with
        | None =>
            (Died ("Can't change directory to " +:+ dir +:+ newline), h)
        | Some fs' =>
            let h' := {| h_fs := fs'; h_out := h_out h |} in
            if perlTrue idx && negb (readable ops fs' (perlText idx))
            then (Usage ("Unable to read IDX file " +:+ perlText idx), h')
            else
              match build idx test image c_file h' with
              | (inl _, h'') => (Finished, h'')
              | (inr e, h'') => (e, h'')
              end
        end.

End MakeImage.

(** ** What a run of the image builder shows *)

(** A program as [my_system] starts it. *)
Record call := {
  c_cmd : string;
  c_args : list string;
  c_status : Z;
}.

(** The programs of the log, in the order they were run. *)
Definition ranOf (l : list pevent) : list call :=
  flat_map (fun e => match e with
                     | Ran cmd args st =>
                         [{| c_cmd := cmd; c_args := args; c_status := st |}]
                     | Stderr _ => []
                     end) l.

(** The lines of the log. *)
Definition linesOf (l : list pevent) : list string :=
  flat_map (fun e => match e with
                     | Stderr line => [line]
                     | Ran _ _ _ => []
                     end) l.

(** The four programs, in the order of the script. *)
Definition pipeline : list string :=
  ["mpfs2-make-code"; "mpfs2-indexer"; "mpfs2-fsutil"; "mpfs2-img-to-c"].

Section Plan.

Variable Opt : options.

(** What one call of [my_system] adds to the log. *)
Definition callEvents (c : call) : list pevent :=
  (if o_fake Opt || o_verbose Opt
   then [Stderr (commandLine (c_cmd c) (c_args c))] else [])
  ++ (if o_fake Opt then [] else [Ran (c_cmd c) (c_args c) (c_status c)]).

(** The programs the options ask for, given the entries of [%file]. *)
Definition planned (idx test : option string) : list string :=
  (if perlTrue test then ["mpfs2-make-code"] else [])
  ++ (if perlTrue idx then ["mpfs2-indexer"] else [])
  ++ ["mpfs2-fsutil"]
  ++ (if o_c Opt then ["mpfs2-img-to-c"] else []).

(** The arguments of a program are those of the script for it, after
    [--verbose] when that is set. *)
Definition callOK (idx test image c_file : option string) (c : call) : Prop :=
  ∃ rest,
    c_args c = (if o_verbose Opt then ["--verbose"] else []) ++ rest
    ∧ ((c_cmd c = "mpfs2-make-code" ∧ perlTrue idx = true
        ∧ rest = [perlText idx; "--test=" +:+ perlText test])
       ∨ (c_cmd c = "mpfs2-indexer" ∧ perlTrue idx = true
          ∧ ∃ files, rest = perlText idx :: files)
       ∨ (c_cmd c = "mpfs2-fsutil"
          ∧ ∃ files,
              rest = ["--create"; perlText image] ++ sizeArgs Opt ++ files)
       ∨ (c_cmd c = "mpfs2-img-to-c"
          ∧ rest = ["--output"; perlText c_file; perlText image])).

(** The statuses of a run that ends in [r]: every program returned 0, but
    for the last one of a run that was halted. *)
Definition okCalls {A} (calls : list call) (r : A + ending) : Prop :=
  match r with
  | inr (Halted cmd st) =>
      o_fake Opt = false ∧ st ≠ 0%Z
      ∧ ∃ pre args,
          calls = pre ++ [{| c_cmd := cmd; c_args := args; c_status := st |}]
          ∧ Forall (fun c => c_status c = 0%Z) pre
  | _ => Forall (fun c => c_status c = 0%Z) calls
  end.

End Plan.

Section Stages.

Context {FS : Type}.
Variable ops : hostOps FS.
Variable Opt : options.

(** What a stage of the script does to the host: it runs the first
    programs of [names], all of them when it returns, with arguments as
    [Q] has them, in fake mode it leaves the file system alone, and it
    does not end the run as the last line of the script does. *)
Definition shape {A} (Q : call -> Prop) (names : list string)
    (h : host FS) (r : A + ending) (h' : host FS) : Prop :=
  ∃ calls,
    h_out h' = h_out h ++ flat_map (callEvents Opt) calls
    ∧ okCalls Opt calls r
    ∧ map c_cmd calls `prefix_of` names
    ∧ ((∃ a, r = inl a) → map c_cmd calls = names)
    ∧ Forall Q calls
    ∧ (o_fake Opt = true → h_fs h' = h_fs h)
    ∧ r ≠ inr Finished.

(** The directory of a run and the entries of [%file]. *)
Definition dirOf (ARGV : list string) : string := perlText (head ARGV).

Definition imageOf (ARGV : list string) (h : host FS) : option string :=
  fileOf ops (h_fs h) (orAssign (o_image Opt) (dirOf ARGV +:+ ".img")).

Definition cFileOf (ARGV : list string) (h : host FS) : option string :=
  fileOf ops (h_fs h) (orAssign (o_c_file Opt) (dirOf ARGV +:+ ".c")).

Definition idxOf (h : host FS) : option string :=
  fileOf ops (h_fs h) (o_idx Opt).

Definition testOf (h : host FS) : option string :=
  fileOf ops (h_fs h) (o_test Opt).

(** The run got as far as the programs: no version or manual was asked
    for, the first argument is a directory the script could enter, and an
    IDX file that was given can be read from there. *)
Definition started (ARGV : list string) (h : host FS) : Prop :=
  o_version Opt = false ∧ o_help Opt = false ∧ o_info Opt = false
  ∧ perlTrue (head ARGV) = true
  ∧ is_dir ops (h_fs h) (dirOf ARGV) = true
  ∧ ∃ fs', chdir ops (h_fs h) (dirOf ARGV) = Some fs'
           ∧ (perlTrue (idxOf h) = true
              → readable ops fs' (perlText (idxOf h)) = true).

End Stages.

(** A host to run the script on: the directory image with two pages and a
    picture, below /srv.  [mpfs2-make-code] writes the test page into it,
    [mpfs2-fsutil] refuses a size limit. *)
Definition demoOps : hostOps (list (string * bool)) :=
  {| is_dir := fun _ d => String.eqb d "image";
     abs_path := fun _ f => Some ("/srv/" +:+ f);
     chdir := fun fs d => if String.eqb d "image" then Some fs else None;
     readable := fun _ f => String.eqb f "/srv/HTTPPrint.idx";
     walk := fun fs => fs;
     system := fun fs cmd args =>
                 if String.eqb cmd "mpfs2-make-code"
                 then (0%Z, fs ++ [("./test.htm", true)])
                 else if String.eqb cmd "mpfs2-fsutil"
                         && bool_decide ("--max_fs_size" ∈ args)
                 then (256%Z, fs)
                 else (0%Z, fs);
     re_match := fun pat f =>
                   if String.eqb pat "("
                   then None
                   else Some (String.eqb
                                (String.substring (String.length f - 4) 4 f)
                                ".htm") |}.

Definition demoFS : list (string * bool) :=
  [(".", false); ("./index.htm", true); ("./img", false);
   ("./img/logo.gif", true); ("./status.htm", true)].

Definition demoHost : host (list (string * bool)) :=
  {| h_fs := demoFS; h_out := [] |}.


(** Options to run it with: an index, a test page and a C file; the same
    as a fake and as a verbose run; a size limit; a test page alone. *)
Definition demoOptions (idx test size : option string)
    (verbose fake : bool) : options :=
  {| o_test := test; o_idx := idx; o_image := None;
     o_index_file_re := Some "\.(html?|txt)$"; o_c_file := None;
     o_c := true; o_force_timestamps := None; o_max_fs_size := size;
     o_verbose := verbose; o_fake := fake; o_help := false; o_info := false;
     o_version := false |}.

Definition demoOpt : options :=
  demoOptions (Some "HTTPPrint.idx") (Some "image/test.htm") None false false.

Definition fakeOpt : options :=
  demoOptions (Some "HTTPPrint.idx") (Some "image/test.htm") None false true.

Definition verboseOpt : options :=
  demoOptions (Some "HTTPPrint.idx") (Some "image/test.htm") None true false.

Definition limitOpt : options :=
  demoOptions (Some "HTTPPrint.idx") None (Some "1000") false false.

Definition testOnlyOpt : options :=
  demoOptions None (Some "image/test.htm") None false false.

(** * Properties *)

(** ** The response extractor *)

Lemma getXMLValue_returns (xmlData : option node) (field : string) :
  ∃ v, getXMLValue xmlData field = Val v.
Proof.
  unfold getXMLValue.
  destruct (getXMLValue_try xmlData field) as [v|e]; eauto.
Qed.

Lemma getXMLValue_absent (root : node) (field : string) :
  getElementsByTagName root field = [] →
  getXMLValue (Some root) field = Val None.
Proof.
  intros Hnone. unfold getXMLValue, getXMLValue_try.
  destruct root; try reflexivity.
  by rewrite Hnone.
Qed.

Lemma getXMLValue_first (tag : string) (cs : list node) (field : string)
    (e : node) (rest : list node) :
  getElementsByTagName (Element tag cs) field = e :: rest →
  getXMLValue (Some (Element tag cs)) field =
    Val (match firstChild e with
         | Some c =>
             match nodeValue c with
             | Some v => if String.eqb v "" then None else Some v
             | None => None
             end
         | None => None
         end).
Proof.
  intros Hfirst. unfold getXMLValue, getXMLValue_try. rewrite Hfirst.
  destruct (firstChild e) as [c|]; [|reflexivity].
  destruct (nodeValue c) as [v|]; [|reflexivity].
  by destruct (String.eqb v "").
Qed.

Lemma append_empty (s : string) : s +:+ "" = s.
Proof.
  induction s as [|a s IH]; [done|].
  change (String a (s +:+ "") = String a s). by rewrite IH.
Qed.

(** C8, as the script has it.  [getXMLValue] never raises.  With [e] the
    first element named [field] below the body, in document order, it
    returns the value of the first child of [e]: the character data that
    [e] starts with, be it text, a CDATA section or a comment.  That is
    the text content of [e] when [e] holds one piece of text and nothing
    else.  It returns [null] when the body is [null] or is not an element,
    when no element is named [field], when [e] has no child, and when the
    first child of [e] is an element or empty character data.  For a body
    without a [CDS] element [getXMLValue(body, "CDS")] is [null], and for
    every body whose first [CDS] element is [<CDS>3</CDS>] it is ["3"]. *)
Theorem getXMLValue_never_raises :
  (∀ xmlData field, ∃ v, getXMLValue xmlData field = Val v) ∧
  (∀ field, getXMLValue None field = Val None) ∧
  (∀ d field, getXMLValue (Some (Text d)) field = Val None) ∧
  (∀ root field,
     getElementsByTagName root field = [] →
     getXMLValue (Some root) field = Val None) ∧
  (∀ tag cs field e rest,
     getElementsByTagName (Element tag cs) field = e :: rest →
     getXMLValue (Some (Element tag cs)) field
     = Val (match firstChild e with
            | Some c =>
                match nodeValue c with
                | Some v => if String.eqb v "" then None else Some v
                | None => None
                end
            | None => None
            end)) ∧
  (∀ tag cs field t rest,
     getElementsByTagName (Element tag cs) field = Element t [] :: rest →
     getXMLValue (Some (Element tag cs)) field = Val None) ∧
  (∀ tag cs field t t' cs' more rest,
     getElementsByTagName (Element tag cs) field
       = Element t (Element t' cs' :: more) :: rest →
     getXMLValue (Some (Element tag cs)) field = Val None) ∧
  (∀ tag cs field t s more rest,
     getElementsByTagName (Element tag cs) field
       = Element t (Text s :: more) :: rest →
     getXMLValue (Some (Element tag cs)) field
       = Val (if String.eqb s "" then None else Some s)) ∧
  (∀ tag cs field t s more rest,
     getElementsByTagName (Element tag cs) field
       = Element t (CData s :: more) :: rest →
     getXMLValue (Some (Element tag cs)) field
       = Val (if String.eqb s "" then None else Some s)) ∧
  (∀ tag cs field t s more rest,
     getElementsByTagName (Element tag cs) field
       = Element t (Comment s :: more) :: rest →
     getXMLValue (Some (Element tag cs)) field
       = Val (if String.eqb s "" then None else Some s)) ∧
  (∀ tag cs field t s rest,
     getElementsByTagName (Element tag cs) field
       = Element t [Text s] :: rest →
     getXMLValue (Some (Element tag cs)) field
       = Val (if String.eqb (textContent (Element t [Text s])) "" then None
              else Some (textContent (Element t [Text s])))) ∧
  (∀ tag cs rest,
     getElementsByTagName (Element tag cs) "CDS"
       = Element "CDS" [Text "3"] :: rest →
     getXMLValue (Some (Element tag cs)) "CDS" = Val (Some "3")) ∧
  getXMLValue (Some (statusReply [])) "RT" = Val None ∧
  getXMLValue (Some (Element "response" [Element "RT" [Text "12:00"]])) "CDS"
    = Val None ∧
  getXMLValue (Some (statusReply [Text "3"])) "CDS" = Val (Some "3").
Proof.
  split; [exact getXMLValue_returns|].
  split; [reflexivity|].
  split; [reflexivity|].
  split; [exact getXMLValue_absent|].
  split; [exact getXMLValue_first|].
  split.
  { intros tag cs field t rest H. by rewrite (getXMLValue_first _ _ _ _ _ H). }
  split.
  { intros tag cs field t t' cs' more rest H.
    by rewrite (getXMLValue_first _ _ _ _ _ H). }
  split.
  { intros tag cs field t s more rest H.
    by rewrite (getXMLValue_first _ _ _ _ _ H). }
  split.
  { intros tag cs field t s more rest H.
    by rewrite (getXMLValue_first _ _ _ _ _ H). }
  split.
  { intros tag cs field t s more rest H.
    by rewrite (getXMLValue_first _ _ _ _ _ H). }
  split.
  { intros tag cs field t s rest H.
    rewrite (getXMLValue_first _ _ _ _ _ H). simpl.
    by rewrite append_empty. }
  split.
  { intros tag cs rest H. by rewrite (getXMLValue_first _ _ _ _ _ H). }
  repeat split; vm_compute; reflexivity.
Qed.

(** C8, as stated, fails at a [CDS] element that starts with a comment,
    where the script returns the comment and the text content is ["3"],
    at one whose text is inside another element, where the script returns
    [null], and at the body [<CDS>3</CDS>], where the script returns
    [null] because it does not look at the body itself. *)
Lemma getXMLValue_text_content_counterexample :
  getXMLValue (Some (statusReply [Comment "c"; Text "3"])) "CDS"
  = Val (Some "c")
  ∧ textContent (Element "CDS" [Comment "c"; Text "3"]) = "3"
  ∧ ¬ returnsTextContent (Some (statusReply [Comment "c"; Text "3"])) "CDS"
  ∧ getXMLValue (Some (statusReply [Element "b" [Text "3"]])) "CDS"
    = Val None
  ∧ textContent (Element "CDS" [Element "b" [Text "3"]]) = "3"
  ∧ ¬ returnsTextContent (Some (statusReply [Element "b" [Text "3"]])) "CDS"
  ∧ getXMLValue (Some (Element "CDS" [Text "3"])) "CDS" = Val None
  ∧ ¬ returnsTextContent (Some (Element "CDS" [Text "3"])) "CDS".
Proof.
  split; [reflexivity|]. split; [reflexivity|].
  split; [intros Hstated; discriminate Hstated|].
  split; [reflexivity|]. split; [reflexivity|].
  split; [intros Hstated; discriminate Hstated|].
  split; [reflexivity|].
  intros Hstated. discriminate Hstated.
Qed.

(** C8 at the bodies [<response><CDS>3</CDS><CDS>4</CDS></response>],
    [<response><CDS/></response>] and [<response><RT>12:00</RT></response>]. *)
Lemma getXMLValue_never_raises_witness :
  getXMLValue
    (Some (Element "response"
             [Element "CDS" [Text "3"]; Element "CDS" [Text "4"]])) "CDS"
  = Val (Some "3")
  ∧ getXMLValue (Some (Element "response" [Element "CDS" []])) "CDS"
    = Val None
  ∧ getXMLValue (Some (Element "response" [Element "RT" [Text "12:00"]])) "CDS"
    = Val None.
Proof.
  destruct getXMLValue_never_raises
    as (_ & _ & _ & Habsent & _ & Hempty & _ & Htext & _).
  split; [|split].
  - exact (Htext "response"
             [Element "CDS" [Text "3"]; Element "CDS" [Text "4"]] "CDS"
             "CDS" "3" [] [Element "CDS" [Text "4"]] eq_refl).
  - exact (Hempty "response" [Element "CDS" []] "CDS" "CDS" [] eq_refl).
  - exact (Habsent (Element "response" [Element "RT" [Text "12:00"]]) "CDS"
             eq_refl).
Defined.

(** ** The document *)

Lemma element_nested_ind (P : element → Prop) :
  (∀ id kids, Forall P kids → P (El id kids)) → ∀ e, P e.
Proof.
  intros Hstep. fix IH 1. intros [id kids]. apply Hstep.
  induction kids as [|k kids IHkids]; constructor; [apply IH|exact IHkids].
Qed.

Lemma findElement_eq id i kids :
  findElement id (El i kids)
  = if String.eqb i id then Some (El i kids) else findAmong id kids.
Proof.
  simpl. destruct (String.eqb i id); [done|].
  induction kids as [|k kids IH]; [done|]. simpl. by rewrite IH.
Qed.

Lemma setChildren_eq id new i kids :
  setChildren id new (El i kids)
  = if String.eqb i id then Some (El i new)
    else match setAmong id new kids with
         | Some kids' => Some (El i kids')
         | None => None
         end.
Proof.
  simpl. destruct (String.eqb i id); [done|]. f_equal.
  assert ((fix among (l : list element) : option (list element) :=
             match l with
             | [] => None
             | k :: l' =>
                 match setChildren id new k with
                 | Some k' => Some (k' :: l')
                 | None =>
                     match among l' with
                     | Some l'' => Some (k :: l'')
                     | None => None
                     end
                 end
             end) kids = setAmong id new kids) as ->; [|done].
  induction kids as [|k kids IH]; [done|]. simpl. by rewrite IH.
Qed.

(** Assigning [innerHTML] changes an element exactly when
    [getElementById] finds it, and afterwards [getElementById] finds the
    same element with its new content. *)
Lemma setChildren_found id new e :
  match setChildren id new e with
  | Some e' => is_Some (findElement id e)
               ∧ findElement id e' = Some (El id new)
  | None => findElement id e = None
  end.
Proof.
  induction e as [i kids IH] using element_nested_ind.
  rewrite setChildren_eq, findElement_eq.
  destruct (String.eqb i id) eqn:Hi.
  { apply String.eqb_eq in Hi as ->. rewrite findElement_eq.
    rewrite String.eqb_refl. by eauto. }
  assert (match setAmong id new kids with
          | Some kids' => is_Some (findAmong id kids)
                          ∧ findAmong id kids' = Some (El id new)
          | None => findAmong id kids = None
          end) as Hkids.
  { induction kids as [|k kids IHkids]; [done|].
    apply Forall_cons in IH as [Hk Hrest]. specialize (IHkids Hrest).
    simpl. destruct (setChildren id new k) as [k'|].
    - destruct Hk as [[x ->] Hk']. simpl. rewrite Hk'. by eauto.
    - rewrite Hk. destruct (setAmong id new kids) as [kids'|]; [|done].
      simpl. rewrite Hk. done. }
  destruct (setAmong id new kids) as [kids'|]; [|done].
  rewrite findElement_eq, Hi. done.
Qed.

Lemma setAmong_found id new l :
  match setAmong id new l with
  | Some l' => is_Some (findAmong id l) ∧ findAmong id l' = Some (El id new)
  | None => findAmong id l = None
  end.
Proof.
  induction l as [|k l IH]; [done|]. simpl.
  pose proof (setChildren_found id new k) as Hk.
  destruct (setChildren id new k) as [k'|].
  - destruct Hk as [[x ->] Hk']. simpl. rewrite Hk'. by eauto.
  - rewrite Hk. destruct (setAmong id new l) as [l'|]; [|done].
    simpl. by rewrite Hk.
Qed.

(** The target of a write is still in the document afterwards, with what
    the markup gave as its content. *)
Lemma withChildren_target (d : document) id new :
  is_Some (d !! id) → withChildren d id new !! id = Some (El id new).
Proof.
  unfold lookup, document_lookup, getElementById, withChildren.
  destruct (String.eqb id ""); [by intros [x Hx]|].
  pose proof (setAmong_found id new (roots d)) as Hset.
  destruct (setAmong id new (roots d)) as [l'|].
  - intros _. simpl. by destruct Hset.
  - rewrite Hset. by intros [x Hx].
Qed.

(** *** Elements that writes cannot remove *)

Lemma standsIn_eq ts t i kids :
  standsIn ts t (El i kids)
  = String.eqb i t || (negb (bool_decide (i ∈ ts)) && standsAmong ts t kids).
Proof.
  simpl. do 2 f_equal.
  induction kids as [|k kids IH]; [done|]. simpl. by rewrite IH.
Qed.

Lemma standsIn_found ts t e :
  standsIn ts t e = true → is_Some (findElement t e).
Proof.
  induction e as [i kids IH] using element_nested_ind.
  rewrite standsIn_eq, findElement_eq.
  destruct (String.eqb i t); [by eauto|]. simpl.
  intros [_ Hkids]%andb_true_iff.
  induction kids as [|k kids IHkids]; [done|].
  apply Forall_cons in IH as [Hk Hrest]. simpl in *.
  apply orb_true_iff in Hkids as [Hin|Hin].
  - destruct (Hk Hin) as [x ->]. by eauto.
  - destruct (findElement t k); [by eauto|]. by apply IHkids.
Qed.

Lemma standsAmong_found ts t l :
  standsAmong ts t l = true → is_Some (findAmong t l).
Proof.
  induction l as [|k l IH]; [done|]. simpl.
  intros [Hin|Hin]%orb_true_iff.
  - destruct (standsIn_found _ _ _ Hin) as [x ->]. by eauto.
  - destruct (findElement t k); [by eauto|]. by apply IH.
Qed.

Lemma standsAmong_write ts t id new l :
  Forall (λ e, standsIn ts t e = true →
               ∀ e', setChildren id new e = Some e' → standsIn ts t e' = true)
         l →
  standsAmong ts t l = true →
  ∀ l', setAmong id new l = Some l' → standsAmong ts t l' = true.
Proof.
  induction l as [|k l IH]; intros Hall Hin l' Hset; [done|].
  apply Forall_cons in Hall as [Hk Hrest]. simpl in *.
  destruct (setChildren id new k) as [k'|] eqn:Hwrite.
  - injection Hset as <-. simpl.
    apply orb_true_iff in Hin as [Hin|Hin].
    + by rewrite (Hk Hin k').
    + rewrite Hin. by rewrite orb_true_r.
  - destruct (setAmong id new l) as [l''|] eqn:Hlater; [|done].
    injection Hset as <-. simpl.
    apply orb_true_iff in Hin as [Hin|Hin].
    + by rewrite Hin.
    + rewrite (IH Hrest Hin l'') by done. by rewrite orb_true_r.
Qed.

Lemma standsIn_write ts t id new e :
  id ∈ ts → standsIn ts t e = true →
  ∀ e', setChildren id new e = Some e' → standsIn ts t e' = true.
Proof.
  intros Hid. induction e as [i kids IH] using element_nested_ind.
  intros Hin e'. rewrite setChildren_eq. rewrite standsIn_eq in Hin.
  destruct (String.eqb i id) eqn:Hi.
  - apply String.eqb_eq in Hi as ->. intros [= <-]. rewrite standsIn_eq.
    rewrite (bool_decide_eq_true_2 _ Hid) in Hin. simpl in Hin.
    rewrite orb_false_r in Hin. by rewrite Hin.
  - destruct (setAmong id new kids) as [kids'|] eqn:Hset; [|done].
    intros [= <-]. rewrite standsIn_eq.
    apply orb_true_iff in Hin as [Hin|[Hfree Hin]%andb_true_iff].
    + by rewrite Hin.
    + rewrite Hfree, (standsAmong_write ts t id new kids IH Hin kids' Hset).
      by rewrite orb_true_r.
Qed.

(** The elements that a tick writes into are found, and are still there
    after any of them was written. *)
Lemma anchored_found ts (d : document) t :
  anchored ts d → t ∈ ts → is_Some (d !! t).
Proof.
  intros Hd Ht. destruct (Hd t Ht) as [Hname Hin].
  unfold lookup, document_lookup, getElementById.
  apply String.eqb_neq in Hname as ->. by eapply standsAmong_found.
Qed.

Lemma anchored_write ts (d : document) id new :
  id ∈ ts → anchored ts d → anchored ts (withChildren d id new).
Proof.
  intros Hid Hd t Ht. destruct (Hd t Ht) as [Hname Hin].
  split; [done|]. unfold withChildren.
  destruct (setAmong id new (roots d)) as [l'|] eqn:Hset; [|done]. simpl.
  eapply standsAmong_write; [|exact Hin|exact Hset].
  apply Forall_forall. intros e _. by apply standsIn_write.
Qed.

(** ** The tests on [typeof] *)

Lemma typeof_function v : typeof v = "function" ↔ ∃ f, v = JFunction f.
Proof. split; [destruct v; by eauto|by intros [f ->]]. Qed.

Lemma typeof_string v : typeof v = "string" ↔ ∃ s, v = JString s.
Proof. split; [destruct v; by eauto|by intros [s ->]]. Qed.

(** ** Scheduler: how the operations change the world *)

Ltac run_script :=
  unfold newRequest, xhr_open, xhr_send, xhr_abort, alert, setTimeout,
    newObject, newDate, push, emit, throw, enqueue, addEvent, setQueue,
    bind, ret;
  simpl.

Section ScriptFacts.

Variable E : env.

Lemma ran {A} (x : result A * world) (o : result A) :
  x.1 = o → x = (o, x.2).
Proof. destruct x. simpl. congruence. Qed.

Lemma bind_val {A B} (m : M A) (k : A → M B) w a w1 :
  m w = (Val a, w1) → bind m k w = k a w1.
Proof. intros H. unfold bind. by rewrite H. Qed.

Lemma bind_throw {A B} (m : M A) (k : A → M B) w e w1 :
  m w = (Throw e, w1) → bind m k w = (Throw e, w1).
Proof. intros H. unfold bind. by rewrite H. Qed.

Lemma bind_inv_val {A B} (m : M A) (k : A → M B) w b w' :
  bind m k w = (Val b, w') →
  ∃ a w1, m w = (Val a, w1) ∧ k a w1 = (Val b, w').
Proof.
  unfold bind. destruct (m w) as [[a|e] w1]; [eauto|discriminate].
Qed.

Lemma newAJAXCommand_eq u c r d w :
  newAJAXCommand E u c r d w = (Val tt, issued E u c r d w).
Proof.
  unfold newAJAXCommand, startRequest, issued, newAjaxOf, canRequest.
  destruct (hasXMLHttpRequest E); [|destruct (hasActiveXObject E)];
    run_script; rewrite <- ?app_assoc, ?app_nil_r; reflexivity.
Qed.

Lemma issuesOf_refl w : issuesOf [] w w [] [].
Proof.
  split; rewrite ?app_nil_r; auto. constructor.
Qed.

Lemma issuesOf_refl' w w' :
  ajaxList w' = ajaxList w → trace w' = trace w → dom w' = dom w →
  times w' = times w → reads w' = reads w → next_oid w' = next_oid w →
  issuesOf [] w w' [] [].
Proof.
  intros. split; rewrite ?app_nil_r; auto; try lia. constructor.
Qed.

Lemma issuesOf_trans l1 l2 w w1 w2 a1 a2 e1 e2 :
  issuesOf l1 w w1 a1 e1 → issuesOf l2 w1 w2 a2 e2 →
  issuesOf (l1 ++ l2) w w2 (a1 ++ a2) (e1 ++ e2).
Proof.
  intros [Hq1 Hm1 Hf1 Ht1 He1 Hi1 Hd1 Hc1 Hr1 Ho1 Hn1]
         [Hq2 Hm2 Hf2 Ht2 He2 Hi2 Hd2 Hc2 Hr2 Ho2 Hn2].
  split.
  - rewrite app_assoc. congruence.
  - by apply Forall2_app.
  - apply Forall_app. split.
    + eapply Forall_impl; [exact Hf1|]. simpl. lia.
    + eapply Forall_impl; [exact Hf2|]. simpl. lia.
  - rewrite app_assoc. congruence.
  - by apply Forall_app.
  - intros [-> ->]%app_eq_nil. by rewrite Hi1, Hi2.
  - congruence.
  - congruence.
  - lia.
  - lia.
  - rewrite fmap_app. apply NoDup_app. split; [done|]. split; [|done].
    intros x (a & -> & Ha)%list_elem_of_fmap (b & Hab & Hb)%list_elem_of_fmap.
    eapply Forall_forall in Hf1; [|exact Ha].
    eapply Forall_forall in Hf2; [|exact Hb]. lia.
Qed.

Lemma issued_issuesOf u c r d w :
  ∃ evs, issuesOf [(u, c, r, d)] w (issued E u c r d w)
                  [newAjaxOf E u c r w] evs.
Proof.
  eexists. split; try reflexivity.
  - by repeat constructor.
  - apply Forall_singleton. simpl. destruct (canRequest E); lia.
  - unfold canRequest. destruct (_ || _); by repeat constructor.
  - done.
  - simpl. lia.
  - simpl. destruct (canRequest E); lia.
  - apply NoDup_singleton.
Qed.

Lemma issueAll_run l w :
  ∃ w' added evs,
    issueAll E l w = (Val tt, w') ∧ issuesOf l w w' added evs.
Proof.
  revert w. induction l as [|[[[u c] r] d] l IH]; intros w.
  - exists w, [], []. split; [reflexivity|apply issuesOf_refl].
  - destruct (issued_issuesOf u c r d w) as (e1 & H1).
    destruct (IH (issued E u c r d w)) as (w' & a2 & e2 & Hrun & H2).
    exists w', ([newAjaxOf E u c r w] ++ a2), (e1 ++ e2). split.
    + simpl. erewrite bind_val; [exact Hrun|apply newAJAXCommand_eq].
    + exact (issuesOf_trans [_] l _ _ _ _ _ _ _ H1 H2).
Qed.

Lemma newEvents_app w w' evs :
  trace w' = trace w ++ evs → newEvents w w' = evs.
Proof.
  intros H. unfold newEvents. rewrite H. by rewrite drop_app_length.
Qed.

Lemma filter_requestStart (p : event → bool) evs :
  (∀ e, isRequestStart e = true → p e = false) →
  Forall (λ e, isRequestStart e = true) evs →
  List.filter p evs = [].
Proof.
  intros Hp. induction 1 as [|e evs He _ IH]; [reflexivity|].
  simpl. by rewrite (Hp e He).
Qed.

Lemma callHandler_run f arg w :
  ∃ w1 added evs,
    callHandler E f arg w
      = (if h_throws (handlers E f arg (trace w))
         then Throw HandlerError else Val tt,
         w1)
    ∧ issuesOf (h_issues (handlers E f arg (trace w)))
               (addEvent (EvCall f arg) w) w1 added evs.
Proof.
  destruct (issueAll_run (h_issues (handlers E f arg (trace w)))
              (addEvent (EvCall f arg) w)) as (w1 & added & evs & Hrun & Hio).
  exists w1, added, evs. split; [|exact Hio].
  unfold callHandler.
  erewrite bind_val; [|reflexivity].
  erewrite bind_val; [|reflexivity].
  erewrite bind_val; [|exact Hrun].
  by destruct (h_throws _).
Qed.

(** Lines 45-48 and 58-61: abort, then issue the command again. *)
Lemma resolve_tail cur req w1 :
  ∃ w' rs revs,
    bind (xhr_abort req) (λ _, reissue E cur) w1 = (Val tt, w')
    ∧ issuesOf (repeatCommand cur) (addEvent (EvAbort (xid req)) w1) w' rs revs
    ∧ sendsNoPayload revs.
Proof.
  unfold reissue, repeatCommand.
  destruct (truthy (repeat cur)).
  - destruct (issued_issuesOf (url cur) (container cur) (repeat cur)
                JUndefined (addEvent (EvAbort (xid req)) w1)) as (evs & Hio).
    eexists _, _, evs. split; [|split; [exact Hio|]].
    + erewrite bind_val; [|reflexivity]. apply newAJAXCommand_eq.
    + destruct Hio as [_ _ _ Htr _ _ _ _ _ _ _]. simpl in Htr.
      apply app_inv_head in Htr. subst evs.
      unfold sendsNoPayload. destruct (canRequest E); by repeat constructor.
  - exists (addEvent (EvAbort (xid req)) w1), [], [].
    split; [reflexivity|]. split; [apply issuesOf_refl|constructor].
Qed.

Lemma processRecord_ready now cur req w :
  ajaxReq cur = Some req → readyOK req = true →
  processRecord E now cur w
  = bind (dispatchReady E cur req)
         (λ _, bind (xhr_abort req) (λ _, reissue E cur)) w.
Proof.
  intros Hreq Hok. unfold processRecord, readyOK in *. by rewrite Hreq, Hok.
Qed.

Lemma processRecord_timeout now cur req w :
  ajaxReq cur = Some req → readyOK req = false →
  (now - lastCalled cur > timeOutMS)%Z →
  processRecord E now cur w
  = bind (dispatchTimeout E cur)
         (λ _, bind (xhr_abort req) (λ _, reissue E cur)) w.
Proof.
  intros Hreq Hok Hlate. unfold processRecord, readyOK in *.
  rewrite Hreq, Hok.
  by replace (now - lastCalled cur >? timeOutMS)%Z with true by lia.
Qed.

Lemma processRecord_pending now cur req w :
  ajaxReq cur = Some req → readyOK req = false →
  (now - lastCalled cur ≤ timeOutMS)%Z →
  processRecord E now cur w = (Val tt, enqueue cur w).
Proof.
  intros Hreq Hok Hearly. unfold processRecord, readyOK in *.
  rewrite Hreq, Hok.
  by replace (now - lastCalled cur >? timeOutMS)%Z with false by lia.
Qed.

(** The sink step of a resolved record: it fails on a missing response
    document or render target before anything happened, or the sink calls
    are made and the handler, if any, has issued its commands and returned
    or thrown. *)
Lemma dispatch_run cur req w o w1 :
  ajaxReq cur = Some req →
  (if readyOK req then dispatchReady E cur req else dispatchTimeout E cur) w
    = (o, w1) →
  (o = Throw TypeError ∧ w1 = w ∧ sinkMissing cur req w) ∨
  (∃ byHandler hevs,
     issuesOf (handlerCommands E cur w) (sinkWorld E cur req w) w1 byHandler hevs
     ∧ ¬ sinkMissing cur req w
     ∧ o = if handlerThrows E cur req w then Throw HandlerError else Val tt).
Proof.
  intros Hreq.
  unfold handlerCommands, handlerThrows, sinkMissing, sinkWorld, sinkDom,
    sinkCalls.
  rewrite Hreq.
  destruct (readyOK req); unfold dispatchReady, dispatchTimeout;
    destruct (container cur) as [| |b|n|id|f];
    try (intros [= <- <-]; right; exists [], []; split;
         [by apply issuesOf_refl'; simpl; rewrite ?app_nil_r
         |split; [by intros []|done]]).
  - (* ready, container a string *)
    unfold setInnerHTML. destruct (dom w !! id) eqn:Hid; intros [= <- <-].
    + right. exists [], []. split; [by apply issuesOf_refl'|].
      split; [by intros []|done].
    + by left.
  - (* ready, container a function *)
    destruct (responseXML req) as [root|]; [|intros [= <- <-]; by left].
    destruct (callHandler_run f (Some root) w) as (w' & a & e & -> & Hio).
    intros [= <- <-]. right. exists a, e. split; [exact Hio|].
    split; [by intros []|done].
  - (* timed out, container a function *)
    destruct (callHandler_run f None w) as (w' & a & e & -> & Hio).
    intros [= <- <-]. right. exists a, e. split; [exact Hio|].
    split; [by intros []|done].
Qed.

Lemma processRecord_resolved now cur req w o w' :
  ajaxReq cur = Some req → resolves now cur req →
  processRecord E now cur w = (o, w') →
  (o = Throw TypeError ∧ w' = w ∧ sinkMissing cur req w) ∨
  (∃ byHandler hevs w1,
     issuesOf (handlerCommands E cur w) (sinkWorld E cur req w) w1 byHandler hevs
     ∧ ¬ sinkMissing cur req w
     ∧ ((handlerThrows E cur req w = true ∧ o = Throw HandlerError ∧ w' = w1) ∨
        (handlerThrows E cur req w = false ∧ o = Val tt ∧
         ∃ rs revs,
           issuesOf (repeatCommand cur) (addEvent (EvAbort (xid req)) w1) w'
                    rs revs
           ∧ sendsNoPayload revs))).
Proof.
  intros Hreq Hres Hrun.
  assert (bind (if readyOK req then dispatchReady E cur req
                else dispatchTimeout E cur)
               (λ _, bind (xhr_abort req) (λ _, reissue E cur)) w = (o, w'))
    as Hrun'.
  { rewrite <- Hrun. destruct (readyOK req) eqn:Hok.
    - symmetry. by apply processRecord_ready.
    - symmetry. apply processRecord_timeout; [done..|].
      unfold resolves in Hres. destruct Hres; [congruence|done]. }
  clear Hrun. unfold bind at 1 in Hrun'.
  destruct ((if readyOK req then dispatchReady E cur req
             else dispatchTimeout E cur) w) as [o1 w1] eqn:Hsink.
  destruct (dispatch_run _ _ _ _ _ Hreq Hsink)
    as [(-> & -> & Hmiss)|(byHandler & hevs & Hio & Hmiss & ->)].
  - left. by injection Hrun' as <- <-.
  - right. exists byHandler, hevs, w1. split; [exact Hio|]. split; [done|].
    destruct (handlerThrows E cur req w).
    + left. by injection Hrun' as <- <-.
    + right.
      destruct (resolve_tail cur req w1)
        as (w2 & rs & revs & Htail & Hio2 & Hnp).
      rewrite Htail in Hrun'. injection Hrun' as <- <-. eauto 10.
Qed.

Lemma resolved_val now cur req w w' :
  ajaxReq cur = Some req → resolves now cur req →
  processRecord E now cur w = (Val tt, w') →
  ∃ byHandler hevs rs revs,
    trace w' = trace w ++ sinkCalls cur req ++ hevs ++ EvAbort (xid req) :: revs
    ∧ ajaxList w' = ajaxList w ++ byHandler ++ rs
    ∧ dom w' = sinkDom E cur req (dom w)
    ∧ Forall2 matchesCommand byHandler (handlerCommands E cur w)
    ∧ Forall2 matchesCommand rs (repeatCommand cur)
    ∧ Forall (λ a, next_oid w ≤ oid a) (byHandler ++ rs)
    ∧ Forall (λ e, isRequestStart e = true) hevs
    ∧ Forall (λ e, isRequestStart e = true) revs
    ∧ sendsNoPayload revs.
Proof.
  intros Hreq Hres Hrun.
  destruct (processRecord_resolved _ _ _ _ _ _ Hreq Hres Hrun)
    as [[[=] _]|(byHandler & hevs & w1 & Hio1 & _ &
                 [(_ & [=] & _)|(_ & _ & rs & revs & Hio2 & Hnp)])].
  destruct Hio1 as [Hq1 Hm1 Hf1 Ht1 He1 _ Hd1 _ _ Ho1 _].
  destruct Hio2 as [Hq2 Hm2 Hf2 Ht2 He2 _ Hd2 _ _ _ _].
  simpl in *.
  exists byHandler, hevs, rs, revs. repeat split; try done.
  - rewrite Ht2, Ht1. by rewrite <- !app_assoc.
  - rewrite Hq2, Hq1. by rewrite <- !app_assoc.
  - congruence.
  - apply Forall_app. split.
    + eapply Forall_impl; [exact Hf1|]. simpl. lia.
    + eapply Forall_impl; [exact Hf2|]. simpl. lia.
Qed.

Lemma resolved_throw now cur req w e w' :
  ajaxReq cur = Some req → resolves now cur req →
  processRecord E now cur w = (Throw e, w') →
  (e = TypeError ∧ w' = w ∧ sinkMissing cur req w) ∨
  (e = HandlerError ∧ handlerThrows E cur req w = true ∧
   ∃ byHandler hevs,
     trace w' = trace w ++ sinkCalls cur req ++ hevs
     ∧ ajaxList w' = ajaxList w ++ byHandler
     ∧ dom w' = sinkDom E cur req (dom w)
     ∧ Forall2 matchesCommand byHandler (handlerCommands E cur w)
     ∧ Forall (λ a, next_oid w ≤ oid a) byHandler
     ∧ Forall (λ e, isRequestStart e = true) hevs).
Proof.
  intros Hreq Hres Hrun.
  destruct (processRecord_resolved _ _ _ _ _ _ Hreq Hres Hrun)
    as [([= ->] & -> & Hmiss)
       |(byHandler & hevs & w1 & Hio1 & _ &
         [(Hthrows & [= ->] & ->)|(_ & [=] & _)])];
    [by left|right].
  destruct Hio1 as [Hq1 Hm1 Hf1 Ht1 He1 _ Hd1 _ _ Ho1 _]. simpl in *.
  split; [done|]. split; [done|].
  exists byHandler, hevs. repeat split; try done.
  - by rewrite Ht1, <- app_assoc.
  - eapply Forall_impl; [exact Hf1|]. simpl. lia.
Qed.

(** A resolved record whose sink can be reached and whose handler does
    not throw is processed without an exception. *)
Lemma resolved_returns now cur req w :
  ajaxReq cur = Some req → resolves now cur req →
  ¬ sinkMissing cur req w → handlerThrows E cur req w = false →
  ∃ w', processRecord E now cur w = (Val tt, w').
Proof.
  intros Hreq Hres Hmiss Hquiet.
  destruct (processRecord E now cur w) as [o w'] eqn:Hrun.
  destruct (processRecord_resolved _ _ _ _ _ _ Hreq Hres Hrun)
    as [(_ & _ & ?)|(_ & _ & _ & _ & _ &
                     [(? & _)|(_ & -> & _)])]; [done|congruence|eauto].
Qed.

(** *** The loop *)

Lemma processRecord_null now cur w :
  ajaxReq cur = None → processRecord E now cur w = (Throw TypeError, w).
Proof. intros H. unfold processRecord. by rewrite H. Qed.

(** Whatever the branch, processing a record only appends to the queue and
    to the trace, and never arms a timer. *)
Lemma processRecord_grows now cur w o w' :
  processRecord E now cur w = (o, w') →
  ∃ added evs,
    ajaxList w' = ajaxList w ++ added
    ∧ trace w' = trace w ++ evs
    ∧ List.filter isSetTimeout evs = [].
Proof.
  intros Hrun.
  destruct (ajaxReq cur) as [req|] eqn:Hreq.
  2:{ rewrite processRecord_null in Hrun by done. injection Hrun as <- <-.
      exists [], []. by rewrite !app_nil_r. }
  destruct (decide (resolves now cur req)) as [Hres|Hpend].
  - destruct (processRecord_resolved _ _ _ _ _ _ Hreq Hres Hrun)
      as [(_ & -> & _)|(byHandler & hevs & w1 & Hio1 & _ & Hrest)].
    { exists [], []. by rewrite !app_nil_r. }
    assert (List.filter isSetTimeout (sinkCalls cur req) = []) as Hsink.
    { unfold sinkCalls. by destruct (readyOK req), (container cur). }
    destruct Hio1 as [Hq1 _ _ Ht1 He1 _ _ _ _ _ _]. simpl in *.
    destruct Hrest as [(_ & _ & ->)|(_ & _ & rs & revs & Hio2 & _)].
    + exists byHandler, (sinkCalls cur req ++ hevs).
      split; [done|]. split; [by rewrite Ht1, app_assoc|].
      rewrite List.filter_app, Hsink. simpl.
      eapply filter_requestStart; [|exact He1]. by intros [].
    + destruct Hio2 as [Hq2 _ _ Ht2 He2 _ _ _ _ _ _]. simpl in *.
      exists (byHandler ++ rs),
             (sinkCalls cur req ++ hevs ++ EvAbort (xid req) :: revs).
      split; [by rewrite Hq2, Hq1, app_assoc|].
      split; [by rewrite Ht2, Ht1, <- !app_assoc|].
      rewrite !List.filter_app, Hsink. simpl.
      rewrite (filter_requestStart isSetTimeout hevs); [|by intros []|done].
      eapply filter_requestStart; [|exact He2]. by intros [].
  - unfold resolves in Hpend.
    rewrite (processRecord_pending now cur req) in Hrun.
    + injection Hrun as <- <-. exists [cur], []. by rewrite app_nil_r.
    + done.
    + destruct (readyOK req); [|done]. exfalso. apply Hpend. by left.
    + lia.
Qed.

Lemma pollLoop_cons now i w cur rest :
  ajaxList w = cur :: rest →
  pollLoop E now (S i) w
  = bind (processRecord E now cur) (λ _, pollLoop E now i) (setQueue rest w).
Proof.
  intros Hq. simpl. unfold bind at 1, shift. by rewrite Hq.
Qed.

Lemma pollLoop_nil now i w :
  ajaxList w = [] → pollLoop E now (S i) w = pollLoop E now i w.
Proof.
  intros Hq. simpl. unfold bind at 1, shift. by rewrite Hq.
Qed.

Lemma pollLoop_plus now k j w :
  pollLoop E now (k + j) w = bind (pollLoop E now k) (λ _, pollLoop E now j) w.
Proof.
  revert w. induction k as [|k IH]; intros w; [reflexivity|].
  change (S k + j) with (S (k + j)).
  destruct (ajaxList w) as [|cur rest] eqn:Hq.
  - rewrite (pollLoop_nil now (k + j) w Hq), IH.
    unfold bind at 2. by rewrite (pollLoop_nil now k w Hq).
  - rewrite (pollLoop_cons now (k + j) w cur rest Hq).
    unfold bind at 2. rewrite (pollLoop_cons now k w cur rest Hq).
    unfold bind at 1 2.
    destruct (processRecord E now cur (setQueue rest w)) as [[[]|e] w1];
      [apply IH|reflexivity].
Qed.

(** After [k] rounds that went through, the first [k] records of the
    snapshot [q] are gone from the head of the queue, and everything that
    was behind the snapshot, or was appended since, is still there. *)
Lemma pollLoop_snapshot now k :
  ∀ w q behind wk,
    ajaxList w = q ++ behind → k ≤ length q →
    pollLoop E now k w = (Val tt, wk) →
    ∃ added, ajaxList wk = drop k q ++ behind ++ added.
Proof.
  induction k as [|k IH]; intros w q behind wk Hq Hk Hrun.
  - injection Hrun as <-. exists []. by rewrite app_nil_r.
  - destruct q as [|cur q]; [simpl in Hk; lia|].
    rewrite (pollLoop_cons now k w cur (q ++ behind) Hq) in Hrun.
    apply bind_inv_val in Hrun as ([] & w1 & Hcur & Hrun).
    destruct (processRecord_grows _ _ _ _ _ Hcur) as (a1 & _ & Hq1 & _).
    simpl in Hq1. rewrite <- app_assoc in Hq1.
    destruct (IH w1 q (behind ++ a1) wk Hq1 ltac:(simpl in Hk; lia) Hrun)
      as (added & Hqk).
    exists (a1 ++ added). simpl. by rewrite Hqk, <- !app_assoc.
Qed.

(** Whatever the outcome, the loop has taken some first [k] records of the
    snapshot off the head and nothing else. *)
Lemma pollLoop_prefix now i :
  ∀ w q behind o wk,
    ajaxList w = q ++ behind → i ≤ length q →
    pollLoop E now i w = (o, wk) →
    ∃ k added, k ≤ i ∧ ajaxList wk = drop k q ++ behind ++ added.
Proof.
  induction i as [|i IH]; intros w q behind o wk Hq Hi Hrun.
  - injection Hrun as <- <-. exists 0, []. by rewrite app_nil_r.
  - destruct q as [|cur q]; [simpl in Hi; lia|].
    rewrite (pollLoop_cons now i w cur (q ++ behind) Hq) in Hrun.
    unfold bind at 1 in Hrun.
    destruct (processRecord E now cur (setQueue (q ++ behind) w))
      as [o1 w1] eqn:Hcur.
    destruct (processRecord_grows _ _ _ _ _ Hcur) as (a1 & _ & Hq1 & _).
    simpl in Hq1. rewrite <- app_assoc in Hq1.
    destruct o1 as [[]|e].
    + destruct (IH w1 q (behind ++ a1) o wk Hq1 ltac:(simpl in Hi; lia) Hrun)
        as (k & added & Hk & Hqk).
      exists (S k), (a1 ++ added). split; [lia|].
      simpl. by rewrite Hqk, <- !app_assoc.
    + injection Hrun as <- <-. exists 1, a1. split; [lia|]. done.
Qed.

(** *** One record *)

Lemma sinkCalls_dispatch cur req :
  List.filter isDispatch (sinkCalls cur req) = sinkCalls cur req.
Proof. unfold sinkCalls. by destruct (readyOK req), (container cur). Qed.

Lemma dispatches_resolved sink hevs x revs :
  List.filter isDispatch sink = sink →
  Forall (λ e, isRequestStart e = true) hevs →
  Forall (λ e, isRequestStart e = true) revs →
  List.filter isDispatch (sink ++ hevs ++ EvAbort x :: revs) = sink.
Proof.
  intros Hsink Hh Hr. rewrite !List.filter_app, Hsink. simpl.
  rewrite (filter_requestStart isDispatch hevs); [|by intros []|done].
  rewrite (filter_requestStart isDispatch revs); [|by intros []|done].
  by rewrite app_nil_r.
Qed.

Lemma aborts_resolved sink hevs x revs :
  List.filter isAbort sink = [] →
  Forall (λ e, isRequestStart e = true) hevs →
  Forall (λ e, isRequestStart e = true) revs →
  List.filter isAbort (sink ++ hevs ++ EvAbort x :: revs) = [EvAbort x].
Proof.
  intros Hsink Hh Hr. rewrite !List.filter_app, Hsink. simpl.
  rewrite (filter_requestStart isAbort hevs); [|by intros []|done].
  by rewrite (filter_requestStart isAbort revs); [|by intros []|done].
Qed.

(** What a resolved record leaves behind, whether or not its handler
    throws: its sink calls are the only dispatches, and nothing but new
    objects joined the queue. *)
Lemma resolved_once now cur req w o w' :
  ajaxReq cur = Some req → resolves now cur req →
  ¬ sinkMissing cur req w →
  processRecord E now cur w = (o, w') →
  List.filter isDispatch (newEvents w w') = sinkCalls cur req
  ∧ dom w' = sinkDom E cur req (dom w)
  ∧ (∃ added, ajaxList w' = ajaxList w ++ added
              ∧ Forall (λ a, next_oid w ≤ oid a) added)
  ∧ o = (if handlerThrows E cur req w then Throw HandlerError else Val tt).
Proof.
  intros Hreq Hres Hmiss Hrun. destruct o as [[]|e].
  - destruct (processRecord_resolved _ _ _ _ _ _ Hreq Hres Hrun)
      as [([=] & _)|(_ & _ & _ & _ & _ & [(_ & [=] & _)|(Hquiet & _)])].
    destruct (resolved_val _ _ _ _ _ Hreq Hres Hrun)
      as (bh & hevs & rs & revs & Ht & Hq & Hd & _ & _ & Hf & He1 & He2 & _).
    rewrite (newEvents_app _ _ _ Ht), Hquiet.
    rewrite dispatches_resolved by auto using sinkCalls_dispatch. eauto 10.
  - destruct (resolved_throw _ _ _ _ _ _ Hreq Hres Hrun)
      as [(_ & _ & ?)|(-> & Hthrows & bh & hevs & Ht & Hq & Hd & _ & Hf & He)];
      [done|].
    rewrite (newEvents_app _ _ _ Ht), Hthrows.
    rewrite List.filter_app, sinkCalls_dispatch.
    rewrite (filter_requestStart isDispatch hevs); [|by intros []|done].
    rewrite app_nil_r. eauto 10.
Qed.

Lemma sinkCalls_short cur req d :
  d ∈ sinkCalls cur req → sinkCalls cur req = [d] ∧ isDispatch d = true.
Proof.
  unfold sinkCalls.
  destruct (readyOK req), (container cur);
    intros Hd; try (by apply elem_of_nil in Hd);
    by apply list_elem_of_singleton in Hd as ->.
Qed.

(** C9. A record whose [container] is neither a function nor a string,
    as when the command was issued with the URL alone: through the ready
    branch nothing is dispatched, the response is dropped, the request is
    still aborted and [repeat] still honoured; through the timeout branch
    the alert is raised. *)
Theorem sinkless_record now cur req w :
  ajaxReq cur = Some req →
  typeof (container cur) ≠ "function" → typeof (container cur) ≠ "string" →
  (readyOK req = true →
     ∃ w' rs,
       processRecord E now cur w = (Val tt, w')
       ∧ List.filter isDispatch (newEvents w w') = []
       ∧ dom w' = dom w
       ∧ List.filter isAbort (newEvents w w') = [EvAbort (xid req)]
       ∧ ajaxList w' = ajaxList w ++ rs
       ∧ Forall2 matchesCommand rs (repeatCommand cur)) ∧
  (readyOK req = false → (now - lastCalled cur > timeOutMS)%Z →
     ∃ w' rs,
       processRecord E now cur w = (Val tt, w')
       ∧ List.filter isDispatch (newEvents w w') = [EvAlert lostMessage]
       ∧ dom w' = dom w
       ∧ List.filter isAbort (newEvents w w') = [EvAbort (xid req)]
       ∧ ajaxList w' = ajaxList w ++ rs
       ∧ Forall2 matchesCommand rs (repeatCommand cur)) ∧
  (∀ u w0,
     ∃ a w1,
       newAJAXCommand E u JUndefined JUndefined JUndefined w0 = (Val tt, w1)
       ∧ ajaxList w1 = ajaxList w0 ++ [a]
       ∧ typeof (container a) = "undefined").
Proof.
  intros Hreq Hfun Hstr.
  assert (∀ ok, readyOK req = ok → resolves now cur req →
            ∃ w' rs,
              processRecord E now cur w = (Val tt, w')
              ∧ List.filter isDispatch (newEvents w w')
                = (if ok then [] else [EvAlert lostMessage])
              ∧ dom w' = dom w
              ∧ List.filter isAbort (newEvents w w') = [EvAbort (xid req)]
              ∧ ajaxList w' = ajaxList w ++ rs
              ∧ Forall2 matchesCommand rs (repeatCommand cur)) as Hboth.
  { intros ok Hok Hres.
    assert (¬ sinkMissing cur req w) as Hmiss.
    { unfold sinkMissing. destruct (container cur); try done; by intros [_ ?]. }
    assert (handlerThrows E cur req w = false) as Hquiet.
    { unfold handlerThrows. by destruct (container cur). }
    destruct (resolved_returns now cur req w Hreq Hres Hmiss Hquiet)
      as (w' & Hrun).
    destruct (resolved_val _ _ _ _ _ Hreq Hres Hrun)
      as (bh & hevs & rs & revs & Ht & Hq & Hd & Hm1 & Hm2 & _ & He1 & He2 & _).
    assert (bh = []) as ->.
    { unfold handlerCommands in Hm1.
      destruct (container cur); try done; by apply Forall2_nil_inv_r in Hm1. }
    exists w', rs. rewrite (newEvents_app _ _ _ Ht).
    rewrite dispatches_resolved by auto using sinkCalls_dispatch.
    rewrite aborts_resolved; try done.
    - unfold sinkCalls, sinkDom in *. rewrite Hok in *.
      destruct ok, (container cur); try done; by repeat split.
    - unfold sinkCalls. by destruct (readyOK req), (container cur). }
  split; [|split].
  - intros Hok. apply (Hboth true Hok). by left.
  - intros Hok Hlate. apply (Hboth false Hok). by right.
  - intros u w0.
    exists (newAjaxOf E u JUndefined JUndefined w0),
           (issued E u JUndefined JUndefined JUndefined w0).
    split; [apply newAJAXCommand_eq|]. by split.
Qed.

(** *** One tick *)

Lemma pollAJAX_eq w :
  pollAJAX E w
  = bind (pollLoop E (times w (reads w)) (length (ajaxList w)))
         (λ _, setTimeout "pollAJAX()" 10) (tickStart w).
Proof. reflexivity. Qed.

Lemma bind_ret_unit (m : M unit) w : bind m (λ _, ret tt) w = m w.
Proof. unfold bind, ret. by destruct (m w) as [[[]|e] w1]. Qed.

Lemma pollLoop_snoc now k w :
  pollLoop E now (S k) w = bind (pollLoop E now k) (λ _, pollLoop E now 1) w.
Proof. rewrite <- pollLoop_plus. f_equal. lia. Qed.

(** The loop only appends to the trace, and arms no timer. *)
Lemma pollLoop_trace now k :
  ∀ w o wk,
    pollLoop E now k w = (o, wk) →
    ∃ evs, trace wk = trace w ++ evs ∧ List.filter isSetTimeout evs = [].
Proof.
  induction k as [|k IH]; intros w o wk Hrun.
  - injection Hrun as <- <-. exists []. by rewrite app_nil_r.
  - destruct (ajaxList w) as [|cur rest] eqn:Hq.
    + rewrite (pollLoop_nil now k w Hq) in Hrun. by apply (IH w o).
    + rewrite (pollLoop_cons now k w cur rest Hq) in Hrun.
      unfold bind at 1 in Hrun.
      destruct (processRecord E now cur (setQueue rest w)) as [o1 w1] eqn:Hcur.
      destruct (processRecord_grows _ _ _ _ _ Hcur) as (_ & e1 & _ & Ht1 & Hn1).
      simpl in Ht1. destruct o1 as [[]|e].
      * destruct (IH w1 o wk Hrun) as (e2 & Ht2 & Hn2).
        exists (e1 ++ e2). rewrite Ht2, Ht1, <- app_assoc. split; [done|].
        by rewrite List.filter_app, Hn1, Hn2.
      * injection Hrun as <- <-. eauto.
Qed.

(** The first [k] rounds of a tick that got through them: the next record
    at the head is the [k]-th of the snapshot. *)
Lemma pollLoop_next now k w wk cur :
  ajaxList w !! k = Some cur →
  pollLoop E now k w = (Val tt, wk) →
  ∃ added, ajaxList wk = cur :: drop (S k) (ajaxList w) ++ added.
Proof.
  intros Hk Hrun.
  destruct (pollLoop_snapshot now k w (ajaxList w) [] wk) as (added & Hq);
    [by rewrite app_nil_r| |done|].
  { apply lookup_lt_Some in Hk. lia. }
  exists added. rewrite Hq. simpl. by rewrite (drop_S _ _ _ Hk).
Qed.

(** *** The identity of records *)

Lemma fresh_app (l1 l2 : list ajax) a b c :
  a ≤ b → b ≤ c →
  Forall (λ x, a ≤ oid x < b) l1 → Forall (λ x, b ≤ oid x < c) l2 →
  NoDup (oid <$> l1) → NoDup (oid <$> l2) →
  Forall (λ x, a ≤ oid x < c) (l1 ++ l2) ∧ NoDup (oid <$> (l1 ++ l2)).
Proof.
  intros Hab Hbc H1 H2 N1 N2. split.
  - apply Forall_app. split.
    + eapply Forall_impl; [exact H1|]. simpl. lia.
    + eapply Forall_impl; [exact H2|]. simpl. lia.
  - rewrite fmap_app. apply NoDup_app. split; [done|]. split; [|done].
    intros x (y & -> & Hy)%list_elem_of_fmap (z & Hyz & Hz)%list_elem_of_fmap.
    eapply Forall_forall in H1; [|exact Hy].
    eapply Forall_forall in H2; [|exact Hz]. lia.
Qed.

(** A record processed without an exception either went back to the tail
    as it was, or was resolved and left behind only objects of its own
    making. *)
Lemma processRecord_alloc now cur w w' :
  processRecord E now cur w = (Val tt, w') →
  ∃ added,
    ajaxList w' = ajaxList w ++ added
    ∧ next_oid w ≤ next_oid w'
    ∧ ((pending now cur ∧ added = [cur] ∧ next_oid w' = next_oid w) ∨
       ((∃ req, ajaxReq cur = Some req ∧ resolves now cur req)
        ∧ Forall (λ a, next_oid w ≤ oid a < next_oid w') added
        ∧ NoDup (oid <$> added))).
Proof.
  intros Hrun.
  destruct (ajaxReq cur) as [req|] eqn:Hreq;
    [|by rewrite processRecord_null in Hrun].
  destruct (decide (resolves now cur req)) as [Hres|Hpend].
  - destruct (processRecord_resolved _ _ _ _ _ _ Hreq Hres Hrun)
      as [([=] & _)|(bh & hevs & w1 & Hio1 & _ &
                     [(_ & [=] & _)|(_ & _ & rs & revs & Hio2 & _)])].
    destruct Hio1 as [Hq1 _ Hf1 _ _ _ _ _ _ Ho1 Hn1].
    destruct Hio2 as [Hq2 _ Hf2 _ _ _ _ _ _ Ho2 Hn2].
    unfold sinkWorld, addEvent in *. simpl in *.
    destruct (fresh_app bh rs _ _ _ Ho1 Ho2 Hf1 Hf2 Hn1 Hn2) as [Hf Hn].
    exists (bh ++ rs). split; [by rewrite Hq2, Hq1, app_assoc|].
    split; [lia|]. right. eauto.
  - unfold resolves in Hpend.
    rewrite (processRecord_pending now cur req) in Hrun.
    + injection Hrun as <-. exists [cur]. split; [done|]. split; [done|].
      left. split; [|done]. by exists req.
    + done.
    + destruct (readyOK req); [|done]. exfalso. apply Hpend. by left.
    + lia.
Qed.

Lemma pending_not_resolved now cur req :
  pending now cur → ajaxReq cur = Some req → ¬ resolves now cur req.
Proof. intros (req' & Hreq' & Hpend) Hreq. congruence. Qed.

Lemma same_oid (q : list ajax) a b :
  NoDup (oid <$> q) → a ∈ q → b ∈ q → oid a = oid b → a = b.
Proof.
  intros Hnd (i & Hi)%list_elem_of_lookup (j & Hj)%list_elem_of_lookup Hoid.
  assert (i = j) as ->; [|congruence].
  eapply NoDup_lookup; [exact Hnd|..];
    rewrite list_lookup_fmap; [by rewrite Hi|by rewrite Hj, Hoid].
Qed.

(** The loop sorts the snapshot: after [k] rounds the tail of the queue
    holds the pending ones among the first [k] records, as they were, and
    objects allocated since the tick began. *)
Lemma pollLoop_partition now w :
  wellFormed w →
  ∀ k wk,
    k ≤ length (ajaxList w) →
    pollLoop E now k w = (Val tt, wk) →
    ∃ added,
      ajaxList wk = drop k (ajaxList w) ++ added
      ∧ next_oid w ≤ next_oid wk
      ∧ Forall (λ a, oid a < next_oid wk) added
      ∧ NoDup (oid <$> added)
      ∧ Forall (λ a, (a ∈ take k (ajaxList w) ∧ pending now a)
                     ∨ next_oid w ≤ oid a) added
      ∧ (∀ a, a ∈ take k (ajaxList w) → pending now a → a ∈ added).
Proof.
  intros [Hold Hnd]. induction k as [|k IH]; intros wk Hk Hrun.
  - injection Hrun as <-. exists []. rewrite app_nil_r.
    repeat split; try done; try constructor.
  - rewrite pollLoop_snoc in Hrun.
    apply bind_inv_val in Hrun as ([] & wj & Hfirst & Hlast).
    destruct (IH wj ltac:(lia) Hfirst)
      as (added & Hq & Ho & Hlt & Hnda & Hkind & Hkept).
    destruct (lookup_lt_is_Some_2 (ajaxList w) k ltac:(lia)) as (cur & Hcur).
    rewrite (drop_S _ _ _ Hcur) in Hq. simpl in Hq.
    rewrite (pollLoop_cons now 0 wj _ _ Hq), bind_ret_unit in Hlast.
    destruct (processRecord_alloc _ _ _ _ Hlast) as (a1 & Hq1 & Ho1 & Hcase).
    simpl in Hq1, Ho1, Hcase.
    assert (cur ∈ ajaxList w) as Hin by by eapply list_elem_of_lookup_2.
    assert (oid cur < next_oid w) as Hcurold
      by by eapply Forall_forall in Hold.
    rewrite (take_S_r _ _ _ Hcur).
    exists (added ++ a1). split; [by rewrite Hq1, app_assoc|].
    split; [lia|].
    destruct Hcase as [(Hpend & -> & Hsame)|((req & Hreq & Hres) & Hf1 & Hn1)].
    + (* the record went back *)
      split; [|split; [|split]].
      * apply Forall_app. split.
        -- eapply Forall_impl; [exact Hlt|]. simpl. lia.
        -- apply Forall_singleton. lia.
      * rewrite fmap_app. apply NoDup_app. split; [done|].
        split; [|apply NoDup_singleton].
        intros x (a & -> & Ha)%list_elem_of_fmap Hx.
        apply list_elem_of_singleton in Hx.
        eapply Forall_forall in Hkind; [|exact Ha].
        destruct Hkind as [[Hak _]|Hnew]; [|lia].
        apply list_elem_of_lookup in Hak as (i & Hi).
        pose proof (lookup_lt_Some _ _ _ Hi) as Hilt.
        rewrite length_take in Hilt.
        rewrite lookup_take_lt in Hi by lia.
        assert (i = k); [|lia].
        eapply NoDup_lookup; [exact Hnd|..];
          rewrite list_lookup_fmap; [by rewrite Hi|by rewrite Hcur, Hx].
      * apply Forall_app. split.
        -- eapply Forall_impl; [exact Hkind|]. simpl.
           intros a [[Ha Hp]|Ha]; [left|by right].
           split; [|done]. apply elem_of_app. by left.
        -- apply Forall_singleton. left. split; [|done].
           apply elem_of_app. right. apply list_elem_of_here.
      * intros a [Ha| ->%list_elem_of_singleton]%elem_of_app Hp;
          apply elem_of_app; [left; by apply Hkept|right].
        apply list_elem_of_here.
    + (* the record was resolved *)
      destruct (fresh_app added a1 0 (next_oid wj) (next_oid wk))
        as [Hf Hn]; try done; try lia.
      { eapply Forall_impl; [exact Hlt|]. simpl. lia. }
      split; [|split; [done|split]].
      * eapply Forall_impl; [exact Hf|]. simpl. lia.
      * apply Forall_app. split.
        -- eapply Forall_impl; [exact Hkind|]. simpl.
           intros a [[Ha Hp]|Ha]; [left|by right].
           split; [|done]. apply elem_of_app. by left.
        -- eapply Forall_impl; [exact Hf1|]. simpl. intros a Ha. right. lia.
      * intros a [Ha| ->%list_elem_of_singleton]%elem_of_app Hp;
          apply elem_of_app; [left; by apply Hkept|].
        by destruct (pending_not_resolved _ _ _ Hp Hreq).
Qed.

(** Issuing a command keeps the queue well formed. *)
Lemma newAJAXCommand_wellFormed u c r d w w' :
  wellFormed w → newAJAXCommand E u c r d w = (Val tt, w') → wellFormed w'.
Proof.
  intros [Hold Hnd]. rewrite newAJAXCommand_eq. intros [= <-].
  unfold wellFormed, issued. simpl. split.
  - apply Forall_app. split.
    + eapply Forall_impl; [exact Hold|]. simpl.
      destruct (canRequest E); lia.
    + apply Forall_singleton. simpl. destruct (canRequest E); lia.
  - rewrite fmap_app. apply NoDup_app. split; [done|].
    split; [|apply NoDup_singleton].
    intros x (a & -> & Ha)%list_elem_of_fmap Hx%list_elem_of_singleton.
    eapply Forall_forall in Hold; [|exact Ha]. simpl in Hx. lia.
Qed.

(** A tick that runs to its end keeps the queue well formed, keeps every
    pending record of the snapshot as it was, and leaves no object of a
    resolved record in the queue: a record that was dispatched is not
    dispatched again. *)
Theorem pollAJAX_partition w w' :
  wellFormed w →
  pollAJAX E w = (Val tt, w') →
  wellFormed w'
  ∧ ∀ cur req,
      cur ∈ ajaxList w → ajaxReq cur = Some req →
      (resolves (times w (reads w)) cur req →
         ∀ a, a ∈ ajaxList w' → oid a ≠ oid cur)
      ∧ (¬ resolves (times w (reads w)) cur req → cur ∈ ajaxList w').
Proof.
  intros [Hold Hnd] Hrun. rewrite pollAJAX_eq in Hrun.
  apply bind_inv_val in Hrun as ([] & wn & Hloop & Hend).
  injection Hend as <-.
  assert (wellFormed (tickStart w)) as Hwf.
  { split; [|done]. eapply Forall_impl; [exact Hold|]. simpl. lia. }
  destruct (pollLoop_partition _ _ Hwf _ _ (Nat.le_refl _) Hloop)
    as (added & Hq & Ho & Hlt & Hnda & Hkind & Hkept).
  simpl in Hq, Ho, Hkind, Hkept.
  rewrite drop_all in Hq. rewrite firstn_all in Hkind, Hkept.
  simpl in Hq. simpl. rewrite Hq. split.
  { unfold wellFormed. simpl. by rewrite Hq. }
  intros cur req Hin Hreq. split.
  - intros Hres a Ha Hoid.
    eapply Forall_forall in Hkind; [|exact Ha].
    destruct Hkind as [[Haq Hp]|Hnew].
    + assert (a = cur) as -> by by apply (same_oid (ajaxList w)).
      by destruct (pending_not_resolved _ _ _ Hp Hreq).
    + eapply Forall_forall in Hold; [|exact Hin]. lia.
  - intros Hpend. apply Hkept; [done|]. by exists req.
Qed.

(** C7, as the script has it: nothing guards the call of a handler.  When
    the handler of the [k]-th record of the snapshot throws, the exception
    leaves [pollAJAX]: the records behind it stay in the queue
    unprocessed, the request of the record is not aborted, and no next
    tick is scheduled. *)
Theorem handler_fault_halts_polling w k cur req wk :
  ajaxList w !! k = Some cur →
  pollLoop E (times w (reads w)) k (tickStart w) = (Val tt, wk) →
  ajaxReq cur = Some req →
  resolves (times w (reads w)) cur req →
  ¬ sinkMissing cur req wk →
  handlerThrows E cur req wk = true →
  ∃ w' added,
    pollAJAX E w = (Throw HandlerError, w')
    ∧ List.filter isSetTimeout (newEvents w w') = []
    ∧ List.filter isAbort (newEvents wk w') = []
    ∧ ajaxList w' = drop (S k) (ajaxList w) ++ added.
Proof.
  intros Hk Hrun Hreq Hres Hmiss Hthrows.
  destruct (pollLoop_next _ k (tickStart w) wk cur Hk Hrun) as (added & Hq).
  set (rest := drop (S k) (ajaxList w) ++ added) in *.
  destruct (processRecord E (times w (reads w)) cur (setQueue rest wk))
    as [o w'] eqn:Hcur.
  assert (¬ sinkMissing cur req (setQueue rest wk)) as Hmiss' by done.
  destruct (resolved_once _ _ _ _ _ _ Hreq Hres Hmiss' Hcur)
    as (_ & _ & _ & ->).
  change (handlerThrows E cur req (setQueue rest wk))
    with (handlerThrows E cur req wk) in Hcur.
  rewrite Hthrows in Hcur.
  destruct (resolved_throw _ _ _ _ _ _ Hreq Hres Hcur)
    as [([=] & _)|(_ & _ & bh & hevs & Ht & Hqw & _ & _ & _ & He)].
  simpl in Ht, Hqw.
  exists w', (added ++ bh).
  assert (pollLoop E (times w (reads w)) (length (ajaxList w)) (tickStart w)
          = (Throw HandlerError, w')) as Hloop.
  { apply lookup_lt_Some in Hk.
    replace (length (ajaxList w))
      with (k + S (length (ajaxList w) - S k)) by lia.
    rewrite pollLoop_plus. erewrite bind_val; [|exact Hrun].
    rewrite (pollLoop_cons _ _ wk _ _ Hq). by erewrite bind_throw. }
  split; [|split; [|split]].
  - rewrite pollAJAX_eq. by erewrite bind_throw.
  - destruct (pollLoop_trace _ _ _ _ _ Hloop) as (evs & Htr & Hnone).
    by rewrite (newEvents_app w w' evs).
  - rewrite (newEvents_app _ _ _ Ht), List.filter_app.
    rewrite (filter_requestStart isAbort hevs); [|by intros []|done].
    rewrite app_nil_r. unfold sinkCalls.
    by destruct (readyOK req), (container cur).
  - rewrite Hqw. unfold rest. by rewrite app_assoc.
Qed.

(** C6, what the script does: a record whose [ajaxReq] is [null] makes
    line 38 raise.  On a page with neither request constructor, the first
    tick after a command was issued ends in a [TypeError] before anything
    is dispatched, and no next tick is scheduled. *)
Theorem null_transport_raises :
  (∀ now cur w,
     ajaxReq cur = None → processRecord E now cur w = (Throw TypeError, w)) ∧
  (hasXMLHttpRequest E = false → hasActiveXObject E = false →
   ∀ u c r d w,
     ajaxList w = [] →
     ∃ w1 w',
       newAJAXCommand E u c r d w = (Val tt, w1)
       ∧ pollAJAX E w1 = (Throw TypeError, w')
       ∧ ajaxList w' = []
       ∧ newEvents w w' = []).
Proof.
  split; [apply processRecord_null|].
  intros Hx Ha u c r d w Hq.
  exists (issued E u c r d w), (setQueue [] (tickStart (issued E u c r d w))).
  split; [apply newAJAXCommand_eq|].
  unfold pollAJAX, issued, newAjaxOf, canRequest, newEvents.
  rewrite Hx, Ha, Hq. run_script. unfold shift, processRecord. simpl.
  rewrite app_nil_r. repeat split. apply drop_all.
Qed.

(** *** The rounds of a tick *)

(** What a round leaves behind, whatever its outcome: a pending record
    goes back to the tail as it was and nothing else happens; any other
    record is not put back, and what joins the queue are objects made in
    the round. *)
Lemma processRecord_leaves now cur w o w' :
  processRecord E now cur w = (o, w') →
  ∃ out,
    ajaxList w' = ajaxList w ++ out
    ∧ next_oid w ≤ next_oid w'
    ∧ ((pending now cur ∧ out = [cur] ∧ o = Val tt ∧ w' = enqueue cur w)
       ∨ (¬ pending now cur
          ∧ Forall (λ a, next_oid w ≤ oid a < next_oid w') out
          ∧ NoDup (oid <$> out))).
Proof.
  intros Hrun.
  destruct (ajaxReq cur) as [req|] eqn:Hreq.
  2:{ rewrite processRecord_null in Hrun by done. injection Hrun as <- <-.
      exists []. rewrite app_nil_r. split; [done|]. split; [done|].
      right. split; [|split; [done|constructor]].
      intros (req & Hreq' & _). congruence. }
  destruct (decide (resolves now cur req)) as [Hres|Hpend].
  - assert (¬ pending now cur) as Hnp.
    { intros Hp. by apply (pending_not_resolved _ _ _ Hp Hreq). }
    destruct (processRecord_resolved _ _ _ _ _ _ Hreq Hres Hrun)
      as [(_ & -> & _)|(bh & hevs & w1 & Hio1 & _ & Hrest)].
    { exists []. rewrite app_nil_r. split; [done|]. split; [done|].
      right. split; [done|]. split; [done|constructor]. }
    destruct Hio1 as [Hq1 _ Hf1 _ _ _ _ _ _ Ho1 Hn1].
    unfold sinkWorld in *. simpl in *.
    destruct Hrest as [(_ & _ & ->)|(_ & _ & rs & revs & Hio2 & _)].
    + exists bh. split; [done|]. split; [done|]. right. by repeat split.
    + destruct Hio2 as [Hq2 _ Hf2 _ _ _ _ _ _ Ho2 Hn2].
      unfold addEvent in *. simpl in *.
      destruct (fresh_app bh rs _ _ _ Ho1 Ho2 Hf1 Hf2 Hn1 Hn2) as [Hf Hn].
      exists (bh ++ rs). split; [by rewrite Hq2, Hq1, app_assoc|].
      split; [lia|]. right. by repeat split.
  - unfold resolves in Hpend.
    rewrite (processRecord_pending now cur req) in Hrun.
    + injection Hrun as <- <-. exists [cur]. split; [done|]. split; [done|].
      left. split; [|done]. by exists req.
    + done.
    + destruct (readyOK req); [|done]. exfalso. apply Hpend. by left.
    + lia.
Qed.

Lemma pollLoop_one now w cur rest :
  ajaxList w = cur :: rest →
  pollLoop E now 1 w = processRecord E now cur (setQueue rest w).
Proof.
  intros Hq. rewrite (pollLoop_cons now 0 w cur rest Hq).
  apply bind_ret_unit.
Qed.

(** The loop, round by round. *)
Lemma pollLoop_rounds now w i :
  ∀ o wi,
    i ≤ length (ajaxList w) →
    pollLoop E now i w = (o, wi) →
    ∃ outs,
      length outs ≤ i
      ∧ (o = Val tt → length outs = i)
      ∧ (∀ j wj, j < i → pollLoop E now j w = (Val tt, wj) → j < length outs)
      ∧ ajaxList wi = drop (length outs) (ajaxList w) ++ concat outs
      ∧ next_oid w ≤ next_oid wi
      ∧ ∀ j cur out,
          ajaxList w !! j = Some cur → outs !! j = Some out →
          roundAt E now w outs o j cur out.
Proof.
  induction i as [|i IH]; intros o wi Hi Hrun.
  { injection Hrun as <- <-. exists []. simpl. rewrite drop_0, app_nil_r.
    split; [done|]. split; [done|]. split; [intros; lia|].
    split; [done|]. split; [done|]. by intros j cur out _ [=]. }
  rewrite pollLoop_snoc in Hrun. unfold bind at 1 in Hrun.
  destruct (pollLoop E now i w) as [o0 w0] eqn:Hloop.
  destruct (IH o0 w0 ltac:(lia) eq_refl)
    as (outs & Hlen & Hall & Hreach & Hq & Ho & Hrounds).
  destruct o0 as [[]|e].
  2:{ injection Hrun as <- <-. exists outs.
      split; [lia|]. split; [done|]. split.
      { intros j wj Hj Hj'. destruct (decide (j = i)) as [->|Hne].
        - rewrite Hloop in Hj'. done.
        - apply (Hreach j wj); [lia|done]. }
      done. }
  specialize (Hall eq_refl).
  destruct (lookup_lt_is_Some_2 (ajaxList w) i ltac:(lia)) as [cur Hcur].
  rewrite Hall, (drop_S _ _ _ Hcur) in Hq. simpl in Hq.
  rewrite (pollLoop_one now w0 cur _ Hq) in Hrun.
  destruct (processRecord_leaves _ _ _ _ _ Hrun)
    as (out & Hq1 & Ho1 & Hkind).
  simpl in Hq1, Ho1.
  exists (outs ++ [out]). rewrite length_app. simpl.
  split; [lia|]. split; [intros _; lia|]. split; [intros; lia|].
  split.
  { rewrite Hq1, concat_app. simpl.
    replace (length outs + 1) with (S i) by lia.
    by rewrite app_nil_r, <- app_assoc. }
  split; [lia|].
  intros j c out' Hc Hout. unfold roundAt. rewrite length_app. simpl length.
  destruct (decide (j < i)) as [Hlt|Hge].
  - rewrite lookup_app_l in Hout by lia.
    destruct (Hrounds j c out' Hc Hout)
      as (wj & wj1 & Hj & Hqj & Hstep & Hres & Hqj1 & Hoj & Hk).
    exists wj, wj1. rewrite take_app_le by lia.
    replace (S j =? length outs + 1) with false
      by (symmetry; apply Nat.eqb_neq; lia).
    repeat split; try done.
    rewrite Hres. by destruct (S j =? length outs).
  - assert (j = i) as ->.
    { apply lookup_lt_Some in Hout. rewrite length_app in Hout.
      simpl in Hout. lia. }
    assert (c = cur) as -> by congruence.
    rewrite lookup_app_r, Hall, Nat.sub_diag in Hout by lia.
    injection Hout as <-.
    exists w0, wi. rewrite take_app_le, firstn_all2 by lia.
    replace (S i =? length outs + 1) with true
      by (symmetry; apply Nat.eqb_eq; lia).
    split; [done|]. split; [done|]. split.
    { rewrite pollLoop_snoc. erewrite bind_val; [|exact Hloop].
      by apply pollLoop_one. }
    split; [done|]. split; [done|]. split; [done|].
    destruct Hkind as [(Hp & -> & _)|(Hnp & Hf & _)]; [by left|right].
    split; [done|]. eapply Forall_impl; [exact Hf|]. simpl. lia.
Qed.

(** A record of the snapshot that did not stay pending is in no round's
    leavings, and is not among the records the loop has not reached. *)
Lemma rounds_removed now w outs o k cur :
  wellFormed w →
  length outs ≤ length (ajaxList w) →
  (∀ j c out, ajaxList w !! j = Some c → outs !! j = Some out →
              roundAt E now w outs o j c out) →
  ajaxList w !! k = Some cur → k < length outs → ¬ pending now cur →
  ∀ a, a ∈ drop (length outs) (ajaxList w) ++ concat outs → oid a ≠ oid cur.
Proof.
  intros [Hold Hnd] Hlen Hrounds Hcur Hk Hnp a Ha Hoid.
  assert (cur ∈ ajaxList w) as Hin by by eapply list_elem_of_lookup_2.
  apply elem_of_app in Ha as [Ha|Ha].
  - apply list_elem_of_lookup in Ha as [t Ht]. rewrite lookup_drop in Ht.
    assert (k = length outs + t); [|lia].
    eapply NoDup_lookup; [exact Hnd|..]; rewrite list_lookup_fmap.
    + by rewrite Hcur.
    + rewrite Ht. simpl. by rewrite Hoid.
  - apply list_elem_of_In, in_concat in Ha as (out & Hout & Ha).
    apply list_elem_of_In, list_elem_of_lookup in Hout as [j Hj].
    apply list_elem_of_In in Ha.
    destruct (lookup_lt_is_Some_2 (ajaxList w) j) as [c Hc].
    { apply lookup_lt_Some in Hj. lia. }
    destruct (Hrounds j c out Hc Hj)
      as (wj & wj1 & _ & _ & _ & _ & _ & Hoj & [(Hp & ->)|(_ & Hf)]).
    + apply list_elem_of_singleton in Ha as ->.
      assert (c = cur) as ->; [|done].
      eapply same_oid; [exact Hnd| |done..].
      by eapply list_elem_of_lookup_2.
    + eapply Forall_forall in Hf; [|exact Ha].
      eapply Forall_forall in Hold; [|exact Hin]. simpl in *. lia.
Qed.

(** A tick that reaches the record at place [k] of its snapshot: the round
    for it, and how the tick ends.  The record is at the head of the queue
    and is taken off; an exception of the round is the outcome of the
    tick; what the round appends stays in the queue to the end of the
    tick, behind what the tick has not taken off; and unless the record is
    pending, its object is not in the queue afterwards. *)
Lemma tick_reaches w k cur wk :
  ajaxList w !! k = Some cur →
  pollLoop E (times w (reads w)) k (tickStart w) = (Val tt, wk) →
  ∃ rest o1 wk1 o w' out j more,
    ajaxList wk = cur :: rest
    ∧ next_oid w < next_oid wk
    ∧ processRecord E (times w (reads w)) cur (setQueue rest wk) = (o1, wk1)
    ∧ pollLoop E (times w (reads w)) (S k) (tickStart w) = (o1, wk1)
    ∧ pollAJAX E w = (o, w')
    ∧ (∀ e, o1 = Throw e → o = Throw e ∧ w' = wk1)
    ∧ (∃ later, trace w' = trace wk1 ++ later)
    ∧ ajaxList wk1 = rest ++ out
    ∧ ajaxList w' = drop j rest ++ out ++ more
    ∧ j + S k ≤ length (ajaxList w)
    ∧ ((pending (times w (reads w)) cur ∧ out = [cur])
       ∨ (¬ pending (times w (reads w)) cur
          ∧ Forall (λ a, next_oid wk ≤ oid a) out))
    ∧ (wellFormed w → ¬ pending (times w (reads w)) cur →
       ∀ a, a ∈ ajaxList w' → oid a ≠ oid cur).
Proof.
  intros Hcur Hloop.
  set (now := times w (reads w)) in *.
  set (n := length (ajaxList w)).
  assert (k < n) as Hkn by by eapply lookup_lt_Some.
  destruct (pollLoop E now n (tickStart w)) as [on wn] eqn:Hn.
  destruct (pollLoop_rounds now (tickStart w) n on wn (Nat.le_refl _) Hn)
    as (outs & Hlen & Hall & Hreach & Hq & Ho & Hrounds).
  simpl in Hq, Hrounds, Hlen.
  assert (k < length outs) as Hk by (by eapply Hreach).
  destruct (lookup_lt_is_Some_2 outs k Hk) as [out Hout].
  destruct (Hrounds k cur out Hcur Hout)
    as (wj & wk1 & Hj & Hqk & Hstep & Hres & Hqk1 & Hok & Hkind).
  rewrite Hloop in Hj. injection Hj as <-. simpl in Hqk, Hok.
  change (ajaxList (tickStart w)) with (ajaxList w) in Hstep, Hres, Hqk1.
  set (rest := drop (S k) (ajaxList w) ++ concat (take k outs)) in *.
  set (o1 := if S k =? length outs then on else Val tt) in *.
  assert (pollLoop E now (S k) (tickStart w) = (o1, wk1)) as Hstep'
    by by rewrite Hstep.
  assert (pollLoop E now n (tickStart w)
          = bind (pollLoop E now (S k)) (λ _, pollLoop E now (n - S k))
                 (tickStart w)) as Hsplit.
  { rewrite <- pollLoop_plus. f_equal. lia. }
  rewrite Hn in Hsplit.
  assert (∃ later, trace wn = trace wk1 ++ later
                   ∧ ∀ e, o1 = Throw e → on = Throw e ∧ wn = wk1)
    as (later & Hlater & Hthrown).
  { destruct o1 as [[]|e].
    - rewrite (bind_val _ _ _ _ _ Hstep') in Hsplit. symmetry in Hsplit.
      destruct (pollLoop_trace _ _ _ _ _ Hsplit) as (evs & Hevs & _).
      exists evs. by split.
    - rewrite (bind_throw _ _ _ _ _ Hstep') in Hsplit.
      injection Hsplit as -> ->. exists []. rewrite app_nil_r.
      split; [done|]. by intros e' [= <-]. }
  assert (∃ o w' later',
            pollAJAX E w = (o, w') ∧ ajaxList w' = ajaxList wn
            ∧ trace w' = trace wn ++ later'
            ∧ ∀ e, on = Throw e → o = Throw e ∧ w' = wn)
    as (o & w' & later' & Hrun & Hqw & Htw & Hthrown').
  { rewrite pollAJAX_eq. unfold bind. fold now. fold n. rewrite Hn.
    destruct on as [[]|e].
    - eexists _, _, _. split; [reflexivity|]. by repeat split.
    - eexists _, _, []. split; [reflexivity|]. rewrite app_nil_r.
      repeat split; try done; by intros e' [= <-]. }
  exists rest, o1, wk1, o, w', out, (length outs - S k),
         (concat (drop (S k) outs)).
  split; [done|]. split; [lia|]. split; [by rewrite <- Hstep|].
  split; [done|]. split; [done|]. split.
  { intros e He. destruct (Hthrown e He) as [Hon ->].
    by apply Hthrown'. }
  split; [exists (later ++ later'); by rewrite Htw, Hlater, app_assoc|].
  split; [done|]. split.
  { rewrite Hqw, Hq. unfold rest.
    rewrite drop_app_le by (rewrite length_drop; fold n; lia).
    rewrite drop_drop.
    replace (S k + (length outs - S k)) with (length outs) by lia.
    rewrite <- (take_drop_middle outs k out Hout) at 2.
    rewrite concat_app. simpl. by rewrite <- !app_assoc. }
  split; [fold n; lia|]. split; [done|].
  intros Hwf Hnp a Ha. rewrite Hqw, Hq in Ha.
  eapply (rounds_removed now (tickStart w) outs on k cur); try done.
  destruct Hwf as [Hold Hnd]. split; [|done].
  eapply Forall_impl; [exact Hold|]. simpl. lia.
Qed.

(** *** The claims about single records, in the tick that reaches them *)

Lemma ready_not_pending now cur req :
  ajaxReq cur = Some req → resolves now cur req → ¬ pending now cur.
Proof. intros Hreq Hres Hp. by apply (pending_not_resolved _ _ _ Hp Hreq). Qed.

Lemma reached_trace now k w wk :
  pollLoop E now k (tickStart w) = (Val tt, wk) →
  ∃ earlier, trace wk = trace w ++ earlier
             ∧ List.filter isSetTimeout earlier = [].
Proof.
  intros Hloop.
  destruct (pollLoop_trace _ _ _ _ _ Hloop) as (evs & Ht & Hnone).
  exists evs. by split.
Qed.



(** C4, as the script has it.  A resolved record that a tick reaches and
    whose sink can be reached: the handler, if there is one, may issue
    commands of its own, [byHandler].  When the handler returns (or there
    is none) and [repeat] is true, the round appends exactly one more
    record behind those: a new object with the same [url], [container] and
    [repeat], whose request is opened and sent without data after the
    abort; it stays in the queue to the end of the tick.  When [repeat] is
    not true the round appends nothing of its own, and the abort is its
    last call.  When the handler throws, the round ends there: the record
    was dispatched, but nothing is appended for it, whatever [repeat]. *)
Theorem repeat_reissued_once w k cur req wk :
  ajaxList w !! k = Some cur →
  pollLoop E (times w (reads w)) k (tickStart w) = (Val tt, wk) →
  ajaxReq cur = Some req → resolves (times w (reads w)) cur req →
  ¬ sinkMissing cur req wk →
  ∃ rest o1 wk1 o w' byHandler hevs,
    ajaxList wk = cur :: rest
    ∧ pollLoop E (times w (reads w)) (S k) (tickStart w) = (o1, wk1)
    ∧ pollAJAX E w = (o, w')
    ∧ Forall2 matchesCommand byHandler (handlerCommands E cur wk)
    ∧ Forall (λ e, isRequestStart e = true) hevs
    ∧ o1 = (if handlerThrows E cur req wk then Throw HandlerError else Val tt)
    ∧ (handlerThrows E cur req wk = true →
         ajaxList wk1 = rest ++ byHandler
         ∧ newEvents wk wk1 = sinkCalls cur req ++ hevs
         ∧ (o, w') = (Throw HandlerError, wk1))
    ∧ (handlerThrows E cur req wk = false → truthy (repeat cur) = false →
         ajaxList wk1 = rest ++ byHandler
         ∧ newEvents wk wk1 = sinkCalls cur req ++ hevs ++ [EvAbort (xid req)])
    ∧ (handlerThrows E cur req wk = false → truthy (repeat cur) = true →
         ∃ a revs j more,
           ajaxList wk1 = rest ++ byHandler ++ [a]
           ∧ url a = url cur ∧ container a = container cur
           ∧ repeat a = repeat cur
           ∧ next_oid wk ≤ oid a
           ∧ newEvents wk wk1
             = sinkCalls cur req ++ hevs ++ EvAbort (xid req) :: revs
           ∧ Forall (λ e, isRequestStart e = true) revs
           ∧ sendsNoPayload revs
           ∧ ajaxList w' = drop j rest ++ byHandler ++ [a] ++ more).
Proof.
  intros Hcur Hloop Hreq Hres Hmiss.
  destruct (tick_reaches w k cur wk Hcur Hloop)
    as (rest & o1 & wk1 & o & w' & out & j & more & Hq & Hoid & Hrun1 & Hstep
        & Hrun & Hthrown & Hlater & Hq1 & Hqw & Hj & Hkind & Hgone).
  assert (¬ sinkMissing cur req (setQueue rest wk)) as Hmiss' by done.
  destruct (resolved_once _ _ _ _ _ _ Hreq Hres Hmiss' Hrun1)
    as (_ & _ & _ & Ho).
  change (handlerThrows E cur req (setQueue rest wk))
    with (handlerThrows E cur req wk) in Ho.
  change (newEvents wk wk1) with (newEvents (setQueue rest wk) wk1).
  destruct (handlerThrows E cur req wk) eqn:Hthrows; subst o1.
  - destruct (resolved_throw _ _ _ _ _ _ Hreq Hres Hrun1)
      as [([=] & _)|(_ & _ & bh & hevs & Ht & Hqw1 & _ & Hm & _ & He)].
    simpl in Ht, Hqw1.
    exists rest, (Throw HandlerError), wk1, o, w', bh, hevs.
    split; [done|]. split; [done|]. split; [done|]. split; [done|].
    split; [done|]. split; [done|].
    split; [|split; intros [=]].
    intros _. split; [done|]. split; [by apply newEvents_app|].
    by destruct (Hthrown HandlerError eq_refl) as [-> ->].
  - destruct (processRecord_resolved _ _ _ _ _ _ Hreq Hres Hrun1)
      as [([=] & _)|(bh & hevs & w1 & Hio1 & _ &
                     [(_ & [=] & _)|(_ & _ & rs & revs & Hio2 & Hnp)])].
    destruct Hio1 as [Hq1' Hm1 Hf1 Ht1 He1 _ _ _ _ Ho1 _].
    destruct Hio2 as [Hq2 Hm2 Hf2 Ht2 He2 Hidle _ _ _ _ _].
    unfold sinkWorld, addEvent in *. simpl in *.
    exists rest, (Val tt), wk1, o, w', bh, hevs.
    split; [done|]. split; [done|]. split; [done|]. split; [done|].
    split; [done|]. split; [done|].
    split; [intros [=]|]. unfold repeatCommand in Hm2, Hidle.
    split; intros _ Hrep; rewrite Hrep in Hm2, Hidle.
    + apply Forall2_nil_inv_r in Hm2 as ->.
      rewrite Hq2, Hq1', app_nil_r. split; [done|].
      apply newEvents_app. simpl. rewrite Ht2, Ht1, (Hidle eq_refl).
      by rewrite <- !app_assoc.
    + apply Forall2_cons_inv_r in Hm2
        as (a & rs' & (Hu & Hc & Hr) & Hnil & ->).
      apply Forall2_nil_inv_r in Hnil as ->. simpl in *.
      rewrite Forall_singleton in Hf2.
      assert (ajaxList wk1 = rest ++ bh ++ [a]) as Hqa
        by by rewrite Hq2, Hq1', <- app_assoc.
      exists a, revs, j, more.
      split; [done|]. split; [done|]. split; [done|]. split; [done|].
      split; [lia|]. split.
      { apply newEvents_app. simpl. rewrite Ht2, Ht1.
        by rewrite <- !app_assoc. }
      split; [done|]. split; [done|].
      rewrite Hqa in Hq1. apply app_inv_head in Hq1 as <-.
      by rewrite Hqw, <- !app_assoc.
Qed.

(** C5, as the script has it.  A resolved record that a tick reaches makes
    its sink call first and aborts its request afterwards: no sink call
    follows the abort, so the handler runs while the request is intact,
    and when the handler throws the request is never aborted.  The sink
    call is made once, a call of the function or, for any other
    [container], the write into the element (ready branch, string) or the
    alert (timeout branch); a ready record whose [container] is neither a
    function nor a string is aborted with no sink call at all.  When the
    sink of a ready record cannot be reached, no document in the response
    or no such element, the round raises a [TypeError] and makes no call,
    neither dispatch nor abort. *)
Theorem dispatch_before_abort w k cur req wk :
  ajaxList w !! k = Some cur →
  pollLoop E (times w (reads w)) k (tickStart w) = (Val tt, wk) →
  ajaxReq cur = Some req → resolves (times w (reads w)) cur req →
  ∃ rest o1 wk1,
    ajaxList wk = cur :: rest
    ∧ pollLoop E (times w (reads w)) (S k) (tickStart w) = (o1, wk1)
    ∧ (sinkMissing cur req wk →
         o1 = Throw TypeError ∧ newEvents wk wk1 = [])
    ∧ (¬ sinkMissing cur req wk →
         o1 = (if handlerThrows E cur req wk
               then Throw HandlerError else Val tt)
         ∧ List.filter (λ e, isDispatch e || isAbort e) (newEvents wk wk1)
           = sinkCalls cur req
             ++ (if handlerThrows E cur req wk then []
                 else [EvAbort (xid req)])
         ∧ (handlerThrows E cur req wk = false →
            ∀ d, d ∈ sinkCalls cur req →
                 before d (EvAbort (xid req)) (newEvents wk wk1)
                 ∧ ¬ before (EvAbort (xid req)) d (newEvents wk wk1)))
    ∧ (∀ f, container cur = JFunction f →
            sinkCalls cur req
            = [EvCall f (if readyOK req then responseXML req else None)])
    ∧ (∀ id, container cur = JString id →
             sinkCalls cur req
             = [if readyOK req then EvInnerHTML id (responseText req)
                else EvAlert lostMessage])
    ∧ (typeof (container cur) ≠ "function" →
       typeof (container cur) ≠ "string" →
       sinkCalls cur req = if readyOK req then [] else [EvAlert lostMessage]).
Proof.
  intros Hcur Hloop Hreq Hres.
  destruct (tick_reaches w k cur wk Hcur Hloop)
    as (rest & o1 & wk1 & o & w' & out & j & more & Hq & Hoid & Hrun1 & Hstep
        & Hrun & Hthrown & Hlater & Hq1 & Hqw & Hj & Hkind & Hgone).
  exists rest, o1, wk1. split; [done|]. split; [done|].
  change (newEvents wk wk1) with (newEvents (setQueue rest wk) wk1).
  split; [|split; [|split; [|split]]].
  - intros Hmiss.
    assert (sinkMissing cur req (setQueue rest wk)) as Hmiss' by done.
    destruct (processRecord_resolved _ _ _ _ _ _ Hreq Hres Hrun1)
      as [(-> & -> & _)|(_ & _ & _ & _ & Hno & _)]; [|done].
    split; [done|]. unfold newEvents. apply drop_all.
  - intros Hmiss.
    assert (¬ sinkMissing cur req (setQueue rest wk)) as Hmiss' by done.
    destruct (resolved_once _ _ _ _ _ _ Hreq Hres Hmiss' Hrun1)
      as (_ & _ & _ & Ho).
    change (handlerThrows E cur req (setQueue rest wk))
      with (handlerThrows E cur req wk) in Ho.
    split; [done|].
    destruct (handlerThrows E cur req wk) eqn:Hthrows; subst o1.
    + destruct (resolved_throw _ _ _ _ _ _ Hreq Hres Hrun1)
        as [([=] & _)|(_ & _ & bh & hevs & Ht & _ & _ & _ & _ & He)].
      split; [|by intros [=]].
      rewrite (newEvents_app _ _ _ Ht), List.filter_app.
      rewrite (filter_requestStart _ hevs); [|by intros []|done].
      f_equal. unfold sinkCalls. by destruct (readyOK req), (container cur).
    + destruct (resolved_val _ _ _ _ _ Hreq Hres Hrun1)
        as (bh & hevs & rs & revs & Ht & _ & _ & _ & _ & _ & He1 & He2 & _).
      rewrite (newEvents_app _ _ _ Ht). split.
      * rewrite !List.filter_app. simpl.
        rewrite (filter_requestStart _ hevs); [|by intros []|done].
        rewrite (filter_requestStart _ revs); [|by intros []|done].
        f_equal. unfold sinkCalls.
        by destruct (readyOK req), (container cur).
      * intros _ d [-> Hd]%sinkCalls_short. split.
        -- exists 0, (S (length hevs)). split; [done|]. split; [|lia].
           simpl. rewrite lookup_app_r by done.
           by rewrite Nat.sub_diag.
        -- intros (i & j' & _ & Hj' & Hlt).
           destruct j' as [|j']; [lia|]. simpl in Hj'.
           apply list_elem_of_lookup_2 in Hj'.
           apply elem_of_app in Hj' as [Hj'|Hj'].
           ++ eapply Forall_forall in He1; [|exact Hj']. by destruct d.
           ++ apply elem_of_cons in Hj' as [->|Hj']; [done|].
              eapply Forall_forall in He2; [|exact Hj']. by destruct d.
  - intros f Hc. unfold sinkCalls. rewrite Hc. by destruct (readyOK req).
  - intros id Hc. unfold sinkCalls. rewrite Hc. by destruct (readyOK req).
  - intros Hnf Hns. unfold sinkCalls.
    destruct (readyOK req), (container cur); simpl in *; done.
Qed.


(** C1, as the script has it.  A tick makes its rounds on the records that
    were queued when it started, in their order, each taken from the head
    of the queue: round [j] finds the [j]-th record of the snapshot at the
    head, behind it the rest of the snapshot and then what the rounds
    before have appended.  Whatever a round appends, the record itself
    when it is still waiting or the new objects that resolving it made,
    goes to the tail, behind the records of the snapshot that are still to
    come, and no round of this tick takes it.  A tick that returns has
    made as many rounds as the snapshot has records, and leaves exactly
    what the rounds appended.  A tick that is cut short by an exception
    has made at least one round and leaves the untouched rest of the
    snapshot in front. *)
Theorem pollAJAX_snapshot w o w' :
  pollAJAX E w = (o, w') →
  ∃ outs,
    length outs ≤ length (ajaxList w)
    ∧ (o = Val tt →
       length outs = length (ajaxList w) ∧ ajaxList w' = concat outs)
    ∧ (∀ e, o = Throw e → 0 < length outs)
    ∧ ajaxList w' = drop (length outs) (ajaxList w) ++ concat outs
    ∧ ∀ j cur out,
        ajaxList w !! j = Some cur → outs !! j = Some out →
        roundAt E (times w (reads w)) (tickStart w) outs o j cur out.
Proof.
  intros Hrun. rewrite pollAJAX_eq in Hrun. unfold bind at 1 in Hrun.
  destruct (pollLoop E (times w (reads w)) (length (ajaxList w)) (tickStart w))
    as [o1 w1] eqn:Hloop.
  destruct (pollLoop_rounds (times w (reads w)) (tickStart w)
              (length (ajaxList w)) o1 w1 ltac:(done) Hloop)
    as (outs & Hlen & Hfull & Hreach & Hq & Hoid & Hround).
  change (ajaxList (tickStart w)) with (ajaxList w) in *.
  exists outs. split; [done|].
  destruct o1 as [[]|e].
  - unfold setTimeout in Hrun. injection Hrun as <- <-. simpl.
    specialize (Hfull eq_refl).
    split; [|split; [done|split; [done|done]]].
    intros _. split; [done|]. rewrite Hq, Hfull. by rewrite drop_all.
  - injection Hrun as <- <-.
    split; [done|]. split; [|split; [done|done]].
    intros e' _. destruct outs as [|out outs]; [|simpl; lia]. exfalso.
    destruct (ajaxList w) as [|c q] eqn:Hw.
    + simpl in Hloop. done.
    + specialize (Hreach 0 (tickStart w) ltac:(simpl; lia) eq_refl).
      simpl in Hreach. lia.
Qed.

End ScriptFacts.

(** ** The theorems on the page *)

(** C5, as stated, fails at a record answered for [UpdateStatusD]: the
    handler is called first and the request aborted afterwards.  Nor is
    every resolved record dispatched once: an answered record issued with
    the URL alone is aborted and has no sink call at all, and a record
    answered with a reply that is no document, or for an element that the
    page does not have, raises before any call, so that it has no sink
    call and is not aborted either. *)
Lemma dispatch_after_abort_counterexample :
  newEvents (pageWith [])
            (processRecord page 40000 statusCmd (pageWith [])).2
  = [EvCall "UpdateStatusD" (Some (statusReply [Text "3"])); EvAbort 16]
  ∧ ¬ dispatchedAfterAbort page 40000 statusCmd (pageWith [])
  ∧ List.filter (λ e, isDispatch e || isAbort e)
      (newEvents (pageWith [])
                 (processRecord page 40000 sinklessCmd (pageWith [])).2)
    = [EvAbort 10]
  ∧ ¬ dispatchedOnce page 40000 sinklessCmd (pageWith [])
  ∧ processRecord page 40000 textCmd (pageWith [])
    = (Throw TypeError, pageWith [])
  ∧ ¬ dispatchedOnce page 40000 textCmd (pageWith [])
  ∧ processRecord page 40000 orphanCmd (pageWith [])
    = (Throw TypeError, pageWith [])
  ∧ ¬ dispatchedOnce page 40000 orphanCmd (pageWith []).
Proof.
  split; [reflexivity|]. split; [|split; [reflexivity|split;
    [|split; [reflexivity|split; [|split; [reflexivity|]]]]]].
  - intros Hstated.
    destruct (Hstated (doneRequest 16)
                (processRecord page 40000 statusCmd (pageWith [])).2
                (EvCall "UpdateStatusD" (Some (statusReply [Text "3"])))
                eq_refl (ran _ _ eq_refl) (list_elem_of_here _ _))
      as (i & j & Hi & Hj & Hlt).
    change (newEvents _ _)
      with [EvCall "UpdateStatusD" (Some (statusReply [Text "3"])); EvAbort 16]
      in Hi, Hj.
    destruct i as [|[|i]], j as [|[|j]]; simpl in Hi, Hj;
      try discriminate; lia.
  - intros Hstated.
    specialize (Hstated (doneRequest 10) _ _ eq_refl (or_introl eq_refl)
                  (ran _ _ eq_refl)).
    discriminate Hstated.
  - intros Hstated.
    specialize (Hstated (plainRequest 24) _ _ eq_refl (or_introl eq_refl)
                  (ran _ _ eq_refl)).
    discriminate Hstated.
  - intros Hstated.
    specialize (Hstated (doneRequest 26) _ _ eq_refl (or_introl eq_refl)
                  (ran _ _ eq_refl)).
    discriminate Hstated.
Qed.

(** C5 as amended, at a queue whose second record is answered for
    [UpdateStatusD]. *)
Lemma dispatch_before_abort_witness :
  ∃ rest o1 wk1,
    ajaxList (pollLoop page 40000 1 (tickStart (pageWith [pendingCmd; statusCmd]))).2 = statusCmd :: rest
    ∧ pollLoop page 40000 2 (tickStart (pageWith [pendingCmd; statusCmd])) = (o1, wk1)
    ∧ (sinkMissing statusCmd (doneRequest 16) (pollLoop page 40000 1 (tickStart (pageWith [pendingCmd; statusCmd]))).2 →
         o1 = Throw TypeError ∧ newEvents (pollLoop page 40000 1 (tickStart (pageWith [pendingCmd; statusCmd]))).2 wk1 = [])
    ∧ (¬ sinkMissing statusCmd (doneRequest 16) (pollLoop page 40000 1 (tickStart (pageWith [pendingCmd; statusCmd]))).2 →
         o1 = (if handlerThrows page statusCmd (doneRequest 16) (pollLoop page 40000 1 (tickStart (pageWith [pendingCmd; statusCmd]))).2
               then Throw HandlerError else Val tt)
         ∧ List.filter (λ e, isDispatch e || isAbort e) (newEvents (pollLoop page 40000 1 (tickStart (pageWith [pendingCmd; statusCmd]))).2 wk1)
           = sinkCalls statusCmd (doneRequest 16)
             ++ (if handlerThrows page statusCmd (doneRequest 16) (pollLoop page 40000 1 (tickStart (pageWith [pendingCmd; statusCmd]))).2
                 then [] else [EvAbort 16])
         ∧ (handlerThrows page statusCmd (doneRequest 16) (pollLoop page 40000 1 (tickStart (pageWith [pendingCmd; statusCmd]))).2 = false →
            ∀ d, d ∈ sinkCalls statusCmd (doneRequest 16) →
                 before d (EvAbort 16) (newEvents (pollLoop page 40000 1 (tickStart (pageWith [pendingCmd; statusCmd]))).2 wk1)
                 ∧ ¬ before (EvAbort 16) d (newEvents (pollLoop page 40000 1 (tickStart (pageWith [pendingCmd; statusCmd]))).2 wk1)))
    ∧ (∀ f, container statusCmd = JFunction f →
            sinkCalls statusCmd (doneRequest 16)
            = [EvCall f (Some (statusReply [Text "3"]))])
    ∧ (∀ id, container statusCmd = JString id →
             sinkCalls statusCmd (doneRequest 16)
             = [EvInnerHTML id statusText])
    ∧ (typeof (container statusCmd) ≠ "function" →
       typeof (container statusCmd) ≠ "string" →
       sinkCalls statusCmd (doneRequest 16) = []).
Proof.
  exact (dispatch_before_abort page (pageWith [pendingCmd; statusCmd]) 1 statusCmd (doneRequest 16) (pollLoop page 40000 1 (tickStart (pageWith [pendingCmd; statusCmd]))).2
           eq_refl (ran _ _ eq_refl) eq_refl (or_introl eq_refl)).
Defined.

(** C1, as stated, fails at a queue whose first record has a handler that
    throws: the tick takes one record off, not two, and the second is
    still at the head when the tick has ended. *)
Lemma pollAJAX_snapshot_counterexample :
  (pollAJAX page (pageWith [faultyCmd; statusCmd])).1 = Throw HandlerError
  ∧ ajaxList (pollAJAX page (pageWith [faultyCmd; statusCmd])).2 = [statusCmd]
  ∧ ¬ removesSnapshot page (pageWith [faultyCmd; statusCmd]).
Proof.
  split; [reflexivity|]. split; [reflexivity|].
  intros Hstated.
  specialize (Hstated _ _ (ran _ _ eq_refl)).
  change (ajaxList (pollAJAX _ _).2) with [statusCmd] in Hstated.
  apply Forall_singleton in Hstated as [[_ (req & [= <-] & Hnot)]|Hfresh].
  - apply Hnot. by left.
  - simpl in Hfresh. lia.
Qed.

(** C1 as amended, at a queue of a record in flight, one whose handler
    issues a command and which repeats, and one that has timed out. *)
Lemma pollAJAX_snapshot_witness :
  ∃ outs,
    length outs ≤ 3
    ∧ ((pollAJAX page (pageWith [pendingCmd; chainedCmd; staleCmd])).1 = Val tt →
       length outs = 3 ∧ ajaxList (pollAJAX page (pageWith [pendingCmd; chainedCmd; staleCmd])).2 = concat outs)
    ∧ (∀ e, (pollAJAX page (pageWith [pendingCmd; chainedCmd; staleCmd])).1 = Throw e → 0 < length outs)
    ∧ ajaxList (pollAJAX page (pageWith [pendingCmd; chainedCmd; staleCmd])).2
      = drop (length outs) [pendingCmd; chainedCmd; staleCmd] ++ concat outs
    ∧ ∀ j cur out,
        [pendingCmd; chainedCmd; staleCmd] !! j = Some cur →
        outs !! j = Some out →
        roundAt page 40000 (tickStart (pageWith [pendingCmd; chainedCmd; staleCmd])) outs (pollAJAX page (pageWith [pendingCmd; chainedCmd; staleCmd])).1
                j cur out.
Proof.
  exact (pollAJAX_snapshot page (pageWith [pendingCmd; chainedCmd; staleCmd]) _ _ (ran _ _ eq_refl)).
Defined.





(** C4, as stated, fails at an answered record that repeats and whose
    handler throws: it is dispatched, and nothing is appended for it. *)
Lemma repeat_dropped_counterexample :
  pollAJAX page (pageWith [faultyRepeatCmd])
  = (Throw HandlerError,
     addEvent (EvCall "Faulty" (Some (statusReply [Text "3"])))
       (setQueue [] (tickStart (pageWith [faultyRepeatCmd]))))
  ∧ ¬ repeatReissued page (pageWith [faultyRepeatCmd]).
Proof.
  split; [reflexivity|].
  intros Hstated.
  destruct (Hstated faultyRepeatCmd (doneRequest 28) _ _
              (EvCall "Faulty" (Some (statusReply [Text "3"])))
              (list_elem_of_here _ _) eq_refl eq_refl (ran _ _ eq_refl)
              (list_elem_of_here _ _) (list_elem_of_here _ _))
    as (a & Ha & _).
  by apply elem_of_nil in Ha.
Qed.

(** C4 as amended, at a queue whose second record repeats and has a
    handler that issues a command of its own. *)
Lemma repeat_reissued_once_witness :
  ∃ rest o1 wk1 o w' byHandler hevs,
    ajaxList (pollLoop page 40000 1 (tickStart (pageWith [pendingCmd; chainedCmd]))).2 = chainedCmd :: rest
    ∧ pollLoop page 40000 2 (tickStart (pageWith [pendingCmd; chainedCmd])) = (o1, wk1)
    ∧ pollAJAX page (pageWith [pendingCmd; chainedCmd]) = (o, w')
    ∧ Forall2 matchesCommand byHandler (handlerCommands page chainedCmd (pollLoop page 40000 1 (tickStart (pageWith [pendingCmd; chainedCmd]))).2)
    ∧ Forall (λ e, isRequestStart e = true) hevs
    ∧ o1 = (if handlerThrows page chainedCmd (doneRequest 4) (pollLoop page 40000 1 (tickStart (pageWith [pendingCmd; chainedCmd]))).2
            then Throw HandlerError else Val tt)
    ∧ (handlerThrows page chainedCmd (doneRequest 4) (pollLoop page 40000 1 (tickStart (pageWith [pendingCmd; chainedCmd]))).2 = true →
         ajaxList wk1 = rest ++ byHandler
         ∧ newEvents (pollLoop page 40000 1 (tickStart (pageWith [pendingCmd; chainedCmd]))).2 wk1 = sinkCalls chainedCmd (doneRequest 4) ++ hevs
         ∧ (o, w') = (Throw HandlerError, wk1))
    ∧ (handlerThrows page chainedCmd (doneRequest 4) (pollLoop page 40000 1 (tickStart (pageWith [pendingCmd; chainedCmd]))).2 = false →
       truthy (repeat chainedCmd) = false →
         ajaxList wk1 = rest ++ byHandler
         ∧ newEvents (pollLoop page 40000 1 (tickStart (pageWith [pendingCmd; chainedCmd]))).2 wk1
           = sinkCalls chainedCmd (doneRequest 4) ++ hevs ++ [EvAbort 4])
    ∧ (handlerThrows page chainedCmd (doneRequest 4) (pollLoop page 40000 1 (tickStart (pageWith [pendingCmd; chainedCmd]))).2 = false →
       truthy (repeat chainedCmd) = true →
         ∃ a revs j more,
           ajaxList wk1 = rest ++ byHandler ++ [a]
           ∧ url a = url chainedCmd ∧ container a = container chainedCmd
           ∧ repeat a = repeat chainedCmd
           ∧ next_oid (pollLoop page 40000 1 (tickStart (pageWith [pendingCmd; chainedCmd]))).2 ≤ oid a
           ∧ newEvents (pollLoop page 40000 1 (tickStart (pageWith [pendingCmd; chainedCmd]))).2 wk1
             = sinkCalls chainedCmd (doneRequest 4) ++ hevs
               ++ EvAbort 4 :: revs
           ∧ Forall (λ e, isRequestStart e = true) revs
           ∧ sendsNoPayload revs
           ∧ ajaxList w' = drop j rest ++ byHandler ++ [a] ++ more).
Proof.
  exact (repeat_reissued_once page (pageWith [pendingCmd; chainedCmd]) 1 chainedCmd (doneRequest 4) (pollLoop page 40000 1 (tickStart (pageWith [pendingCmd; chainedCmd]))).2
           eq_refl (ran _ _ eq_refl) eq_refl (or_introl eq_refl)
           ltac:(by intros [_ ?])).
Defined.


(** C6 at a record without a request, and on a page with no request
    constructor: the command is queued with a [null] request, and the next
    tick raises. *)
Lemma null_transport_raises_witness :
  processRecord barePage 40000 nullCmd (pageWith [])
  = (Throw TypeError, pageWith [])
  ∧ ∃ w1 w',
      newAJAXCommand barePage "statusD.xml" (JFunction "UpdateStatusD")
        JUndefined JUndefined (pageWith []) = (Val tt, w1)
      ∧ pollAJAX barePage w1 = (Throw TypeError, w')
      ∧ ajaxList w' = []
      ∧ newEvents (pageWith []) w' = [].
Proof.
  split.
  - exact (proj1 (null_transport_raises barePage) 40000%Z nullCmd
             (pageWith []) eq_refl).
  - exact (proj2 (null_transport_raises barePage) eq_refl eq_refl
             "statusD.xml" (JFunction "UpdateStatusD") JUndefined JUndefined
             (pageWith []) eq_refl).
Defined.

(** A record without a request is not resolved by the timeout branch, even
    after 35 s: nothing is dispatched, and the record is gone. *)
Lemma null_transport_never_times_out :
  processRecord page 40000 nullCmd (pageWith [])
  = (Throw TypeError, pageWith [])
  ∧ ¬ nullResolvedByTimeout page 40000 nullCmd (pageWith []).
Proof.
  split; [reflexivity|].
  intros Hstated.
  destruct (Hstated eq_refl ltac:(unfold timeOutMS; simpl; lia))
    as (w' & Hrun & _).
  discriminate Hrun.
Qed.

(** C7, as stated, fails at a queue whose first record has a handler that
    throws: the tick ends in the exception with the second record
    untouched, and arms no timer. *)
Lemma handler_fault_counterexample :
  h_throws (handlers page "Faulty" (Some (statusReply [Text "3"])) []) = true
  ∧ (pollAJAX page (pageWith [faultyCmd; statusCmd])).1 = Throw HandlerError
  ∧ ajaxList (pollAJAX page (pageWith [faultyCmd; statusCmd])).2 = [statusCmd]
  ∧ trace (pollAJAX page (pageWith [faultyCmd; statusCmd])).2
    = [EvCall "Faulty" (Some (statusReply [Text "3"]))]
  ∧ ¬ survivesHandlerFault page (pageWith [faultyCmd; statusCmd]).
Proof.
  repeat split.
  intros (w' & Hrun & _).
  apply (f_equal fst) in Hrun. discriminate Hrun.
Qed.

(** C7 as amended, at a queue whose second record has the handler that
    throws. *)
Lemma handler_fault_halts_polling_witness :
  ∃ w' added,
    pollAJAX page (pageWith [pendingCmd; faultyCmd; statusCmd])
      = (Throw HandlerError, w')
    ∧ List.filter isSetTimeout
        (newEvents (pageWith [pendingCmd; faultyCmd; statusCmd]) w') = []
    ∧ List.filter isAbort
        (newEvents
           (pollLoop page 40000 1
              (tickStart (pageWith [pendingCmd; faultyCmd; statusCmd]))).2
           w') = []
    ∧ ajaxList w' = [statusCmd] ++ added.
Proof.
  exact (handler_fault_halts_polling page
           (pageWith [pendingCmd; faultyCmd; statusCmd]) 1 faultyCmd
           (doneRequest 8)
           (pollLoop page 40000 1
              (tickStart (pageWith [pendingCmd; faultyCmd; statusCmd]))).2
           eq_refl (ran _ _ eq_refl) eq_refl (or_introl eq_refl)
           ltac:(by intros [_ ?]) eq_refl).
Defined.

(** C9 at a record issued with the URL alone: answered, and lost after
    35 s. *)
Lemma sinkless_record_witness :
  (∃ w' rs,
     processRecord page 40000 sinklessCmd (pageWith []) = (Val tt, w')
     ∧ List.filter isDispatch (newEvents (pageWith []) w') = []
     ∧ dom w' = dom (pageWith [])
     ∧ List.filter isAbort (newEvents (pageWith []) w') = [EvAbort 10]
     ∧ ajaxList w' = [] ++ rs
     ∧ Forall2 matchesCommand rs (repeatCommand sinklessCmd)) ∧
  (∃ w' rs,
     processRecord page 40000 lostCmd (pageWith []) = (Val tt, w')
     ∧ List.filter isDispatch (newEvents (pageWith []) w')
       = [EvAlert lostMessage]
     ∧ dom w' = dom (pageWith [])
     ∧ List.filter isAbort (newEvents (pageWith []) w') = [EvAbort 22]
     ∧ ajaxList w' = [] ++ rs
     ∧ Forall2 matchesCommand rs (repeatCommand lostCmd)).
Proof.
  split.
  - exact (proj1 (sinkless_record page 40000 sinklessCmd (doneRequest 10)
                    (pageWith []) eq_refl
                    ltac:(discriminate) ltac:(discriminate))
             eq_refl).
  - exact (proj1 (proj2 (sinkless_record page 40000 lostCmd (openRequest 22)
                           (pageWith []) eq_refl
                           ltac:(discriminate) ltac:(discriminate)))
             eq_refl ltac:(unfold timeOutMS; simpl; lia)).
Defined.

(** * Further properties *)

(** ** The response extractor *)

Lemma getElementsByTagName_elements root field e :
  e ∈ getElementsByTagName root field → tagMatches field e = true.
Proof.
  unfold getElementsByTagName. rewrite list_elem_of_In, List.filter_In.
  by intros [_ ?].
Qed.

(** What [getXMLValue] returns is never the empty string: it is [null] or
    the non-empty value of the first child of an element named [field]
    below the body. *)
Theorem getXMLValue_nonempty xmlData field s :
  getXMLValue xmlData field = Val (Some s) →
  s ≠ ""
  ∧ ∃ root e c,
      xmlData = Some root
      ∧ e ∈ getElementsByTagName root field
      ∧ tagMatches field e = true
      ∧ firstChild e = Some c
      ∧ nodeValue c = Some s.
Proof.
  unfold getXMLValue, getXMLValue_try.
  destruct xmlData as [[tag cs| | |]|]; try discriminate.
  destruct (getElementsByTagName (Element tag cs) field) as [|e rest] eqn:Hall;
    [discriminate|].
  destruct (firstChild e) as [c|] eqn:Hc; [|discriminate].
  destruct (nodeValue c) as [v|] eqn:Hv; [|discriminate].
  destruct (String.eqb v "") eqn:Hempty; [discriminate|].
  intros [= <-]. split.
  - intros ->. discriminate Hempty.
  - assert (e ∈ getElementsByTagName (Element tag cs) field) as He
      by (rewrite Hall; apply list_elem_of_here).
    exists (Element tag cs), e, c. repeat split; try done.
    by eapply getElementsByTagName_elements.
Qed.

Lemma getXMLValue_nonempty_witness :
  "3" ≠ ""
  ∧ ∃ root e c,
      Some (statusReply [Text "3"]) = Some root
      ∧ e ∈ getElementsByTagName root "CDS"
      ∧ tagMatches "CDS" e = true
      ∧ firstChild e = Some c
      ∧ nodeValue c = Some "3".
Proof.
  exact (getXMLValue_nonempty (Some (statusReply [Text "3"])) "CDS" "3"
           eq_refl).
Defined.

Lemma descendants_leaves tag cs :
  forallb isCharacterData cs = true → descendants (Element tag cs) = [].
Proof.
  simpl. induction cs as [|c cs IH]; [done|].
  simpl. intros [Hc Hcs]%andb_prop.
  destruct c; [discriminate|by apply IH..].
Qed.

(** The body element itself is not searched: for a body whose children
    are all character data the result is [null] whatever the field, also
    when the body is named [field], as <CDS>3</CDS> is for "CDS". *)
Theorem getXMLValue_skips_root tag cs field :
  forallb isCharacterData cs = true →
  getXMLValue (Some (Element tag cs)) field = Val None.
Proof.
  intros Hleaves. apply getXMLValue_absent.
  unfold getElementsByTagName. by rewrite (descendants_leaves _ _ Hleaves).
Qed.

Lemma getXMLValue_skips_root_witness :
  getXMLValue (Some (Element "CDS" [Text "3"])) "CDS" = Val None.
Proof.
  exact (getXMLValue_skips_root "CDS" [Text "3"] "CDS" eq_refl).
Defined.

(** ** The queue over whole ticks *)

Section TickFacts.

Variable E : env.

Lemma resolvesb_resolves now cur req :
  resolvesb now cur req = true ↔ resolves now cur req.
Proof.
  unfold resolvesb, resolves. rewrite orb_true_iff.
  by rewrite Z.gtb_gt.
Qed.

Lemma pending_branch now cur :
  pending now cur →
  ∃ req,
    ajaxReq cur = Some req ∧ readyOK req = false
    ∧ (now - lastCalled cur ≤ timeOutMS)%Z.
Proof.
  intros (req & Hreq & Hnot). exists req. unfold resolves in Hnot.
  split; [done|]. split.
  - destruct (readyOK req); [|done]. exfalso. apply Hnot. by left.
  - lia.
Qed.

(** Rounds over pending records rotate the queue. *)
Lemma pollLoop_idle now k :
  ∀ w,
    k ≤ length (ajaxList w) →
    Forall (pending now) (take k (ajaxList w)) →
    pollLoop E now k w
    = (Val tt, setQueue (drop k (ajaxList w) ++ take k (ajaxList w)) w).
Proof.
  induction k as [|k IH]; intros w Hk Hpend.
  - simpl. rewrite drop_0, app_nil_r. by destruct w.
  - destruct (lookup_lt_is_Some_2 (ajaxList w) k ltac:(lia)) as (cur & Hcur).
    rewrite (take_S_r _ _ _ Hcur) in Hpend.
    apply Forall_app in Hpend as [Hfirst Hlast].
    rewrite Forall_singleton in Hlast.
    destruct (pending_branch _ _ Hlast) as (req & Hreq & Hok & Hearly).
    rewrite pollLoop_snoc.
    erewrite bind_val; [|apply IH; [lia|done]].
    rewrite (drop_S _ _ _ Hcur).
    erewrite pollLoop_cons; [|reflexivity].
    rewrite bind_ret_unit.
    rewrite (processRecord_pending E now cur req) by done.
    rewrite (take_S_r _ _ _ Hcur).
    unfold enqueue, setQueue. simpl. by rewrite <- !app_assoc.
Qed.

(** A tick over a queue in which every record is still pending, the empty
    queue included, leaves the queue as it was, the same records in the
    same order, and makes no call on the browser but the one that arms
    the next tick. *)
Theorem idle_tick w :
  Forall (pending (times w (reads w))) (ajaxList w) →
  pollAJAX E w
  = (Val tt, addEvent (EvSetTimeout "pollAJAX()" 10) (tickStart w)).
Proof.
  intros Hpend. rewrite pollAJAX_eq.
  erewrite bind_val.
  2:{ apply pollLoop_idle; [done|]. simpl. by rewrite firstn_all. }
  simpl. rewrite drop_all, firstn_all. reflexivity.
Qed.

Lemma processRecord_aborts now cur w w' :
  processRecord E now cur w = (Val tt, w') →
  ∃ evs,
    trace w' = trace w ++ evs
    ∧ List.filter isAbort evs = abortsOf now [cur].
Proof.
  intros Hrun. unfold abortsOf. simpl. rewrite app_nil_r.
  destruct (ajaxReq cur) as [req|] eqn:Hreq;
    [|by rewrite processRecord_null in Hrun].
  destruct (resolvesb now cur req) eqn:Hres.
  - apply resolvesb_resolves in Hres.
    destruct (resolved_val _ _ _ _ _ _ Hreq Hres Hrun)
      as (bh & hevs & rs & revs & Ht & _ & _ & _ & _ & _ & He1 & He2 & _).
    eexists. split; [exact Ht|].
    apply aborts_resolved; try done.
    unfold sinkCalls. by destruct (readyOK req), (container cur).
  - assert (pending now cur) as Hpend.
    { exists req. split; [done|]. rewrite <- resolvesb_resolves. congruence. }
    destruct (pending_branch _ _ Hpend) as (req' & Hreq' & Hok & Hearly).
    rewrite (processRecord_pending E now cur req') in Hrun by done.
    injection Hrun as <-. exists []. by rewrite app_nil_r.
Qed.

Lemma abortsOf_app now q1 q2 :
  abortsOf now (q1 ++ q2) = abortsOf now q1 ++ abortsOf now q2.
Proof. unfold abortsOf. apply flat_map_app. Qed.

Lemma pollLoop_aborts now k :
  ∀ w wk,
    k ≤ length (ajaxList w) →
    pollLoop E now k w = (Val tt, wk) →
    ∃ evs,
      trace wk = trace w ++ evs
      ∧ List.filter isAbort evs = abortsOf now (take k (ajaxList w)).
Proof.
  induction k as [|k IH]; intros w wk Hk Hrun.
  - injection Hrun as <-. exists []. by rewrite app_nil_r.
  - destruct (ajaxList w) as [|cur rest] eqn:Hq; [simpl in Hk; lia|].
    rewrite (pollLoop_cons E now k w cur rest Hq) in Hrun.
    apply bind_inv_val in Hrun as ([] & w1 & Hcur & Hrun).
    destruct (processRecord_aborts _ _ _ _ Hcur) as (e1 & Ht1 & Ha1).
    destruct (processRecord_grows _ _ _ _ _ _ Hcur) as (a1 & _ & Hq1 & _).
    simpl in Ht1, Hq1.
    destruct (IH w1 wk) as (e2 & Ht2 & Ha2); [|done|].
    { rewrite Hq1, length_app. simpl in Hk. lia. }
    exists (e1 ++ e2). split; [by rewrite Ht2, Ht1, app_assoc|].
    rewrite List.filter_app, Ha1, Ha2, Hq1.
    rewrite take_app_le by (simpl in Hk; lia).
    change (take (S k) (cur :: rest)) with ([cur] ++ take k rest).
    by rewrite abortsOf_app.
Qed.

(** In a tick that runs to its end a request is aborted exactly when its
    record is resolved: the aborts of the tick are those of the resolved
    records of the snapshot, one each, in the order of the queue, and no
    request of a pending or of a new record is aborted. *)
Theorem tick_aborts w w' :
  pollAJAX E w = (Val tt, w') →
  List.filter isAbort (newEvents w w')
  = abortsOf (times w (reads w)) (ajaxList w).
Proof.
  intros Hrun. rewrite pollAJAX_eq in Hrun.
  apply bind_inv_val in Hrun as ([] & wn & Hloop & Hend).
  injection Hend as <-.
  destruct (pollLoop_aborts _ _ _ _ (Nat.le_refl _) Hloop) as (evs & Ht & Ha).
  simpl in Ht, Ha. rewrite firstn_all in Ha.
  rewrite (newEvents_app w _ (evs ++ [EvSetTimeout "pollAJAX()" 10])).
  - rewrite List.filter_app, Ha. simpl. by rewrite app_nil_r.
  - simpl. by rewrite Ht, app_assoc.
Qed.

Lemma processRecord_live now cur w ts :
  quietHandlers E → ownsReply cur →
  (∀ t, renderTarget cur = Some t → t ∈ ts) →
  anchored ts (dom w) →
  ∃ w', processRecord E now cur w = (Val tt, w') ∧ anchored ts (dom w').
Proof.
  intros Hquiet (req & Hreq & Hdoc) Hts Hd.
  destruct (decide (resolves now cur req)) as [Hres|Hpend].
  - assert (¬ sinkMissing cur req w) as Hmiss.
    { intros [Hok Hgone]. specialize (Hdoc Hok).
      destruct (container cur) as [| | | |id|f] eqn:Hc; try done.
      - destruct (anchored_found ts (dom w) id Hd) as [x Hx]; [|congruence].
        apply Hts. unfold renderTarget. by rewrite Hreq, Hc, Hok.
      - destruct Hdoc as [x Hx]. congruence. }
    assert (handlerThrows E cur req w = false) as Hcalm.
    { unfold handlerThrows.
      destruct (container cur); first [done|apply Hquiet]. }
    destruct (resolved_returns E now cur req w Hreq Hres Hmiss Hcalm)
      as (w' & Hrun).
    exists w'. split; [done|].
    destruct (resolved_val E _ _ _ _ _ Hreq Hres Hrun)
      as (_ & _ & _ & _ & _ & _ & Hdom & _).
    rewrite Hdom. unfold sinkDom.
    destruct (readyOK req) eqn:Hok; [|done].
    destruct (container cur) as [| | | |id|f] eqn:Hc; try done.
    apply anchored_write; [|done].
    apply Hts. unfold renderTarget. by rewrite Hreq, Hc, Hok.
  - assert (pending now cur) as Hp by by exists req.
    destruct (pending_branch _ _ Hp) as (req' & Hreq' & Hok & Hearly).
    exists (enqueue cur w). split; [|done].
    by apply (processRecord_pending E now cur req').
Qed.

Lemma pollLoop_live now k ts :
  quietHandlers E →
  ∀ w,
    k ≤ length (ajaxList w) →
    Forall ownsReply (take k (ajaxList w)) →
    (∀ t, t ∈ renderTargets (take k (ajaxList w)) → t ∈ ts) →
    anchored ts (dom w) →
    ∃ wk, pollLoop E now k w = (Val tt, wk) ∧ anchored ts (dom wk).
Proof.
  intros Hquiet. induction k as [|k IH]; intros w Hk Hall Hts Hd.
  - by exists w.
  - destruct (ajaxList w) as [|cur rest] eqn:Hq; [simpl in Hk; lia|].
    simpl in Hall, Hts. apply Forall_cons in Hall as [Hcur Hrest].
    destruct (processRecord_live now cur (setQueue rest w) ts Hquiet Hcur)
      as (w1 & Hrun1 & Hd1); [|done|].
    { intros t Ht. apply Hts. unfold renderTargets. simpl. rewrite Ht.
      apply list_elem_of_here. }
    destruct (processRecord_grows E _ _ _ _ _ Hrun1) as (a1 & _ & Hq1 & _).
    simpl in Hq1.
    destruct (IH w1) as (wk & Hrunk & Hdk); [| | |done|].
    { rewrite Hq1, length_app. simpl in Hk. lia. }
    { rewrite Hq1, take_app_le by (simpl in Hk; lia). done. }
    { rewrite Hq1, take_app_le by (simpl in Hk; lia).
      intros t Ht. apply Hts. unfold renderTargets in *. simpl.
      destruct (renderTarget cur); [by apply list_elem_of_further|done]. }
    exists wk. split; [|done].
    rewrite (pollLoop_cons E now k w cur rest Hq).
    by erewrite bind_val.
Qed.


End TickFacts.

Lemma idle_tick_witness :
  pollAJAX page (pageWith [pendingCmd; edgeCmd])
  = (Val tt,
     addEvent (EvSetTimeout "pollAJAX()" 10)
              (tickStart (pageWith [pendingCmd; edgeCmd]))).
Proof.
  apply (idle_tick page (pageWith [pendingCmd; edgeCmd])).
  repeat constructor.
  - exists (openRequest 2). split; [reflexivity|].
    intros [Hready|Hlate]; [discriminate Hready|].
    unfold timeOutMS in Hlate. simpl in Hlate. lia.
  - exists (openRequest 18). split; [reflexivity|].
    intros [Hready|Hlate]; [discriminate Hready|].
    unfold timeOutMS in Hlate. simpl in Hlate. lia.
Defined.

Lemma tick_aborts_witness :
  List.filter isAbort
    (newEvents (pageWith [pendingCmd; chainedCmd; staleCmd])
               (pollAJAX page (pageWith [pendingCmd; chainedCmd; staleCmd])).2)
  = [EvAbort 4; EvAbort 6].
Proof.
  exact (tick_aborts page (pageWith [pendingCmd; chainedCmd; staleCmd])
           (pollAJAX page (pageWith [pendingCmd; chainedCmd; staleCmd])).2
           (ran _ _ eq_refl)).
Defined.


(** What the condition on the elements rules out: a record answered for
    X, the element around B1, takes B1 off the page, and the record
    answered for B1 behind it raises. *)
Lemma nested_target_lost :
  (pollAJAX calmPage (pageWith [coverCmd; buttonCmd])).1 = Throw TypeError
  ∧ dom (pollAJAX calmPage (pageWith [coverCmd; buttonCmd])).2
    = {| roots := [El "X" []; El "foot" [El "RT" []]] |}
  ∧ ¬ anchored (renderTargets [coverCmd; buttonCmd]) pageDocument.
Proof.
  split; [reflexivity|]. split; [reflexivity|].
  intros Hd. destruct (Hd "B1") as [_ Hin]; [|discriminate Hin].
  apply list_elem_of_further, list_elem_of_here.
Qed.

Lemma newAJAXCommand_wellFormed_witness :
  wellFormed
    (newAJAXCommand page "rstatus.xml" (JFunction "UpdateStatusL")
       JUndefined JUndefined (pageWith [pendingCmd; chainedCmd])).2.
Proof.
  apply (newAJAXCommand_wellFormed page "rstatus.xml"
           (JFunction "UpdateStatusL") JUndefined JUndefined
           (pageWith [pendingCmd; chainedCmd])).
  - split; [by repeat constructor|]. by apply (bool_decide_unpack _).
  - apply ran. reflexivity.
Defined.

Lemma pollAJAX_partition_witness :
  wellFormed (pollAJAX page (pageWith [pendingCmd; chainedCmd; staleCmd])).2
  ∧ ∀ cur req,
      cur ∈ [pendingCmd; chainedCmd; staleCmd] → ajaxReq cur = Some req →
      (resolves 40000 cur req →
         ∀ a,
           a ∈ ajaxList
                 (pollAJAX page (pageWith [pendingCmd; chainedCmd; staleCmd])).2
           → oid a ≠ oid cur)
      ∧ (¬ resolves 40000 cur req →
         cur ∈ ajaxList
                 (pollAJAX page (pageWith [pendingCmd; chainedCmd; staleCmd])).2).
Proof.
  apply (pollAJAX_partition page (pageWith [pendingCmd; chainedCmd; staleCmd])).
  - split; [by repeat constructor|]. by apply (bool_decide_unpack _).
  - apply ran. reflexivity.
Defined.

(** ** The scenes page *)

Lemma pbind_val {A B} (m : PM A) (k : A → PM B) s a s1 :
  m s = (Val a, s1) → pbind m k s = k a s1.
Proof. intros H. unfold pbind. by rewrite H. Qed.

Lemma pbind_throw {A B} (m : PM A) (k : A → PM B) s e s1 :
  m s = (Throw e, s1) → pbind m k s = (Throw e, s1).
Proof. intros H. unfold pbind. by rewrite H. Qed.

Lemma setStyle_present id prop value s :
  is_Some (dom (sc_world s) !! id) →
  setStyle id prop value s = (Val tt, addCall (PStyle id prop value) s).
Proof. intros [x Hx]. unfold setStyle, elementById, pbind. by rewrite Hx. Qed.

(** *** [startinabit] *)

(** However often [startinabit] is called, one refresh is scheduled: the
    first call that finds [queup] other than 1 sets it and arms
    [startsd] in 3000 ms, and every call after it changes nothing. *)
Theorem startinabit_once s n :
  (startinabit s).1 = Val tt
  ∧ queup (startinabit s).2 = 1%Z
  ∧ Nat.iter n (λ s', (startinabit s').2) (startinabit s).2
    = (startinabit s).2
  ∧ pcalls (startinabit s).2
    = pcalls s ++ (if (queup s =? 1)%Z then [] else [PTimer "startsd" 3000]).
Proof.
  assert (∀ s', queup s' = 1%Z → startinabit s' = (Val tt, s')) as Hset.
  { intros s' Hq. unfold startinabit, pbind. by rewrite Hq. }
  assert (queup (startinabit s).2 = 1%Z) as Hq.
  { unfold startinabit, pbind. simpl.
    destruct (queup s =? 1)%Z eqn:Hq; [|done]. simpl. lia. }
  split; [|split; [done|split]].
  - unfold startinabit, pbind. simpl. by destruct (queup s =? 1)%Z.
  - induction n as [|n IH]; [done|]. simpl. rewrite IH. by rewrite Hset.
  - unfold startinabit, pbind. simpl.
    destruct (queup s =? 1)%Z; simpl; by rewrite ?app_nil_r.
Qed.

(** *** [UpdateStatusD] *)

Lemma statusButton_paint s i place prefix lit colour m16 cds :
  MA s 16 = Some m16 → MA s 20 = Some cds →
  paintable (dom (sc_world s)) (buttonPaint m16 cds i place prefix lit colour) →
  statusButton i place prefix lit colour s
  = (Val tt,
     {| sc_world := sc_world s; queup := queup s; MA := MA s;
        vstr1 := vstr1 s;
        pcalls := pcalls s
                  ++ buttonPaint m16 cds i place prefix lit colour |}).
Proof.
  intros H16 H20. unfold buttonPaint, statusButton, paintable.
  unfold readMA, charAtOf, pbind, pret. cbv beta iota zeta.
  rewrite H16. cbv beta iota zeta.
  destruct (String.eqb (charAt m16 _) "f"); cbv beta iota zeta; cbn [negb];
    cbv beta iota zeta;
    [intros _; rewrite app_nil_r; by destruct s|].
  rewrite H20. cbv beta iota zeta.
  destruct (String.eqb (charAt cds _) "2"); cbv beta iota zeta; cbn [negb];
    cbv beta iota zeta;
    [intros _; rewrite app_nil_r; by destruct s|].
  intros [Hid _]%Forall_cons.
  rewrite H20. cbv beta iota zeta.
  destruct (String.eqb (charAt cds _) lit); by rewrite setStyle_present.
Qed.

Lemma statusButton_null s i place prefix lit colour m16 :
  MA s 16 = Some m16 → MA s 20 = None →
  statusButton i place prefix lit colour s
  = (if String.eqb (charAt m16 ((Z.of_nat i - 1) * 4 + place)) "f"
     then Val tt else Throw TypeError, s).
Proof.
  intros H16 H20. unfold statusButton.
  unfold readMA, charAtOf, pbind, pret, pthrow. cbv beta iota zeta.
  rewrite H16. cbv beta iota zeta.
  destruct (String.eqb (charAt m16 _) "f"); cbv beta iota zeta; cbn [negb];
    cbv beta iota zeta; [done|].
  by rewrite H20.
Qed.

Lemma statusRow_paint s i m16 m17 cds :
  MA s 16 = Some m16 → MA s 17 = Some m17 → MA s 20 = Some cds →
  paintable (dom (sc_world s)) (rowPaint m16 m17 cds i) →
  ∃ s',
    statusRow i s = (Val tt, s')
    ∧ sameButVstr s s'
    ∧ pcalls s' = pcalls s ++ rowPaint m16 m17 cds i.
Proof.
  intros H16 H17 H20. unfold rowPaint, statusRow.
  unfold readMA, charAtOf, pbind at 1 2. rewrite H17. unfold pret at 1.
  destruct (String.eqb (charAt m17 (Z.of_nat i - 1)) "f"); simpl.
  { intros _. exists s. unfold pret. rewrite app_nil_r. by repeat split. }
  intros [Hon Hoff]%Forall_app.
  erewrite pbind_val; [|reflexivity].
  erewrite pbind_val; [|by apply (statusButton_paint _ _ _ _ _ _ m16 cds)].
  rewrite (statusButton_paint _ _ _ _ _ _ m16 cds) by done.
  eexists. split; [reflexivity|]. simpl.
  rewrite <- app_assoc. by repeat split.
Qed.

Lemma forEach_paint m16 m17 cds rows :
  ∀ s,
    MA s 16 = Some m16 → MA s 17 = Some m17 → MA s 20 = Some cds →
    paintable (dom (sc_world s)) (flat_map (rowPaint m16 m17 cds) rows) →
    ∃ s',
      forEach statusRow rows s = (Val tt, s')
      ∧ sameButVstr s s'
      ∧ pcalls s' = pcalls s ++ flat_map (rowPaint m16 m17 cds) rows.
Proof.
  induction rows as [|i rows IH]; intros s H16 H17 H20 Hpaint.
  - exists s. simpl. rewrite app_nil_r. by repeat split.
  - simpl in Hpaint. apply Forall_app in Hpaint as [Hrow Hrest].
    destruct (statusRow_paint s i m16 m17 cds H16 H17 H20 Hrow)
      as (s1 & Hrun1 & (Hw1 & Hq1 & HMA1) & Hc1).
    destruct (IH s1) as (s' & Hrun & (Hw & Hq & HMA) & Hc);
      try (rewrite HMA1; done).
    { by rewrite Hw1. }
    exists s'. split; [|split].
    + simpl. by erewrite pbind_val.
    + repeat split; congruence.
    + simpl. by rewrite Hc, Hc1, app_assoc.
Qed.

Lemma UpdateStatusD_loop s xmlData m16 m17 cds :
  MA s 16 = Some m16 → MA s 17 = Some m17 →
  getXMLValue xmlData "CDS" = Val (Some cds) →
  paintable (dom (sc_world s)) (flat_map (rowPaint m16 m17 cds) (seq 1 16)) →
  ∃ s1,
    UpdateStatusD xmlData s
    = (if bool_decide (Some cds = Some "2222222222222222")
       then armTimer "startsd" 1000
       else pbind (setStyle "B1" "color" "#23498E") (λ _, setQueup 0)) s1
    ∧ sc_world s1 = sc_world s ∧ queup s1 = queup s
    ∧ (∀ k, MA s1 k = if Nat.eqb k 20 then Some cds else MA s k)
    ∧ pcalls s1 = pcalls s ++ flat_map (rowPaint m16 m17 cds) (seq 1 16).
Proof.
  intros H16 H17 Hcds Hpaint.
  unfold UpdateStatusD. unfold pbind at 1. rewrite Hcds.
  erewrite pbind_val; [|reflexivity].
  destruct (forEach_paint m16 m17 cds (seq 1 16)
              {| sc_world := sc_world s; queup := queup s;
                 MA := λ j, if Nat.eqb j 20 then Some cds else MA s j;
                 vstr1 := vstr1 s; pcalls := pcalls s |})
    as (s1 & Hloop & (Hw1 & Hq1 & HMA1) & Hc1); try done.
  exists s1. erewrite pbind_val; [|exact Hloop].
  unfold readMA, pbind at 1. cbv beta iota zeta. rewrite HMA1. simpl.
  by repeat split.
Qed.

(** A status reply other than sixteen times "2" paints the buttons and ends
    the refresh: each row that is switched on has its ON button lit for
    status "0" and its OFF button for status "1", the other button is made
    plain, rows with status "2" are left as they are; then B1 is recoloured
    and [queup] is back at 0, so that [startinabit] works again.  The
    buttons that are painted and B1 must exist. *)
Theorem UpdateStatusD_paints s xmlData m16 m17 cds :
  MA s 16 = Some m16 → MA s 17 = Some m17 →
  getXMLValue xmlData "CDS" = Val (Some cds) →
  cds ≠ "2222222222222222" →
  paintable (dom (sc_world s)) (flat_map (rowPaint m16 m17 cds) (seq 1 16)) →
  is_Some (dom (sc_world s) !! "B1") →
  ∃ s',
    UpdateStatusD xmlData s = (Val tt, s')
    ∧ queup s' = 0%Z
    ∧ MA s' 20 = Some cds
    ∧ sc_world s' = sc_world s
    ∧ pcalls s'
      = pcalls s ++ flat_map (rowPaint m16 m17 cds) (seq 1 16)
        ++ [PStyle "B1" "color" "#23498E"].
Proof.
  intros H16 H17 Hcds Hne Hpaint HB1.
  destruct (UpdateStatusD_loop s xmlData m16 m17 cds)
    as (s1 & -> & Hw1 & Hq1 & HMA1 & Hc1); try done.
  rewrite bool_decide_false by congruence.
  erewrite pbind_val; [|apply setStyle_present; by rewrite Hw1].
  eexists. split; [reflexivity|]. simpl.
  rewrite HMA1, Hc1, Hw1, <- app_assoc. by repeat split.
Qed.

Lemma rowPaint_busy m16 m17 :
  flat_map (rowPaint m16 m17 "2222222222222222") (seq 1 16) = [].
Proof.
  assert (∀ i, 1 ≤ i ≤ 16 → rowPaint m16 m17 "2222222222222222" i = [])
    as Hrow.
  { intros i Hi. unfold rowPaint, buttonPaint.
    assert (String.eqb (charAt "2222222222222222" (Z.of_nat i - 1)) "2"
            = true) as ->.
    { do 17 (destruct i as [|i]; [try lia; reflexivity|]). lia. }
    by repeat case_match. }
  cbn [seq flat_map]. rewrite !Hrow by lia. done.
Qed.

(** While the device answers sixteen times "2", no button is repainted and
    the refresh stays busy: [startsd] is armed again in 1000 ms, B1 keeps
    its colour and [queup] is not reset, so [startinabit] stays without
    effect until another status arrives. *)
Theorem UpdateStatusD_busy s xmlData m16 m17 :
  MA s 16 = Some m16 → MA s 17 = Some m17 →
  getXMLValue xmlData "CDS" = Val (Some "2222222222222222") →
  ∃ s',
    UpdateStatusD xmlData s = (Val tt, s')
    ∧ queup s' = queup s
    ∧ sc_world s' = sc_world s
    ∧ pcalls s' = pcalls s ++ [PTimer "startsd" 1000].
Proof.
  intros H16 H17 Hcds.
  destruct (UpdateStatusD_loop s xmlData m16 m17 "2222222222222222")
    as (s1 & -> & Hw1 & Hq1 & HMA1 & Hc1); try done.
  { rewrite rowPaint_busy. apply Forall_nil_2. }
  rewrite bool_decide_true by done.
  eexists. split; [reflexivity|]. simpl.
  rewrite Hc1, rowPaint_busy, app_nil_r. by repeat split.
Qed.

Lemma statusRow_null s i m16 m17 :
  MA s 16 = Some m16 → MA s 17 = Some m17 → MA s 20 = None →
  ∃ s',
    statusRow i s
    = (if rowHasButton m16 m17 i then Throw TypeError else Val tt, s')
    ∧ sameButVstr s s'
    ∧ pcalls s' = pcalls s.
Proof.
  intros H16 H17 H20. unfold rowHasButton, statusRow.
  unfold readMA, charAtOf, pbind at 1 2. cbv beta iota zeta.
  rewrite H17. unfold pret at 1. cbv beta iota zeta.
  destruct (String.eqb (charAt m17 (Z.of_nat i - 1)) "f"); cbn [negb andb].
  { by exists s. }
  erewrite pbind_val; [|reflexivity].
  set (s1 := {| sc_world := sc_world s; queup := queup s; MA := MA s;
                vstr1 := _; pcalls := pcalls s |}).
  exists s1.
  assert (MA s1 16 = Some m16) as H16' by done.
  assert (MA s1 20 = None) as H20' by done.
  split; [|done].
  destruct (String.eqb (charAt m16 ((Z.of_nat i - 1) * 4 + 1)) "f") eqn:Hon;
    cbn [negb orb].
  - erewrite pbind_val;
      [|rewrite (statusButton_null _ _ _ _ _ _ m16) by done;
        rewrite Hon; reflexivity].
    rewrite (statusButton_null _ _ _ _ _ _ m16) by done.
    by destruct (String.eqb (charAt m16 ((Z.of_nat i - 1) * 4 + 2)) "f").
  - erewrite pbind_throw; [reflexivity|].
    rewrite (statusButton_null _ _ _ _ _ _ m16) by done. by rewrite Hon.
Qed.

Lemma forEach_null m16 m17 rows :
  ∀ s,
    MA s 16 = Some m16 → MA s 17 = Some m17 → MA s 20 = None →
    ∃ s',
      forEach statusRow rows s
      = (if existsb (rowHasButton m16 m17) rows
         then Throw TypeError else Val tt, s')
      ∧ sameButVstr s s'
      ∧ pcalls s' = pcalls s.
Proof.
  induction rows as [|i rows IH]; intros s H16 H17 H20.
  - by exists s.
  - destruct (statusRow_null s i m16 m17 H16 H17 H20)
      as (s1 & Hrun1 & (Hw1 & Hq1 & HMA1) & Hc1).
    cbn [forEach existsb].
    destruct (rowHasButton m16 m17 i); cbn [orb].
    + exists s1. by erewrite pbind_throw.
    + destruct (IH s1) as (s' & Hrun & (Hw & Hq & HMA) & Hc);
        try (rewrite HMA1; done).
      exists s'. split; [by erewrite pbind_val|].
      repeat split; congruence.
Qed.

(** When the status is lost (the reply is [null], as after a timeout, or
    has no CDS field) and some row shows a button, [UpdateStatusD] raises a
    TypeError at that button.  Nothing has been painted, B1 keeps the
    colour [startsd] gave it, no timer is armed and [queup] is not reset:
    once [startinabit] had set it, every later [startinabit] returns
    without arming the refresh. *)
Theorem UpdateStatusD_lost_status s xmlData m16 m17 i :
  MA s 16 = Some m16 → MA s 17 = Some m17 →
  getXMLValue xmlData "CDS" = Val None →
  1 ≤ i ≤ 16 → rowHasButton m16 m17 i = true →
  ∃ s',
    UpdateStatusD xmlData s = (Throw TypeError, s')
    ∧ pcalls s' = pcalls s
    ∧ sc_world s' = sc_world s
    ∧ queup s' = queup s
    ∧ (queup s = 1%Z → startinabit s' = (Val tt, s')).
Proof.
  intros H16 H17 Hcds Hi Hrow.
  unfold UpdateStatusD. unfold pbind at 1. rewrite Hcds.
  erewrite pbind_val; [|reflexivity].
  destruct (forEach_null m16 m17 (seq 1 16)
              {| sc_world := sc_world s; queup := queup s;
                 MA := λ j, if Nat.eqb j 20 then None else MA s j;
                 vstr1 := vstr1 s; pcalls := pcalls s |})
    as (s1 & Hloop & (Hw1 & Hq1 & HMA1) & Hc1); try done.
  assert (existsb (rowHasButton m16 m17) (seq 1 16) = true) as Hsome.
  { apply existsb_exists. exists i. split; [apply in_seq; lia|done]. }
  rewrite Hsome in Hloop.
  exists s1. split; [by erewrite pbind_throw|].
  repeat split; try done.
  intros Hq. unfold startinabit, pbind. by rewrite Hq1, Hq.
Qed.

(** *** [UpdateStatusL] *)

(** Whatever the reply is, also [null] after a timeout, [UpdateStatusL]
    writes the RT field of the reply (or [null]) into the element RT and
    arms the next poll of rstatus.xml in 10000 ms; it never raises for the
    reply's sake and issues no request itself. *)
Theorem UpdateStatusL_rearms s xmlData :
  is_Some (dom (sc_world s) !! "RT") →
  ∃ v s',
    getXMLValue xmlData "RT" = Val v
    ∧ UpdateStatusL xmlData s = (Val tt, s')
    ∧ pcalls s' = pcalls s ++ [PInnerHTML "RT" v]
    ∧ trace (sc_world s')
      = trace (sc_world s)
        ++ [EvSetTimeout "newAJAXCommand('rstatus.xml', UpdateStatusL)" 10000]
    ∧ ajaxList (sc_world s') = ajaxList (sc_world s).
Proof.
  intros [x Hx].
  destruct (getXMLValue_returns xmlData "RT") as [v Hv].
  exists v. eexists. split; [done|].
  unfold UpdateStatusL. unfold pbind at 1. rewrite Hv.
  split.
  - unfold setInner, elementById, liftM, pbind. rewrite Hx. reflexivity.
  - by repeat split.
Qed.

(** *** The rows of [MakeSceneControl] *)

Lemma countAll_run m17 l :
  ∀ s count,
    MA s 17 = Some m17 →
    countAll l count s
    = (Val (count
            + length (List.filter
                        (λ i, String.eqb (charAt m17 (Z.of_nat i)) "f") l)),
       s).
Proof.
  induction l as [|i l IH]; intros s count H17.
  - simpl. unfold pret. by rewrite Nat.add_0_r.
  - cbn [countAll List.filter].
    erewrite pbind_val;
      [|unfold countOff, readMA, charAtOf, pbind, pret; cbv beta iota zeta;
        rewrite H17; reflexivity].
    rewrite IH by done.
    destruct (String.eqb (charAt m17 (Z.of_nat i)) "f"); simpl;
      do 2 f_equal; lia.
Qed.

Lemma filter_short {A} (f : A → bool) (l : list A) :
  length (List.filter f l) ≠ length l → ∃ x, In x l ∧ f x = false.
Proof.
  induction l as [|a l IH]; simpl; [done|].
  destruct (f a) eqn:Hfa; simpl.
  - intros Hlen. destruct IH as (x & Hx & Hfx); [lia|]. eauto.
  - eauto.
Qed.

Lemma filter_full {A} (f : A → bool) (l : list A) :
  (∃ x, In x l ∧ f x = false) → length (List.filter f l) ≠ length l.
Proof.
  intros (x & Hx & Hfx) Hlen.
  assert (List.filter f l = l) as Heq.
  { clear x Hx Hfx. induction l as [|a l IH]; simpl in *; [done|].
    pose proof (List.filter_length_le f l).
    destruct (f a); simpl in Hlen; [f_equal; apply IH; lia|lia]. }
  rewrite <- Heq in Hx. apply List.filter_In in Hx as [_ Hx]. congruence.
Qed.

(** After the check of [MakeSceneControl] some row is switched on in
    [MA[17]]: a text with a row that is not "f" among the first sixteen is
    kept as it is, and nothing on the page changes; a text whose first
    sixteen rows are all "f" is replaced by ["tfffffffffffffff"], which
    switches the first row on and no other, and that entry of [MA] is all
    that changes.  So the loop of [UpdateStatusD] always has a row to look
    at. *)
Theorem enableFirstRow_some_row s m17 :
  MA s 17 = Some m17 →
  ∃ s' m17',
    enableFirstRow s = (Val tt, s')
    ∧ MA s' 17 = Some m17'
    ∧ (∃ i, i < 16 ∧ charAt m17' (Z.of_nat i) ≠ "f")
    ∧ ((∃ i, i < 16 ∧ charAt m17 (Z.of_nat i) ≠ "f") → s' = s)
    ∧ ((∀ i, i < 16 → charAt m17 (Z.of_nat i) = "f") →
       m17' = "tfffffffffffffff")
    ∧ (∀ k, k ≠ 17 → MA s' k = MA s k)
    ∧ pcalls s' = pcalls s ∧ queup s' = queup s
    ∧ sc_world s' = sc_world s ∧ vstr1 s' = vstr1 s.
Proof.
  intros H17. unfold enableFirstRow.
  erewrite pbind_val; [|by apply countAll_run]. cbn [Nat.add].
  set (f := λ i, String.eqb (charAt m17 (Z.of_nat i)) "f").
  destruct (length (List.filter f (seq 0 16)) =? 16) eqn:Hcount.
  - apply Nat.eqb_eq in Hcount.
    eexists. exists "tfffffffffffffff". split; [reflexivity|].
    split; [done|]. split; [exists 0; split; [lia|done]|].
    split; [|split; [|split; [|done]]].
    + intros (i & Hi & Hrow). exfalso.
      apply (filter_full f (seq 0 16)); [|done].
      exists i. split; [apply in_seq; lia|].
      unfold f. by apply String.eqb_neq.
    + done.
    + intros k Hk. simpl. by apply Nat.eqb_neq in Hk as ->.
  - apply Nat.eqb_neq in Hcount.
    destruct (filter_short f (seq 0 16)) as (i & Hi & Hrow); [done|].
    apply in_seq in Hi. apply String.eqb_neq in Hrow.
    exists s, m17. unfold pret.
    split; [done|]. split; [done|]. split; [exists i; split; [lia|done]|].
    split; [done|]. split; [|done].
    intros Hall. exfalso. apply Hrow, Hall. lia.
Qed.

(** *** The theorems on the scenes page *)

Lemma UpdateStatusD_paints_witness :
  ∃ s',
    UpdateStatusD (Some (statusReply [Text "011"])) scenePage = (Val tt, s')
    ∧ queup s' = 0%Z
    ∧ MA s' 20 = Some "011"
    ∧ sc_world s' = sc_world scenePage
    ∧ pcalls s'
      = pcalls scenePage
        ++ flat_map (rowPaint "tttttffftftt" "tftfffffffffffff" "011")
             (seq 1 16)
        ++ [PStyle "B1" "color" "#23498E"].
Proof.
  apply (UpdateStatusD_paints scenePage (Some (statusReply [Text "011"]))
           "tttttffftftt" "tftfffffffffffff" "011");
    [reflexivity|reflexivity|reflexivity|discriminate| |by eexists].
  repeat constructor; by eexists.
Defined.

Lemma UpdateStatusD_busy_witness :
  ∃ s',
    UpdateStatusD (Some (statusReply [Text "2222222222222222"])) scenePage
    = (Val tt, s')
    ∧ queup s' = queup scenePage
    ∧ sc_world s' = sc_world scenePage
    ∧ pcalls s' = pcalls scenePage ++ [PTimer "startsd" 1000].
Proof.
  exact (UpdateStatusD_busy scenePage
           (Some (statusReply [Text "2222222222222222"]))
           "tttttffftftt" "tftfffffffffffff" eq_refl eq_refl eq_refl).
Defined.

Lemma UpdateStatusD_lost_status_witness :
  ∃ s',
    UpdateStatusD None scenePage = (Throw TypeError, s')
    ∧ pcalls s' = pcalls scenePage
    ∧ sc_world s' = sc_world scenePage
    ∧ queup s' = queup scenePage
    ∧ (queup scenePage = 1%Z → startinabit s' = (Val tt, s')).
Proof.
  apply (UpdateStatusD_lost_status scenePage None
           "tttttffftftt" "tftfffffffffffff" 3);
    [reflexivity|reflexivity|reflexivity|lia|reflexivity].
Defined.

Lemma UpdateStatusL_rearms_witness :
  ∃ v s',
    getXMLValue None "RT" = Val v
    ∧ UpdateStatusL None scenePage = (Val tt, s')
    ∧ pcalls s' = pcalls scenePage ++ [PInnerHTML "RT" v]
    ∧ trace (sc_world s')
      = trace (sc_world scenePage)
        ++ [EvSetTimeout "newAJAXCommand('rstatus.xml', UpdateStatusL)" 10000]
    ∧ ajaxList (sc_world s') = ajaxList (sc_world scenePage).
Proof.
  apply (UpdateStatusL_rearms scenePage None). by eexists.
Defined.

Lemma enableFirstRow_some_row_witness :
  (∃ s' m17',
     enableFirstRow scenePage = (Val tt, s')
     ∧ MA s' 17 = Some m17'
     ∧ (∃ i, i < 16 ∧ charAt m17' (Z.of_nat i) ≠ "f")
     ∧ ((∃ i, i < 16 ∧ charAt "tftfffffffffffff" (Z.of_nat i) ≠ "f")
        → s' = scenePage)
     ∧ ((∀ i, i < 16 → charAt "tftfffffffffffff" (Z.of_nat i) = "f") →
        m17' = "tfffffffffffffff")
     ∧ (∀ k, k ≠ 17 → MA s' k = MA scenePage k)
     ∧ pcalls s' = pcalls scenePage ∧ queup s' = queup scenePage
     ∧ sc_world s' = sc_world scenePage ∧ vstr1 s' = vstr1 scenePage) ∧
  (∃ s' m17',
     enableFirstRow darkPage = (Val tt, s')
     ∧ MA s' 17 = Some m17'
     ∧ (∃ i, i < 16 ∧ charAt m17' (Z.of_nat i) ≠ "f")
     ∧ ((∃ i, i < 16 ∧ charAt "ffffffffffffffff" (Z.of_nat i) ≠ "f")
        → s' = darkPage)
     ∧ ((∀ i, i < 16 → charAt "ffffffffffffffff" (Z.of_nat i) = "f") →
        m17' = "tfffffffffffffff")
     ∧ (∀ k, k ≠ 17 → MA s' k = MA darkPage k)
     ∧ pcalls s' = pcalls darkPage ∧ queup s' = queup darkPage
     ∧ sc_world s' = sc_world darkPage ∧ vstr1 s' = vstr1 darkPage).
Proof.
  exact (conj (enableFirstRow_some_row scenePage "tftfffffffffffff" eq_refl)
              (enableFirstRow_some_row darkPage "ffffffffffffffff" eq_refl)).
Defined.

(** ** The image builder *)

Section MakeImageFacts.

Context {FS : Type}.
Variable ops : hostOps FS.
Variable Opt : options.

Lemma sbind_inl {A B} (m : Step A) (k : A → Step B) (h h1 : host FS) a :
  m h = (inl a, h1) → sbind m k h = k a h1.
Proof. intros H. unfold sbind. by rewrite H. Qed.

Lemma sbind_inr {A B} (m : Step A) (k : A → Step B) (h h1 : host FS) e :
  m h = (inr e, h1) → sbind m k h = (inr e, h1).
Proof. intros H. unfold sbind. by rewrite H. Qed.

Lemma shape_ret {A} Q (a : A) (h : host FS) : shape Opt Q [] h (inl a) h.
Proof.
  exists []. simpl. rewrite app_nil_r. by repeat split.
Qed.

Lemma shape_stop {A} Q names (e : ending) (h : host FS) :
  (∀ cmd st, e ≠ Halted cmd st) → e ≠ Finished →
  shape Opt Q names h (inr e : A + ending) h.
Proof.
  intros He Hfin. exists []. simpl. rewrite app_nil_r.
  split; [done|]. split.
  { destruct e as [| | | | |cmd st|]; try by constructor.
    by destruct (He cmd st). }
  split; [apply prefix_nil|]. split; [by intros [a Ha]|].
  repeat split; [done|congruence].
Qed.

Lemma okCalls_inl {A} calls (a : A) :
  okCalls Opt calls (inl a : A + ending)
  → Forall (λ c, c_status c = 0%Z) calls.
Proof. done. Qed.

Lemma okCalls_app {A B} calls1 calls2 (a : A) (r : B + ending) :
  okCalls Opt calls1 (inl a : A + ending) → okCalls Opt calls2 r →
  okCalls Opt (calls1 ++ calls2) r.
Proof.
  intros H1 H2. destruct r as [b|e]; [by apply Forall_app|].
  destruct e; try by apply Forall_app.
  destruct H2 as (Hfake & Hst & pre & args & -> & Hpre).
  split; [done|]. split; [done|].
  exists (calls1 ++ pre), args. split; [by rewrite app_assoc|].
  by apply Forall_app.
Qed.

Lemma okCalls_inr {A B} calls e :
  okCalls Opt calls (inr e : A + ending) →
  okCalls Opt calls (inr e : B + ending).
Proof. done. Qed.

Lemma shape_bind {A B} Q (m : Step A) (k : A → Step B) n1 n2
    (h : host FS) r h' :
  (∀ r1 h1, m h = (r1, h1) → shape Opt Q n1 h r1 h1) →
  (∀ a h1 r h', k a h1 = (r, h') → shape Opt Q n2 h1 r h') →
  sbind m k h = (r, h') →
  shape Opt Q (n1 ++ n2) h r h'.
Proof.
  intros Hm Hk. unfold sbind.
  destruct (m h) as [[a|e] h1] eqn:Hrun; intros Hrest.
  - destruct (Hm _ _ eq_refl)
      as (c1 & Ho1 & Hs1 & Hp1 & Ha1 & HQ1 & Hf1 & He1).
    destruct (Hk _ _ _ _ Hrest)
      as (c2 & Ho2 & Hs2 & Hp2 & Ha2 & HQ2 & Hf2 & He2).
    exists (c1 ++ c2). rewrite flat_map_app, map_app.
    rewrite (Ha1 (ex_intro _ a eq_refl)).
    split; [by rewrite Ho2, Ho1, app_assoc|].
    split; [by eapply okCalls_app|].
    split; [by apply prefix_app|].
    split; [intros Hr; by rewrite Ha2|].
    split; [by apply Forall_app|].
    split; [|done].
    intros Hfake. by rewrite Hf2, Hf1.
  - injection Hrest as <- <-.
    destruct (Hm _ _ eq_refl)
      as (c1 & Ho1 & Hs1 & Hp1 & Ha1 & HQ1 & Hf1 & He1).
    exists c1. repeat split; try done.
    + by apply prefix_app_r.
    + by intros [b Hb].
    + congruence.
Qed.

Lemma my_system_shape Q cmd args (h : host FS) r h' :
  (∀ st, Q {| c_cmd := cmd;
              c_args := (if o_verbose Opt then ["--verbose"] else []) ++ args;
              c_status := st |}) →
  my_system ops Opt cmd args h = (r, h') →
  shape Opt Q [cmd] h r h'.
Proof.
  intros HQ. unfold my_system, shape, callEvents, okCalls.
  set (args' := if o_verbose Opt then "--verbose" :: args else args).
  assert ((if o_verbose Opt then ["--verbose"] else []) ++ args = args')
    as Hargs by (unfold args'; by destruct (o_verbose Opt)).
  rewrite Hargs in HQ.
  destruct (o_fake Opt) eqn:Hfake; cbn [orb].
  - unfold sbind, say, sret. intros [= <- <-].
    exists [{| c_cmd := cmd; c_args := args'; c_status := 0 |}].
    simpl. repeat split; try done; by repeat constructor.
  - destruct (system ops (h_fs h) cmd args') as [st fs'] eqn:Hsys.
    assert (∃ l, (if o_verbose Opt
                  then say (Stderr (commandLine cmd args'))
                  else sret tt) h
                 = (inl tt, {| h_fs := h_fs h; h_out := h_out h ++ l |})
                 ∧ l = if o_verbose Opt
                       then [Stderr (commandLine cmd args')] else [])
      as (l & Hsay & Hl).
    { destruct (o_verbose Opt); eexists; split; try reflexivity.
      unfold sret. rewrite app_nil_r. by destruct h. }
    erewrite sbind_inl; [|exact Hsay]. simpl. rewrite Hsys.
    destruct (st =? 0)%Z eqn:Hst; intros [= <- <-];
      exists [{| c_cmd := cmd; c_args := args'; c_status := st |}]; simpl.
    + apply Z.eqb_eq in Hst as ->.
      rewrite app_nil_r, <- app_assoc, <- Hl.
      repeat split; try done; by repeat constructor.
    + apply Z.eqb_neq in Hst.
      rewrite app_nil_r, <- app_assoc, <- Hl.
      repeat split; try done; try (by repeat constructor).
      by exists [], args'.
Qed.

Lemma collect_ends pat entries e :
  collect ops pat entries = inr e → e = BadPattern (perlText pat).
Proof.
  induction entries as [|[name isFile] rest IH]; simpl; [done|].
  destruct isFile; [|done].
  destruct (perlTrue pat).
  - destruct (re_match ops (perlText pat) (stripDotSlash name)) as [[]|];
      try done; [|congruence].
    destruct (collect ops pat rest); [done|]. intros [= <-]. by apply IH.
  - destruct (collect ops pat rest); [done|]. intros [= <-]. by apply IH.
Qed.

Lemma find_files_shape Q pat (h : host FS) r h' :
  find_files ops pat h = (r, h') → shape Opt Q [] h r h'.
Proof.
  unfold find_files. intros [= <- <-].
  destruct (collect ops pat (walk ops (h_fs h))) as [files|e] eqn:Hc.
  - apply shape_ret.
  - apply collect_ends in Hc as ->. by apply shape_stop.
Qed.

Lemma build_shape idx test image c_file (h : host FS) r h' :
  build ops Opt idx test image c_file h = (r, h') →
  shape Opt (callOK Opt idx test image c_file) (planned Opt idx test) h r h'.
Proof.
  unfold build, planned.
  apply shape_bind.
  { intros r1 h1. destruct (perlTrue test); [destruct (perlTrue idx) eqn:Hidx|].
    - apply my_system_shape. intros st. eexists. split; [reflexivity|].
      left. by repeat split.
    - unfold stop. intros [= <- <-]. by apply shape_stop.
    - unfold sret. intros [= <- <-]. apply shape_ret. }
  intros _ h1 r1 h1'. apply shape_bind.
  { intros r2 h2. destruct (perlTrue idx) eqn:Hidx.
    - apply (shape_bind _ _ _ [] ["mpfs2-indexer"]).
      + intros r3 h3. apply find_files_shape.
      + intros files h3 r3 h3'. apply my_system_shape. intros st.
        eexists. split; [reflexivity|]. right. left. eauto.
    - unfold sret. intros [= <- <-]. apply shape_ret. }
  intros _ h2 r2 h2'.
  apply (shape_bind _ _ _ []
           (["mpfs2-fsutil"]
            ++ (if o_c Opt then ["mpfs2-img-to-c"] else []))).
  { intros r3 h3. apply find_files_shape. }
  intros files h3 r3 h3'. apply shape_bind.
  { intros r4 h4. apply my_system_shape. intros st.
    eexists. split; [reflexivity|]. right. right. left. eauto. }
  intros _ h4 r4 h4'. destruct (o_c Opt).
  - apply my_system_shape. intros st.
    eexists. split; [reflexivity|]. right. right. right. eauto.
  - unfold sret. intros [= <- <-]. apply shape_ret.
Qed.

Lemma make_image_shape ARGV (h : host FS) e h' :
  make_image ops Opt ARGV h = (e, h') →
  ∃ calls,
    h_out h' = h_out h ++ flat_map (callEvents Opt) calls
    ∧ okCalls Opt calls (inr e : () + ending)
    ∧ map c_cmd calls `prefix_of` planned Opt (idxOf ops Opt h) (testOf ops Opt h)
    ∧ (e = Finished
       → map c_cmd calls = planned Opt (idxOf ops Opt h) (testOf ops Opt h))
    ∧ Forall (callOK Opt (idxOf ops Opt h) (testOf ops Opt h)
                (imageOf ops Opt ARGV h) (cFileOf ops Opt ARGV h)) calls
    ∧ (calls ≠ [] ∨ e = Finished → started ops Opt ARGV h)
    ∧ (o_fake Opt = true
       → h_fs h' = h_fs h
         ∨ chdir ops (h_fs h) (dirOf ARGV) = Some (h_fs h')).
Proof.
  assert (∀ e0 (h0 : host FS),
            h_out h0 = h_out h →
            (h_fs h0 = h_fs h
             ∨ chdir ops (h_fs h) (dirOf ARGV) = Some (h_fs h0)) →
            (∀ cmd st, e0 ≠ Halted cmd st) → e0 ≠ Finished →
            (e0, h0) = (e, h') →
            ∃ calls,
              h_out h' = h_out h ++ flat_map (callEvents Opt) calls
              ∧ okCalls Opt calls (inr e : () + ending)
              ∧ map c_cmd calls
                `prefix_of` planned Opt (idxOf ops Opt h) (testOf ops Opt h)
              ∧ (e = Finished
                 → map c_cmd calls
                   = planned Opt (idxOf ops Opt h) (testOf ops Opt h))
              ∧ Forall (callOK Opt (idxOf ops Opt h) (testOf ops Opt h)
                          (imageOf ops Opt ARGV h) (cFileOf ops Opt ARGV h))
                  calls
              ∧ (calls ≠ [] ∨ e = Finished → started ops Opt ARGV h)
              ∧ (o_fake Opt = true
                 → h_fs h' = h_fs h
                   ∨ chdir ops (h_fs h) (dirOf ARGV) = Some (h_fs h')))
    as Hstop.
  { intros e0 h0 Hout Hfs Hhalt Hfin [= <- <-]. exists [].
    simpl. rewrite app_nil_r. split; [done|]. split.
    { destruct e0 as [| | | | |cmd st|]; try by constructor.
      by destruct (Hhalt cmd st). }
    split; [apply prefix_nil|]. split; [done|]. split; [done|].
    split; [|done]. by intros [|]. }
  unfold make_image.
  destruct (o_version Opt) eqn:Hversion; [by apply Hstop; auto|].
  destruct (o_help Opt) eqn:Hhelp; [by apply Hstop; auto|].
  destruct (o_info Opt) eqn:Hinfo; [by apply Hstop; auto|].
  cbn [orb].
  destruct (perlTrue (head ARGV)) eqn:Hdir; [|by apply Hstop; auto].
  cbn [andb].
  destruct (is_dir ops (h_fs h) (perlText (head ARGV))) eqn:Hisdir;
    [|by apply Hstop; auto].
  cbn [negb].
  destruct (chdir ops (h_fs h) (perlText (head ARGV))) as [fs'|] eqn:Hcd;
    [|by apply Hstop; auto].
  fold (dirOf ARGV). fold (idxOf ops Opt h) (testOf ops Opt h).
  fold (imageOf ops Opt ARGV h) (cFileOf ops Opt ARGV h).
  destruct (perlTrue (idxOf ops Opt h)
            && negb (readable ops fs' (perlText (idxOf ops Opt h))))
    eqn:Hread; [by apply Hstop; auto|].
  destruct (build ops Opt _ _ _ _ _) as [r h2] eqn:Hbuild.
  apply build_shape in Hbuild
    as (calls & Hout & Hst & Hpre & Hall & HQ & Hfake & Hnot).
  assert (started ops Opt ARGV h) as Hstarted.
  { repeat split; try done. exists fs'. split; [done|]. intros Hidx.
    rewrite Hidx in Hread. by destruct (readable ops fs' _). }
  intros Hrun. exists calls.
  assert (h2 = h' ∧ (r = inr e ∨ ((∃ a, r = inl a) ∧ e = Finished)))
    as [-> Hr].
  { destruct r as [[]|e0]; injection Hrun as <- <-; eauto. }
  simpl in Hout. split; [done|]. split.
  { destruct Hr as [->|[[a ->] ->]]; done. }
  split; [done|]. split.
  { intros ->. destruct Hr as [->|[Ha _]]; [done|by apply Hall]. }
  split; [done|]. split; [done|].
  intros Hf. right. by rewrite (Hfake Hf).
Qed.

Lemma ranOf_app l1 l2 : ranOf (l1 ++ l2) = ranOf l1 ++ ranOf l2.
Proof. apply flat_map_app. Qed.

Lemma ranOf_calls calls :
  ranOf (flat_map (callEvents Opt) calls)
  = if o_fake Opt then [] else calls.
Proof.
  induction calls as [|[cmd args st] calls IH]; simpl.
  { by destruct (o_fake Opt). }
  rewrite ranOf_app, IH. unfold callEvents.
  destruct (o_fake Opt), (o_verbose Opt); reflexivity.
Qed.

Lemma planned_pipeline idx test : planned Opt idx test `sublist_of` pipeline.
Proof.
  unfold planned, pipeline.
  destruct (perlTrue test), (perlTrue idx), (o_c Opt); simpl;
    repeat first [apply sublist_nil | apply sublist_skip, sublist_nil
                 | apply sublist_skip | apply sublist_cons];
   repeat constructor.
Qed.

(** The programs are run in the order of the script, each at most once and
    none after one that failed: what a run has started is a beginning of
    what the options ask for, every program but the last returned 0, and
    the run is halted exactly for a last program that did not. *)
Theorem programs_in_order ARGV (h : host FS) e h' :
  make_image ops Opt ARGV h = (e, h') →
  ∃ new,
    h_out h' = h_out h ++ new
    ∧ map c_cmd (ranOf new)
      `prefix_of` planned Opt (idxOf ops Opt h) (testOf ops Opt h)
    ∧ planned Opt (idxOf ops Opt h) (testOf ops Opt h) `sublist_of` pipeline
    ∧ okCalls Opt (ranOf new) (inr e : () + ending)
    ∧ (e = Finished → o_fake Opt = false
       → map c_cmd (ranOf new)
         = planned Opt (idxOf ops Opt h) (testOf ops Opt h)).
Proof.
  intros Hrun.
  destruct (make_image_shape _ _ _ _ Hrun)
    as (calls & Hout & Hst & Hpre & Hall & HQ & Hstart & Hfs).
  exists (flat_map (callEvents Opt) calls). rewrite ranOf_calls.
  split; [done|]. split; [|split; [apply planned_pipeline|split]].
  - destruct (o_fake Opt); [apply prefix_nil|done].
  - destruct (o_fake Opt) eqn:Hfake; [|done].
    destruct e; try by constructor. destruct Hst as [Hreal _]. congruence.
  - intros -> ->. by apply Hall.
Qed.

Lemma callEvents_fake calls :
  o_fake Opt = true →
  flat_map (callEvents Opt) calls
  = map (λ c, Stderr (commandLine (c_cmd c) (c_args c))) calls.
Proof.
  intros Hfake. induction calls as [|c calls IH]; simpl; [done|].
  rewrite IH. unfold callEvents. by rewrite Hfake.
Qed.

Lemma callEvents_verbose calls :
  o_fake Opt = false → o_verbose Opt = true →
  flat_map (callEvents Opt) calls
  = flat_map (λ c, [Stderr (commandLine (c_cmd c) (c_args c));
                    Ran (c_cmd c) (c_args c) (c_status c)]) calls.
Proof.
  intros Hfake Hverbose. induction calls as [|c calls IH]; simpl; [done|].
  rewrite IH. unfold callEvents. by rewrite Hfake, Hverbose.
Qed.

(** With [--fake] no program is run.  The script prints the commands it
    would have run, a beginning of what the options ask for and all of it
    when the run reaches the last line; it is never halted, and the file
    system is as it was, but for the working directory. *)
Theorem fake_runs_nothing ARGV (h : host FS) e h' :
  o_fake Opt = true →
  make_image ops Opt ARGV h = (e, h') →
  ∃ calls,
    h_out h' = h_out h
               ++ map (λ c, Stderr (commandLine (c_cmd c) (c_args c))) calls
    ∧ ranOf (h_out h') = ranOf (h_out h)
    ∧ (∀ cmd st, e ≠ Halted cmd st)
    ∧ (h_fs h' = h_fs h ∨ chdir ops (h_fs h) (dirOf ARGV) = Some (h_fs h'))
    ∧ map c_cmd calls
      `prefix_of` planned Opt (idxOf ops Opt h) (testOf ops Opt h)
    ∧ (e = Finished
       → map c_cmd calls = planned Opt (idxOf ops Opt h) (testOf ops Opt h))
    ∧ Forall (callOK Opt (idxOf ops Opt h) (testOf ops Opt h)
                (imageOf ops Opt ARGV h) (cFileOf ops Opt ARGV h)) calls.
Proof.
  intros Hfake Hrun.
  destruct (make_image_shape _ _ _ _ Hrun)
    as (calls & Hout & Hst & Hpre & Hall & HQ & Hstart & Hfs).
  exists calls. rewrite <- callEvents_fake by done.
  split; [done|]. split.
  { rewrite Hout, ranOf_app, ranOf_calls, Hfake. by rewrite app_nil_r. }
  split; [|by auto].
  intros cmd st ->. destruct Hst as [Hreal _]. congruence.
Qed.

(** With [--verbose], and without [--fake], every program is announced:
    the log is, program by program, the line of the command and then its
    run, and every program gets [--verbose] as its first argument. *)
Theorem verbose_traces_programs ARGV (h : host FS) e h' :
  o_verbose Opt = true → o_fake Opt = false →
  make_image ops Opt ARGV h = (e, h') →
  ∃ calls,
    h_out h'
    = h_out h
      ++ flat_map (λ c, [Stderr (commandLine (c_cmd c) (c_args c));
                         Ran (c_cmd c) (c_args c) (c_status c)]) calls
    ∧ Forall (λ c, head (c_args c) = Some "--verbose") calls.
Proof.
  intros Hverbose Hfake Hrun.
  destruct (make_image_shape _ _ _ _ Hrun)
    as (calls & Hout & Hst & Hpre & Hall & HQ & Hstart & Hfs).
  exists calls. rewrite <- callEvents_verbose by done.
  split; [done|].
  eapply Forall_impl; [exact HQ|].
  intros c (rest & Hargs & _). rewrite Hargs. by rewrite Hverbose.
Qed.


Lemma callEvents_nil calls : flat_map (callEvents Opt) calls = [] → calls = [].
Proof.
  destruct calls as [|c calls]; [done|]. simpl. unfold callEvents.
  destruct (o_fake Opt), (o_verbose Opt); done.
Qed.


(** The programs that work on the index, [mpfs2-make-code] and
    [mpfs2-indexer], are run only with an IDX file that the script could
    read from the directory, which they get as their first argument
    (after [--verbose]). *)
Theorem indexing_needs_idx ARGV (h : host FS) e h' c :
  make_image ops Opt ARGV h = (e, h') →
  c ∈ ranOf (h_out h') → c ∉ ranOf (h_out h) →
  c_cmd c = "mpfs2-make-code" ∨ c_cmd c = "mpfs2-indexer" →
  ∃ fs' rest,
    chdir ops (h_fs h) (dirOf ARGV) = Some fs'
    ∧ perlTrue (idxOf ops Opt h) = true
    ∧ readable ops fs' (perlText (idxOf ops Opt h)) = true
    ∧ c_args c = (if o_verbose Opt then ["--verbose"] else [])
                 ++ perlText (idxOf ops Opt h) :: rest.
Proof.
  intros Hrun Hc Hold Hcmd.
  destruct (make_image_shape _ _ _ _ Hrun)
    as (calls & Hout & Hst & Hpre & Hall & HQ & Hstart & Hfs).
  rewrite Hout, ranOf_app, ranOf_calls in Hc.
  apply elem_of_app in Hc as [Hc|Hc]; [done|].
  destruct (o_fake Opt); [by apply elem_of_nil in Hc|].
  destruct Hstart as (_ & _ & _ & _ & _ & fs' & Hcd & Hread).
  { left. intros ->. by apply elem_of_nil in Hc. }
  rewrite Forall_forall in HQ.
  destruct (HQ c Hc) as (rest & Hargs & Hcase).
  assert (perlTrue (idxOf ops Opt h) = true
          ∧ ∃ rest', rest = perlText (idxOf ops Opt h) :: rest')
    as [Hidx [rest' ->]].
  { destruct Hcase as [(_ & Hidx & ->)|[(_ & Hidx & files & ->)|
                       [(Hfs' & _)|(Hc' & _)]]]; eauto;
      destruct Hcmd; congruence. }
  exists fs', rest'. auto.
Qed.


Lemma collect_all entries :
  collect ops None entries
  = inl (map (λ x, stripDotSlash x.1) (List.filter snd entries)).
Proof.
  induction entries as [|[name isFile] rest IH]; simpl; [done|].
  rewrite IH. by destruct isFile.
Qed.

Lemma collect_sublist pat entries files :
  collect ops pat entries = inl files →
  files `sublist_of` map (λ x, stripDotSlash x.1) (List.filter snd entries).
Proof.
  revert files.
  induction entries as [|[name isFile] rest IH]; simpl; intros files.
  { by intros [= <-]. }
  destruct isFile; simpl; [|by apply IH].
  assert (match collect ops pat rest with
          | inl hits => inl (stripDotSlash name :: hits)
          | inr e => inr e
          end = inl files →
          files `sublist_of`
            stripDotSlash name
            :: map (λ x, stripDotSlash x.1) (List.filter snd rest))
    as Hkeep.
  { destruct (collect ops pat rest) as [hits|]; [|done].
    intros [= <-]. apply sublist_skip. by apply IH. }
  destruct (perlTrue pat); [|done].
  destruct (re_match ops (perlText pat) (stripDotSlash name)) as [[]|];
    [done| |done].
  intros Hrest. apply sublist_cons. by apply IH.
Qed.

(** The files that are indexed are files of the image: whatever the
    pattern, what [find_files] returns for it is, in the same order, part
    of what it returns without a pattern, which is every plain file below
    the directory, named without the leading ./ ; and without a pattern,
    as for a pattern that is false, it does not fail. *)
Theorem find_files_sublist pat (h : host FS) files h' :
  find_files ops pat h = (inl files, h') →
  h' = h
  ∧ ∃ all,
      find_files ops None h = (inl all, h)
      ∧ files `sublist_of` all
      ∧ all = map (λ x, stripDotSlash x.1) (List.filter snd (walk ops (h_fs h)))
      ∧ (perlTrue pat = false → files = all).
Proof.
  unfold find_files. intros [= Hfiles <-]. split; [done|].
  eexists. split; [by rewrite collect_all|].
  split; [by eapply collect_sublist|]. split; [done|].
  intros Hpat. revert Hfiles. generalize (walk ops (h_fs h)). clear h.
  intros entries. revert files.
  induction entries as [|[name isFile] rest IH]; simpl; intros files.
  { by intros [= <-]. }
  rewrite Hpat. destruct isFile; simpl; [|by apply IH].
  destruct (collect ops pat rest) as [hits|]; [|done].
  intros [= <-]. f_equal. by apply IH.
Qed.

End MakeImageFacts.

Lemma ended {A B} (x : A * B) (a : A) : x.1 = a → x = (a, x.2).
Proof. destruct x. simpl. congruence. Qed.

Lemma programs_in_order_witness :
  ∃ new,
    h_out (make_image demoOps limitOpt ["image"] demoHost).2
    = h_out demoHost ++ new
    ∧ map c_cmd (ranOf new)
      `prefix_of` planned limitOpt (idxOf demoOps limitOpt demoHost)
                    (testOf demoOps limitOpt demoHost)
    ∧ planned limitOpt (idxOf demoOps limitOpt demoHost)
        (testOf demoOps limitOpt demoHost) `sublist_of` pipeline
    ∧ okCalls limitOpt (ranOf new)
        (inr (Halted "mpfs2-fsutil" 256) : () + ending)
    ∧ (Halted "mpfs2-fsutil" 256 = Finished → o_fake limitOpt = false
       → map c_cmd (ranOf new)
         = planned limitOpt (idxOf demoOps limitOpt demoHost)
             (testOf demoOps limitOpt demoHost)).
Proof.
  exact (programs_in_order demoOps limitOpt ["image"] demoHost
           (Halted "mpfs2-fsutil" 256) _ (ended _ _ eq_refl)).
Defined.

Lemma fake_runs_nothing_witness :
  ∃ calls,
    h_out (make_image demoOps fakeOpt ["image"] demoHost).2
    = h_out demoHost
      ++ map (λ c, Stderr (commandLine (c_cmd c) (c_args c))) calls
    ∧ ranOf (h_out (make_image demoOps fakeOpt ["image"] demoHost).2)
      = ranOf (h_out demoHost)
    ∧ (∀ cmd st, Finished ≠ Halted cmd st)
    ∧ (h_fs (make_image demoOps fakeOpt ["image"] demoHost).2 = h_fs demoHost
       ∨ chdir demoOps (h_fs demoHost) (dirOf ["image"])
         = Some (h_fs (make_image demoOps fakeOpt ["image"] demoHost).2))
    ∧ map c_cmd calls
      `prefix_of` planned fakeOpt (idxOf demoOps fakeOpt demoHost)
                    (testOf demoOps fakeOpt demoHost)
    ∧ (Finished = Finished
       → map c_cmd calls
         = planned fakeOpt (idxOf demoOps fakeOpt demoHost)
             (testOf demoOps fakeOpt demoHost))
    ∧ Forall (callOK fakeOpt (idxOf demoOps fakeOpt demoHost)
                (testOf demoOps fakeOpt demoHost)
                (imageOf demoOps fakeOpt ["image"] demoHost)
                (cFileOf demoOps fakeOpt ["image"] demoHost)) calls.
Proof.
  exact (fake_runs_nothing demoOps fakeOpt ["image"] demoHost Finished _
           eq_refl (ended _ _ eq_refl)).
Defined.

Lemma verbose_traces_programs_witness :
  ∃ calls,
    h_out (make_image demoOps verboseOpt ["image"] demoHost).2
    = h_out demoHost
      ++ flat_map (λ c, [Stderr (commandLine (c_cmd c) (c_args c));
                         Ran (c_cmd c) (c_args c) (c_status c)]) calls
    ∧ Forall (λ c, head (c_args c) = Some "--verbose") calls.
Proof.
  exact (verbose_traces_programs demoOps verboseOpt ["image"] demoHost
           Finished _ eq_refl eq_refl (ended _ _ eq_refl)).
Defined.



Lemma indexing_needs_idx_witness :
  ∃ fs' rest,
    chdir demoOps (h_fs demoHost) (dirOf ["image"]) = Some fs'
    ∧ perlTrue (idxOf demoOps demoOpt demoHost) = true
    ∧ readable demoOps fs' (perlText (idxOf demoOps demoOpt demoHost)) = true
    ∧ ["/srv/HTTPPrint.idx"; "index.htm"; "status.htm"; "test.htm"]
      = (if o_verbose demoOpt then ["--verbose"] else [])
        ++ perlText (idxOf demoOps demoOpt demoHost) :: rest.
Proof.
  apply (indexing_needs_idx demoOps demoOpt ["image"] demoHost Finished
           (make_image demoOps demoOpt ["image"] demoHost).2
           {| c_cmd := "mpfs2-indexer";
              c_args := ["/srv/HTTPPrint.idx"; "index.htm"; "status.htm";
                         "test.htm"];
              c_status := 0 |}
           (ended _ _ eq_refl)).
  - apply list_elem_of_In. vm_compute. tauto.
  - apply not_elem_of_nil.
  - by right.
Defined.


Lemma find_files_sublist_witness :
  demoHost = demoHost
  ∧ ∃ all,
      find_files demoOps None demoHost = (inl all, demoHost)
      ∧ ["index.htm"; "status.htm"] `sublist_of` all
      ∧ all = map (λ x, stripDotSlash x.1)
                (List.filter snd (walk demoOps (h_fs demoHost)))
      ∧ (perlTrue (o_index_file_re demoOpt) = false
         → ["index.htm"; "status.htm"] = all).
Proof.
  exact (find_files_sublist demoOps (o_index_file_re demoOpt) demoHost
           ["index.htm"; "status.htm"] demoHost eq_refl).
Defined.
